(** * Email automation core of aileadgen-backend

    A shallow embedding of three services of the backend and the properties
    its specification states about them:

    - [services/workflow_service.py]: workflow definitions and the per-lead
      execution state machine;
    - [services/email_compliance_service.py]: suppression list, unsubscribe
      audit trail and unsubscribe tokens;
    - [services/bounce_handling_service.py]: bounce ledger and delivery
      failure retries.

    Modelling conventions.

    - Every service keeps its collections in JSON files that hold one array
      each and are re-read at the start of every call.  A store is therefore a
      [list] of records, in file order; a service call is a function from a
      state to a result and a new state.  File input and output is assumed not
      to fail (the [except] branches around [open] are not modelled).
    - [datetime] values are integers counting microseconds from the epoch
      of [timestamp()].  A service call takes the reading [now] of
      [datetime.utcnow()]; the few readings made during one call are
      identified.  Where a number supplied by a caller enters the
      arithmetic (the delay of a workflow step, the age limit of a cleanup)
      the [OverflowError] of [timedelta] and of the [datetime] range is
      modelled; the fixed retry delays of at most a few minutes are added
      to the clock reading as they are.
    - Python [int] is [Z]; [str] is [string], read as ASCII text; [Optional]
      is [option]; status words stay the strings the source compares. *)

From Stdlib Require Import ZArith List String Ascii Bool Lia ZifyNat.
From Stdlib Require Import DecimalString DecimalZ.
Import ListNotations.
Open Scope string_scope.
Open Scope list_scope.
Open Scope Z_scope.

Set Implicit Arguments.

(** ** Time *)

Definition datetime := Z.

Definition timedelta_days (d : Z) : Z := d * 86400000000.
Definition timedelta_hours (h : Z) : Z := h * 3600000000.
Definition timedelta_minutes (m : Z) : Z := m * 60000000.

(** [datetime.min] (0001-01-01 00:00:00) and [datetime.max]
    (9999-12-31 23:59:59.999999). *)
Definition datetime_min : Z := -62135596800000000.
Definition datetime_max : Z := 253402300799999999.

(** [timedelta.min] (-999999999 days) and [timedelta.max] (999999999 days,
    23:59:59.999999). *)
Definition timedelta_min : Z := -86399999913600000000.
Definition timedelta_max : Z := 86399999999999999999.

Definition timedelta_ok (delta : Z) : bool :=
  (timedelta_min <=? delta) && (delta <=? timedelta_max).

Definition datetime_ok (t : Z) : bool :=
  (datetime_min <=? t) && (t <=? datetime_max).

(** [t + timedelta(...)] and [t - timedelta(...)] for a duration of [delta]
    microseconds.  [None] is the [OverflowError] Python raises when the
    duration is not a [timedelta] or the result is not a [datetime]. *)
Definition datetime_add (t : datetime) (delta : Z) : option datetime :=
  if timedelta_ok delta && datetime_ok (t + delta) then Some (t + delta)
  else None.

Definition datetime_sub (t : datetime) (delta : Z) : option datetime :=
  if timedelta_ok delta && datetime_ok (t - delta) then Some (t - delta)
  else None.

(** [int(t.timestamp())]: whole seconds, truncated towards zero. *)
Definition timestamp_int (t : datetime) : Z := Z.quot t 1000000.

(** ** Strings *)

(** [str(n)] for an integer, as an f-string prints it. *)
Definition str_int (n : Z) : string := NilZero.string_of_int (Z.to_int n).

(** [f"{x}"] for a value that is a string or [None]. *)
Definition str_optional (x : option string) : string :=
  match x with
  | Some text => text
  | None => "None"
  end.

Definition opt_eqb (a b : option string) : bool :=
  match a, b with
  | Some x, Some y => String.eqb x y
  | None, None => true
  | _, _ => false
  end.

(** [str.lower()] on ASCII text. *)
Definition lower_ascii (c : ascii) : ascii :=
  let n := nat_of_ascii c in
  if (Nat.leb 65 n && Nat.leb n 90)%bool then ascii_of_nat (n + 32) else c.

Fixpoint lower (s : string) : string :=
  match s with
  | EmptyString => EmptyString
  | String c r => String (lower_ascii c) (lower r)
  end.

(** The characters [str.strip()] removes: tab, line feed, vertical tab, form
    feed, carriage return, the four separators 28..31 and the space. *)
Definition is_space (c : ascii) : bool :=
  let n := nat_of_ascii c in
  ((Nat.leb 9 n && Nat.leb n 13) || (Nat.leb 28 n && Nat.leb n 32))%bool.

Fixpoint lstrip (s : string) : string :=
  match s with
  | EmptyString => EmptyString
  | String c r => if is_space c then lstrip r else s
  end.

Definition is_empty (s : string) : bool :=
  match s with EmptyString => true | String _ _ => false end.

Fixpoint rstrip (s : string) : string :=
  match s with
  | EmptyString => EmptyString
  | String c r =>
      let r' := rstrip r in
      if (is_space c && is_empty r')%bool then EmptyString else String c r'
  end.

Definition strip (s : string) : string := rstrip (lstrip s).

(** [email.lower().strip()], the key under which the mail services file an
    address. *)
Definition normalize_email (email : string) : string := strip (lower email).

(** Python sequence indexing [l[i]]: negative indices count from the end, an
    index out of range raises [IndexError] ([None] here). *)
Definition py_index {A : Type} (l : list A) (i : Z) : option A :=
  let n := Z.of_nat (List.length l) in
  if (0 <=? i) && (i <? n) then nth_error l (Z.to_nat i)
  else if (i <? 0) && (- n <=? i) then nth_error l (Z.to_nat (n + i))
  else None.

(** A JSON object with string keys, as the services pass around in
    [details], [conditions] and [settings]; values are kept as optional
    strings. *)
Definition Dict := list (string * option string).

(** Truth value of an [Optional[Dict]]: [None] and the empty dict are false. *)
Definition dict_truthy (d : option Dict) : bool :=
  match d with
  | Some (_ :: _) => true
  | _ => false
  end.

(** ** Workflow service ([services/workflow_service.py]) *)

Module WorkflowService.

Record WorkflowStep := mkStep {
  step_id : string;
  step_template_id : string;
  delay_days : Z;
  delay_hours : Z;
  conditions : Dict;
  order : Z
}.

(** [open_rate] and [click_rate], two floats no method writes, are left
    out. *)
Record EmailWorkflow := mkWorkflow {
  wf_id : string;
  name : string;
  description : string;
  trigger_type : string;
  target_audience : string;
  wf_status : string;
  steps : list WorkflowStep;
  settings : Dict;
  created_at : datetime;
  updated_at : datetime;
  total_triggered : Z;
  emails_sent : Z;
  last_activity : option datetime
}.

Record WorkflowExecution := mkExecution {
  ex_id : string;
  workflow_id : string;
  lead_id : string;
  status : string;
  current_step : Z;
  next_execution : option datetime;
  started_at : datetime;
  completed_at : option datetime;
  last_email_sent : option datetime
}.

(** The two JSON files of the service. *)
Record state := mkState {
  workflows : list EmailWorkflow;
  executions : list WorkflowExecution
}.

Definition initial : state := mkState [] [].

Definition with_executions (s : state) (es : list WorkflowExecution) : state :=
  mkState (workflows s) es.

Definition with_workflows (s : state) (ws : list EmailWorkflow) : state :=
  mkState ws (executions s).

(** One entry of the ["steps"] list a caller supplies; an absent key is
    [None]. *)
Record StepData := mkStepData {
  sd_id : option string;
  sd_template_id : option string;
  sd_delay_days : option Z;
  sd_delay_hours : option Z;
  sd_conditions : option Dict
}.

(** The [workflow_data] dict of [create_workflow] and [update_workflow]:
    the keys either method reads.  Any other key (such as
    ["total_triggered"] or ["last_activity"]) is read by neither. *)
Record WorkflowData := mkData {
  d_name : option string;
  d_description : option string;
  d_trigger_type : option string;
  d_target_audience : option string;
  d_status : option string;
  d_settings : option Dict;
  d_steps : option (list StepData)
}.

Definition no_data : WorkflowData :=
  mkData None None None None None None None.

Definition status_only (st : string) : WorkflowData :=
  mkData None None None None (Some st) None None.

Definition get {A : Type} (o : option A) (default : A) : A :=
  match o with Some a => a | None => default end.

(** [for i, step in enumerate(step_data)], building the step objects; [i]
    is the zero-based position, [with_id] tells whether a supplied ["id"]
    is honoured ([update_workflow]) or not ([create_workflow]). *)
Fixpoint build_steps (with_id : bool) (workflow_id : string) (i : Z)
    (step_data : list StepData) : list WorkflowStep :=
  match step_data with
  | [] => []
  | step :: rest =>
      let default_id :=
        String.append "step_" (String.append (str_int (i + 1))
          (String.append "_" workflow_id)) in
      mkStep (if with_id then get (sd_id step) default_id else default_id)
             (get (sd_template_id step) "")
             (get (sd_delay_days step) 0)
             (get (sd_delay_hours step) 0)
             (get (sd_conditions step) [])
             (i + 1)
      :: build_steps with_id workflow_id (i + 1) rest
  end.

Definition create_workflow (s : state) (workflow_data : WorkflowData)
    (now : datetime) : EmailWorkflow * state :=
  let workflow_id :=
    String.append "workflow_"
      (String.append (str_int (Z.of_nat (List.length (workflows s)) + 1))
        (String.append "_" (str_int (timestamp_int now)))) in
  let steps := build_steps false workflow_id 0 (get (d_steps workflow_data) []) in
  let workflow :=
    mkWorkflow workflow_id
      (get (d_name workflow_data) "")
      (get (d_description workflow_data) "")
      (get (d_trigger_type workflow_data) "manual")
      (get (d_target_audience workflow_data) "all_leads")
      (get (d_status workflow_data) "active")
      steps
      (get (d_settings workflow_data) [])
      now now 0 0 None in
  (workflow, with_workflows s (workflows s ++ [workflow])).

Definition get_workflow (s : state) (workflow_id : string) : option EmailWorkflow :=
  find (fun w => String.eqb (wf_id w) workflow_id) (workflows s).

(** The field assignments [update_workflow] makes on the workflow it
    found. *)
Definition apply_update (workflow : EmailWorkflow) (workflow_id : string)
    (workflow_data : WorkflowData) (now : datetime) : EmailWorkflow :=
  mkWorkflow (wf_id workflow)
    (get (d_name workflow_data) (name workflow))
    (get (d_description workflow_data) (description workflow))
    (get (d_trigger_type workflow_data) (trigger_type workflow))
    (get (d_target_audience workflow_data) (target_audience workflow))
    (get (d_status workflow_data) (wf_status workflow))
    (match d_steps workflow_data with
     | Some step_data => build_steps true workflow_id 0 step_data
     | None => steps workflow
     end)
    (get (d_settings workflow_data) (settings workflow))
    (created_at workflow)
    now
    (total_triggered workflow)
    (emails_sent workflow)
    (last_activity workflow).

(** The loop of [update_workflow]: the first workflow with the id is
    rewritten in place. *)
Fixpoint update_first (workflow_id : string) (workflow_data : WorkflowData)
    (now : datetime) (ws : list EmailWorkflow)
    : option (EmailWorkflow * list EmailWorkflow) :=
  match ws with
  | [] => None
  | workflow :: rest =>
      if String.eqb (wf_id workflow) workflow_id then
        let workflow' := apply_update workflow workflow_id workflow_data now in
        Some (workflow', workflow' :: rest)
      else
        match update_first workflow_id workflow_data now rest with
        | Some (w, rest') => Some (w, workflow :: rest')
        | None => None
        end
  end.

Definition update_workflow (s : state) (workflow_id : string)
    (workflow_data : WorkflowData) (now : datetime)
    : option EmailWorkflow * state :=
  match update_first workflow_id workflow_data now (workflows s) with
  | Some (w, ws) => (Some w, with_workflows s ws)
  | None => (None, s)
  end.

Definition delete_workflow (s : state) (wid : string) : bool * state :=
  let ws := filter (fun w => negb (String.eqb (wf_id w) wid)) (workflows s) in
  if (List.length ws <? List.length (workflows s))%nat then
    (true,
     mkState ws
       (filter (fun e => negb (String.eqb (workflow_id e) wid))
               (executions s)))
  else (false, s).

Definition pause_workflow (s : state) (workflow_id : string) (now : datetime)
    : option EmailWorkflow * state :=
  update_workflow s workflow_id (status_only "paused") now.

Definition activate_workflow (s : state) (workflow_id : string) (now : datetime)
    : option EmailWorkflow * state :=
  update_workflow s workflow_id (status_only "active") now.

(** The two [if] statements that add a step's delay to the clock reading:
    only strictly positive delays count.  [None] is the [OverflowError] of
    either addition. *)
Definition add_delay (step : WorkflowStep) (t : datetime) : option datetime :=
  match
    if 0 <? delay_days step
    then datetime_add t (timedelta_days (delay_days step))
    else Some t
  with
  | None => None
  | Some t1 =>
      if 0 <? delay_hours step
      then datetime_add t1 (timedelta_hours (delay_hours step))
      else Some t1
  end.

Definition is_active_for (wid lid : string) (e : WorkflowExecution) : bool :=
  String.eqb (workflow_id e) wid && String.eqb (lead_id e) lid
  && String.eqb (status e) "active".

Definition trigger_workflow (s : state) (wid lid : string) (now : datetime)
    : bool * state :=
  match get_workflow s wid with
  | None => (false, s)
  | Some workflow =>
      if negb (String.eqb (wf_status workflow) "active") then (false, s)
      else
        match find (is_active_for wid lid) (executions s) with
        | Some _ => (true, s)
        | None =>
            let execution_id :=
              String.append "exec_" (String.append wid (String.append "_"
                (String.append lid (String.append "_"
                  (str_int (timestamp_int now)))))) in
            match
              match steps workflow with
              | step0 :: _ => add_delay step0 now
              | [] => Some now
              end
            with
            | None => (false, s) (* the except branch: nothing was saved *)
            | Some next_execution =>
                let execution :=
                  mkExecution execution_id wid lid "active" 0
                    (Some next_execution) now None None in
                let s1 := with_executions s (executions s ++ [execution]) in
                (* the counters are updated on the local object only: the
                   dict handed to update_workflow carries keys it does not
                   read *)
                (true, snd (update_workflow s1 wid no_data now))
            end
        end
  end.

Definition get_pending_executions (s : state) (now : datetime)
    : list WorkflowExecution :=
  filter (fun e =>
            String.eqb (status e) "active"
            && match next_execution e with
               | Some t => t <=? now
               | None => false
               end)
         (executions s).

(** The body of the loop of [complete_execution_step] for the execution it
    found; [None] is the [IndexError] of [workflow.steps[...]] or the
    [OverflowError] of the next due time. *)
Definition advance (workflow : EmailWorkflow) (e : WorkflowExecution)
    (success : bool) (now : datetime) : option WorkflowExecution :=
  if success then
    let step' := current_step e + 1 in
    if Z.of_nat (List.length (steps workflow)) <=? step' then
      Some (mkExecution (ex_id e) (workflow_id e) (lead_id e) "completed"
              step' None (started_at e) (Some now) (Some now))
    else
      match py_index (steps workflow) step' with
      | Some next_step =>
          match add_delay next_step now with
          | Some next_execution =>
              Some (mkExecution (ex_id e) (workflow_id e) (lead_id e) (status e)
                      step' (Some next_execution) (started_at e)
                      (completed_at e) (Some now))
          | None => None
          end
      | None => None
      end
  else
    Some (mkExecution (ex_id e) (workflow_id e) (lead_id e) "failed"
            (current_step e) None (started_at e) (completed_at e) (Some now)).

(** [executions[i] = execution] for the first execution with the id. *)
Fixpoint replace_first (execution_id : string) (e' : WorkflowExecution)
    (es : list WorkflowExecution) : list WorkflowExecution :=
  match es with
  | [] => []
  | e :: rest =>
      if String.eqb (ex_id e) execution_id then e' :: rest
      else e :: replace_first execution_id e' rest
  end.

Definition complete_execution_step (s : state) (execution_id : string)
    (success : bool) (now : datetime) : bool * state :=
  match find (fun e => String.eqb (ex_id e) execution_id) (executions s) with
  | None => (false, s)
  | Some e =>
      match get_workflow s (workflow_id e) with
      | None => (false, s)
      | Some workflow =>
          match advance workflow e success now with
          | Some e' =>
              (true, with_executions s (replace_first execution_id e' (executions s)))
          | None => (false, s)
          end
      end
  end.

(** The calls that change the stores. *)
Inductive call :=
| Create (workflow_data : WorkflowData)
| Update (workflow_id : string) (workflow_data : WorkflowData)
| Delete (workflow_id : string)
| Pause (workflow_id : string)
| Activate (workflow_id : string)
| Trigger (workflow_id lead_id : string)
| Complete (execution_id : string) (success : bool).

Definition run (c : call) (now : datetime) (s : state) : state :=
  match c with
  | Create d => snd (create_workflow s d now)
  | Update wid d => snd (update_workflow s wid d now)
  | Delete wid => snd (delete_workflow s wid)
  | Pause wid => snd (pause_workflow s wid now)
  | Activate wid => snd (activate_workflow s wid now)
  | Trigger wid lid => snd (trigger_workflow s wid lid now)
  | Complete eid success => snd (complete_execution_step s eid success now)
  end.

(** States the service can be in: any sequence of calls, starting from the
    two empty files [_ensure_files_exist] writes. *)
Inductive reachable : state -> Prop :=
| reachable_initial : reachable initial
| reachable_run : forall s c now, reachable s -> reachable (run c now s).

(** The number of active executions of a (workflow, lead) pair. *)
Definition active_count (wid lid : string) (es : list WorkflowExecution) : nat :=
  List.length (filter (is_active_for wid lid) es).

(** The step progression bound of one execution against the workflow it
    belongs to. *)
Definition within_steps (w : EmailWorkflow) (e : WorkflowExecution) : Prop :=
  0 <= current_step e <= Z.of_nat (List.length (steps w))
  /\ (current_step e = Z.of_nat (List.length (steps w)) <-> status e = "completed").

Definition step_progression_bound (s : state) : Prop :=
  forall e w,
    In e (executions s) -> get_workflow s (workflow_id e) = Some w ->
    within_steps w e.

(** Executions reached through [trigger_workflow] and
    [complete_execution_step], over any stored workflows. *)
Inductive engine_run : state -> Prop :=
| engine_start : forall ws, engine_run (mkState ws [])
| engine_trigger : forall s wid lid now,
    engine_run s -> engine_run (snd (trigger_workflow s wid lid now))
| engine_complete : forall s eid success now,
    engine_run s -> engine_run (snd (complete_execution_step s eid success now)).

(** The same runs under the protocol of the scheduler: every stored
    workflow has at least one step, and an outcome is reported only for an
    id whose first execution in the file, the one
    [complete_execution_step] updates, is active.  (The executions
    [get_pending_executions] hands out are active, but an id is built from
    the pair and the second of the trigger, so that a later execution can
    share the id of an earlier one.) *)
Inductive scheduled : state -> Prop :=
| scheduled_start : forall ws,
    Forall (fun w => steps w <> []) ws -> scheduled (mkState ws [])
| scheduled_trigger : forall s wid lid now,
    scheduled s -> scheduled (snd (trigger_workflow s wid lid now))
| scheduled_complete : forall s e success now,
    scheduled s ->
    find (fun x => String.eqb (ex_id x) (ex_id e)) (executions s) = Some e ->
    status e = "active" ->
    scheduled (snd (complete_execution_step s (ex_id e) success now)).

(** What [pause_workflow] makes of the workflow it finds. *)
Definition paused_at (now : datetime) (w : EmailWorkflow) : EmailWorkflow :=
  mkWorkflow (wf_id w) (name w) (description w) (trigger_type w)
    (target_audience w) "paused" (steps w) (settings w) (created_at w) now
    (total_triggered w) (emails_sent w) (last_activity w).

End WorkflowService.

(** ** Compliance service ([services/email_compliance_service.py]) *)

Module EmailComplianceService.

Record UnsubscribeRecord := mkUnsubscribe {
  ur_email : string;
  unsubscribed_at : datetime;
  ur_reason : option string;
  ur_source : string;
  ur_workflow_id : option string;
  ur_template_id : option string;
  ur_ip_address : option string;
  ur_user_agent : option string
}.

(** The class [SuppressionList]: one entry of the suppression list. *)
Record SuppressionList := mkSuppression {
  sup_email : string;
  sup_reason : string;
  added_at : datetime;
  sup_source : string;
  sup_details : option Dict
}.

Record state := mkState {
  unsubscribe_records : list UnsubscribeRecord;
  suppression_list : list SuppressionList
}.

Definition initial : state := mkState [] [].

Definition is_email_suppressed (s : state) (email : string) : bool :=
  let email := normalize_email email in
  existsb (fun suppression => String.eqb (sup_email suppression) email)
          (suppression_list s).

Definition get_suppression_reason (s : state) (email : string) : option string :=
  let email := normalize_email email in
  option_map sup_reason
    (find (fun suppression => String.eqb (sup_email suppression) email)
          (suppression_list s)).

Definition unsubscribe_email (s : state) (email : string)
    (reason : option string) (source : string)
    (workflow_id template_id ip_address user_agent : option string)
    (now : datetime) : bool * state :=
  let email := normalize_email email in
  if is_email_suppressed s email then (true, s)
  else
    let unsubscribe_record :=
      mkUnsubscribe email now reason source workflow_id template_id
        ip_address user_agent in
    let suppression_item :=
      mkSuppression email "unsubscribed" now source
        (Some [("workflow_id", workflow_id); ("template_id", template_id);
               ("user_reason", reason)]) in
    (true,
     mkState (unsubscribe_records s ++ [unsubscribe_record])
             (suppression_list s ++ [suppression_item])).

Definition remove_from_suppression_list (s : state) (email : string)
    : bool * state :=
  let email := normalize_email email in
  let suppressions :=
    filter (fun x => negb (String.eqb (sup_email x) email)) (suppression_list s) in
  if (List.length suppressions <? List.length (suppression_list s))%nat then
    (true, mkState (unsubscribe_records s) suppressions)
  else (false, s).

Definition add_to_suppression_list (s : state) (email reason source : string)
    (details : option Dict) (now : datetime) : bool * state :=
  let email := normalize_email email in
  if is_email_suppressed s email then (true, s)
  else
    let suppression_item :=
      mkSuppression email reason now source
        (Some (match details with Some d => d | None => [] end)) in
    (true,
     mkState (unsubscribe_records s) (suppression_list s ++ [suppression_item])).

(** The loop of [bulk_import_suppression_list], carrying the two counters. *)
Fixpoint bulk_import_loop (emails : list string) (reason : string)
    (now : datetime) (added skipped : Z) (s : state) : Z * Z * state :=
  match emails with
  | [] => (added, skipped, s)
  | email :: rest =>
      let email := normalize_email email in
      if negb (is_email_suppressed s email) then
        bulk_import_loop rest reason now (added + 1) skipped
          (snd (add_to_suppression_list s email reason "bulk_import" None now))
      else bulk_import_loop rest reason now added (skipped + 1) s
  end.

Definition bulk_import_suppression_list (s : state) (emails : list string)
    (reason : string) (now : datetime) : Z * Z * state :=
  bulk_import_loop emails reason now 0 0 s.

Definition filter_suppressed_emails (s : state) (email_list : list string)
    : list string :=
  map normalize_email
    (filter (fun email =>
               negb (existsb (fun x => String.eqb (sup_email x) (normalize_email email))
                             (suppression_list s)))
            email_list).

(** The entries of the suppression list filed under an address. *)
Definition entries_for (email : string) (s : state) : list SuppressionList :=
  filter (fun x => String.eqb (sup_email x) email) (suppression_list s).

(** The calls that change the two files of the service. *)
Inductive call :=
| Unsubscribe (email : string) (reason : option string) (source : string)
    (workflow_id template_id ip_address user_agent : option string)
| AddSuppression (email reason source : string) (details : option Dict)
| RemoveSuppression (email : string)
| BulkImport (emails : list string) (reason : string).

Definition run (c : call) (now : datetime) (s : state) : state :=
  match c with
  | Unsubscribe email reason source w t ip ua =>
      snd (unsubscribe_email s email reason source w t ip ua now)
  | AddSuppression email reason source details =>
      snd (add_to_suppression_list s email reason source details now)
  | RemoveSuppression email => snd (remove_from_suppression_list s email)
  | BulkImport emails reason =>
      snd (bulk_import_suppression_list s emails reason now)
  end.

Inductive reachable : state -> Prop :=
| reachable_initial : reachable initial
| reachable_run : forall s c now, reachable s -> reachable (run c now s).

(** *** Unsubscribe tokens *)

(** The text has no [":"]. *)
Fixpoint no_colon (s : string) : bool :=
  match s with
  | EmptyString => true
  | String c r => negb (Ascii.eqb c ":") && no_colon r
  end.

(** [parts = decoded.split(":")]. *)
Fixpoint split_colon (s : string) : list string :=
  match s with
  | EmptyString => [EmptyString]
  | String c r =>
      if Ascii.eqb c ":" then EmptyString :: split_colon r
      else
        match split_colon r with
        | p :: ps => String c p :: ps
        | [] => [String c EmptyString]
        end
  end.

Definition hex_digit (n : nat) : ascii :=
  if Nat.ltb n 10 then ascii_of_nat (48 + n) else ascii_of_nat (87 + n).

(** [hexdigest()] of a digest given as its raw bytes. *)
Fixpoint hex_of_bytes (digest : string) : string :=
  match digest with
  | EmptyString => EmptyString
  | String c r =>
      let n := nat_of_ascii c in
      String (hex_digit (Nat.div n 16))
        (String (hex_digit (Nat.modulo n 16)) (hex_of_bytes r))
  end.

(** *** [float(text)]

    The texts Python reads as a float, over ASCII: white space around, a
    sign, then [inf], [infinity] or [nan] in any case, or a decimal
    literal with an optional fraction and exponent; single underscores may
    separate digits.  The value of a literal is taken exactly and kept as
    whole microseconds rounded down, the unit of the clock, which decides
    every comparison with a clock reading as the exact value does;
    rounding to a double is left out. *)

Inductive pyfloat :=
| Finite (microseconds : Z)
| PosInf
| NegInf
| NaN.

Definition is_digit (c : ascii) : bool :=
  let n := nat_of_ascii c in (Nat.leb 48 n && Nat.leb n 57)%bool.

(** The white space [float] skips: tab to carriage return, and the
    space. *)
Definition is_c_space (c : ascii) : bool :=
  let n := nat_of_ascii c in ((Nat.leb 9 n && Nat.leb n 13) || Nat.eqb n 32)%bool.

(** The text without its underscores; [None] unless each underscore stands
    between two digits.  [prev] is the character before. *)
Fixpoint drop_underscores (prev : ascii) (text : string) : option string :=
  match text with
  | EmptyString => if Ascii.eqb prev "_" then None else Some EmptyString
  | String c rest =>
      if Ascii.eqb c "_" then
        if is_digit prev then drop_underscores c rest else None
      else if (Ascii.eqb prev "_" && negb (is_digit c))%bool then None
      else option_map (String c) (drop_underscores c rest)
  end.

Fixpoint skip_spaces (text : string) : string :=
  match text with
  | EmptyString => EmptyString
  | String c rest => if is_c_space c then skip_spaces rest else text
  end.

Fixpoint drop_trailing_spaces (text : string) : string :=
  match text with
  | EmptyString => EmptyString
  | String c rest =>
      let rest' := drop_trailing_spaces rest in
      if (is_c_space c && is_empty rest')%bool then EmptyString
      else String c rest'
  end.

(** A leading sign: whether it is a minus, and the text after it. *)
Definition split_sign (text : string) : bool * string :=
  match text with
  | String "-" rest => (true, rest)
  | String "+" rest => (false, rest)
  | _ => (false, text)
  end.

(** The digits a text starts with, and the text after them. *)
Fixpoint take_digits (text : string) : string * string :=
  match text with
  | EmptyString => (EmptyString, EmptyString)
  | String c rest =>
      if is_digit c then
        let (digits, after) := take_digits rest in (String c digits, after)
      else (EmptyString, text)
  end.

Definition digits_value (digits : string) : Z :=
  match NilEmpty.uint_of_string digits with
  | Some d => Z.of_uint d
  | None => 0
  end.

(** A decimal literal without its sign, as the pair of [m] and [e] of its
    value [m * 10 ** e]; [None] when the text is no literal. *)
Definition float_literal (body : string) : option (Z * Z) :=
  let (int_part, after_int) := take_digits body in
  let (frac_part, after_frac) :=
    match after_int with
    | String "." rest => take_digits rest
    | _ => (EmptyString, after_int)
    end in
  if (is_empty int_part && is_empty frac_part)%bool then None
  else
    let mantissa := digits_value (String.append int_part frac_part) in
    let scale := - Z.of_nat (String.length frac_part) in
    match after_frac with
    | EmptyString => Some (mantissa, scale)
    | String c rest =>
        if (Ascii.eqb c "e" || Ascii.eqb c "E")%bool then
          let (negative, after_sign) := split_sign rest in
          let (exp_digits, after_exp) := take_digits after_sign in
          if (is_empty exp_digits || negb (is_empty after_exp))%bool then None
          else
            Some (mantissa,
                  scale + (if negative then - digits_value exp_digits
                           else digits_value exp_digits))
        else None
    end.

(** The text consists of digits. *)
Fixpoint digits_only (text : string) : bool :=
  match text with
  | EmptyString => true
  | String c rest => (is_digit c && digits_only rest)%bool
  end.

(** [m * 10 ** e] seconds in whole microseconds, rounded down. *)
Definition microseconds_of (mantissa exponent : Z) : Z :=
  let k := exponent + 6 in
  if 0 <=? k then mantissa * 10 ^ k else mantissa / 10 ^ (- k).

(** [float(text)]; [None] is the [ValueError]. *)
Definition float_of_str (text : string) : option pyfloat :=
  match drop_underscores zero text with
  | None => None
  | Some text =>
      let (negative, body) := split_sign (drop_trailing_spaces (skip_spaces text)) in
      let word := lower body in
      if (String.eqb word "inf" || String.eqb word "infinity")%bool then
        Some (if negative then NegInf else PosInf)
      else if String.eqb word "nan" then Some NaN
      else
        match float_literal body with
        | Some (mantissa, exponent) =>
            Some (Finite (microseconds_of
                            (if negative then - mantissa else mantissa)
                            exponent))
        | None => None
        end
  end.

Definition thirty_days : Z := 30 * 24 * 60 * 60 * 1000000.

(** [now - issued > 30 * 24 * 60 * 60] in float arithmetic: no comparison
    with nan holds. *)
Definition older_than_thirty_days (now : datetime) (issued : pyfloat) : bool :=
  match issued with
  | Finite issued => thirty_days <? now - issued
  | PosInf => false
  | NegInf => true
  | NaN => false
  end.

Section Token.

(** What the two methods take from the Python library and from the
    process environment: [os.getenv], the SHA-256 digest (as raw bytes)
    and the Base64 codec ([None] for the exception of [b64decode]). *)
Variable getenv : string -> option string.
Variable sha256 : string -> string.
Variable b64encode : string -> string.
Variable b64decode : string -> option string.

Definition secret : string :=
  match getenv "UNSUBSCRIBE_SECRET" with
  | Some v => v
  | None => "default_secret_key"
  end.

(** [hashlib.sha256(f"{email}:{timestamp}:{secret}".encode()).hexdigest()[:16]] *)
Definition token_digest (email timestamp : string) : string :=
  substring 0 16
    (hex_of_bytes
       (sha256 (String.append email (String.append ":"
          (String.append timestamp (String.append ":" secret)))))).

(** The token [generate_unsubscribe_link] puts into the link. *)
Definition unsubscribe_token (email : string) (now : datetime) : string :=
  let timestamp := str_int (timestamp_int now) in
  b64encode
    (String.append email (String.append ":"
       (String.append timestamp (String.append ":"
          (token_digest email timestamp))))).

Definition str_truthy (o : option string) : bool :=
  match o with
  | Some (String _ _) => true
  | _ => false
  end.

Definition generate_unsubscribe_link (email : string)
    (workflow_id template_id : option string) (now : datetime) : string :=
  let base_url :=
    match getenv "FRONTEND_URL" with
    | Some v => v
    | None => "http://localhost:3000"
    end in
  let params := String.append "token=" (unsubscribe_token email now) in
  let params :=
    if str_truthy workflow_id then
      String.append params
        (String.append "&workflow_id=" (WorkflowService.get workflow_id ""))
    else params in
  let params :=
    if str_truthy template_id then
      String.append params
        (String.append "&template_id=" (WorkflowService.get template_id ""))
    else params in
  String.append base_url (String.append "/unsubscribe?" params).

(** The result dict [{"email": ..., "timestamp": ...}] is the pair of
    its two values. *)
Definition verify_unsubscribe_token (token : string) (now : datetime)
    : option (string * string) :=
  match b64decode token with
  | None => None
  | Some decoded =>
      match split_colon decoded with
      | [email; timestamp; token_hash] =>
          if negb (String.eqb token_hash (token_digest email timestamp)) then None
          else
            match float_of_str timestamp with
            | None => None
            | Some issued =>
                if older_than_thirty_days now issued then None
                else Some (email, timestamp)
            end
      | _ => None
      end
  end.

End Token.

End EmailComplianceService.

(** ** Bounce handling service ([services/bounce_handling_service.py]) *)

Module BounceHandlingService.

Module Compliance := EmailComplianceService.

Record BounceRecord := mkBounce {
  br_email : string;
  bounce_type : string;
  bounce_reason : string;
  bounced_at : datetime;
  br_resend_id : option string;
  br_template_id : option string;
  br_workflow_id : option string;
  bounce_count : Z;
  last_bounce_at : datetime;
  delivery_attempts : Z;
  br_details : option Dict
}.

(** [failure_reason] is declared [str]; it holds whatever reason
    [handle_delivery_failure] is handed, which is null when
    [process_resend_webhook] passes on the null ["reason"] of an event. *)
Record DeliveryFailure := mkFailure {
  df_email : string;
  failure_reason : option string;
  failed_at : datetime;
  df_resend_id : option string;
  df_template_id : option string;
  df_workflow_id : option string;
  retry_count : Z;
  next_retry_at : option datetime;
  max_retries : Z;
  df_details : option Dict
}.

(** One entry of the email history kept by [services/email_service.py],
    with the keys [update_email_status] reads and writes for the statuses
    this service reports; the two dates are kept as clock readings rather
    than as their ISO text. *)
Record HistoryEntry := mkHistory {
  h_id : option string;
  h_resend_id : option string;
  h_status : option string;
  h_bounced_at : option datetime;
  h_failed_at : option datetime;
  h_error_message : option string
}.

(** The service owns the bounce and failure files and holds a compliance
    service and an email service. *)
Record state := mkState {
  compliance : Compliance.state;
  bounce_records : list BounceRecord;
  delivery_failures : list DeliveryFailure;
  email_history : list HistoryEntry
}.

Definition initial : state := mkState Compliance.initial [] [] [].

Definition with_compliance (s : state) (c : Compliance.state) : state :=
  mkState c (bounce_records s) (delivery_failures s) (email_history s).

Definition with_bounce_records (s : state) (rs : list BounceRecord) : state :=
  mkState (compliance s) rs (delivery_failures s) (email_history s).

Definition with_delivery_failures (s : state) (fs : list DeliveryFailure) : state :=
  mkState (compliance s) (bounce_records s) fs (email_history s).

Definition with_email_history (s : state) (h : list HistoryEntry) : state :=
  mkState (compliance s) (bounce_records s) (delivery_failures s) h.

(** [EmailService.update_email_status] for the statuses ["bounced"] and
    ["failed"]: the first entry whose id or resend id is [email_id]. *)
Fixpoint update_history (email_id : option string) (status : string)
    (error_message : option string) (now : datetime)
    (history : list HistoryEntry)
    : list HistoryEntry :=
  match history with
  | [] => []
  | email :: rest =>
      if opt_eqb (h_id email) email_id || opt_eqb (h_resend_id email) email_id then
        (if String.eqb status "bounced" then
           mkHistory (h_id email) (h_resend_id email) (Some status) (Some now)
             (h_failed_at email) (h_error_message email)
         else if String.eqb status "failed" then
           mkHistory (h_id email) (h_resend_id email) (Some status)
             (h_bounced_at email) (Some now) error_message
         else
           mkHistory (h_id email) (h_resend_id email) (Some status)
             (h_bounced_at email) (h_failed_at email) (h_error_message email))
        :: rest
      else email :: update_history email_id status error_message now rest
  end.

Definition update_email_status (s : state) (email_id : option string)
    (status : string) (error_message : option string) (now : datetime)
    : state :=
  with_email_history s
    (update_history email_id status error_message now (email_history s)).

Definition find_bounce (email : string) (records : list BounceRecord)
    : option BounceRecord :=
  find (fun record => String.eqb (br_email record) email) records.

(** The assignments [handle_bounce] makes on the record it found. *)
Definition bump_bounce (record : BounceRecord) (bounce_type bounce_reason : string)
    (details : option Dict) (now : datetime) : BounceRecord :=
  mkBounce (br_email record) bounce_type bounce_reason (bounced_at record)
    (br_resend_id record) (br_template_id record) (br_workflow_id record)
    (bounce_count record + 1) now (delivery_attempts record + 1)
    (if dict_truthy details then details else br_details record).

(** The records list after the in-place update of the first record of the
    address. *)
Fixpoint bump_first_bounce (email bounce_type bounce_reason : string)
    (details : option Dict) (now : datetime) (records : list BounceRecord)
    : list BounceRecord :=
  match records with
  | [] => []
  | record :: rest =>
      if String.eqb (br_email record) email then
        bump_bounce record bounce_type bounce_reason details now :: rest
      else
        record :: bump_first_bounce email bounce_type bounce_reason details now rest
  end.

Definition bounce_details (bounce_reason bounce_type : string) : option Dict :=
  Some [("bounce_reason", Some bounce_reason); ("bounce_type", Some bounce_type)].

Definition suppress (s : state) (email reason : string)
    (details : option Dict) (now : datetime) : state :=
  with_compliance s
    (snd (Compliance.add_to_suppression_list (compliance s) email reason
            "bounce_handler" details now)).

Definition handle_bounce (s : state) (email bounce_type bounce_reason : string)
    (resend_id template_id workflow_id : option string)
    (details : option Dict) (now : datetime) : bool * state :=
  let email := normalize_email email in
  let records := bounce_records s in
  let existing_record := find_bounce email records in
  let new_record :=
    mkBounce email bounce_type bounce_reason now resend_id template_id
      workflow_id 1 now 1 details in
  let records :=
    match existing_record with
    | Some _ => bump_first_bounce email bounce_type bounce_reason details now records
    | None => records ++ [new_record]
    end in
  let s1 := with_bounce_records s records in
  let s2 :=
    if String.eqb bounce_type "hard" then
      suppress s1 email "bounced" (bounce_details bounce_reason bounce_type) now
    else if String.eqb bounce_type "soft" then
      (* existing_record or records[-1] *)
      let current_record :=
        match existing_record with
        | Some record => bump_bounce record bounce_type bounce_reason details now
        | None => new_record
        end in
      if 5 <=? bounce_count current_record then
        suppress s1 email "bounced" (bounce_details bounce_reason bounce_type) now
      else s1
    else if String.eqb bounce_type "complaint" then
      suppress s1 email "complained" (bounce_details bounce_reason bounce_type) now
    else s1 in
  (true, update_email_status s2 resend_id "bounced" (Some bounce_reason) now).

Definition same_failure (email : string) (resend_id : option string)
    (failure : DeliveryFailure) : bool :=
  String.eqb (df_email failure) email && opt_eqb (df_resend_id failure) resend_id.

Definition find_failure (email : string) (resend_id : option string)
    (failures : list DeliveryFailure) : option DeliveryFailure :=
  find (same_failure email resend_id) failures.

(** [failures[i] = f] for the first failure of the (address, message)
    pair. *)
Fixpoint replace_failure (email : string) (resend_id : option string)
    (f : DeliveryFailure) (failures : list DeliveryFailure)
    : list DeliveryFailure :=
  match failures with
  | [] => []
  | failure :: rest =>
      if same_failure email resend_id failure then f :: rest
      else failure :: replace_failure email resend_id f rest
  end.

(** [failures.remove(failure)] for that first failure. *)
Fixpoint remove_failure (email : string) (resend_id : option string)
    (failures : list DeliveryFailure) : list DeliveryFailure :=
  match failures with
  | [] => []
  | failure :: rest =>
      if same_failure email resend_id failure then rest
      else failure :: remove_failure email resend_id rest
  end.

(** [2 ** retry_count * 60], handed to [timedelta(minutes=...)]. *)
Definition retry_delay (retry_count : Z) : Z := 2 ^ retry_count * 60.

Definition handle_delivery_failure (s : state) (email : string)
    (failure_reason : option string)
    (resend_id template_id workflow_id : option string)
    (details : option Dict) (now : datetime) : bool * state :=
  let email := normalize_email email in
  let failures := delivery_failures s in
  let s1 :=
    match find_failure email resend_id failures with
    | Some existing_failure =>
        let retry_count := retry_count existing_failure + 1 in
        let updated next :=
          mkFailure (df_email existing_failure) failure_reason now
            (df_resend_id existing_failure) (df_template_id existing_failure)
            (df_workflow_id existing_failure) retry_count next
            (max_retries existing_failure)
            (if dict_truthy details then details else df_details existing_failure) in
        if retry_count <? max_retries existing_failure then
          with_delivery_failures s
            (replace_failure email resend_id
               (updated (Some (now + timedelta_minutes (retry_delay retry_count))))
               failures)
        else
          let s' :=
            snd (handle_bounce s email "hard"
                   (String.append "Max retry attempts reached: "
                      (str_optional failure_reason))
                   resend_id template_id workflow_id details now) in
          with_delivery_failures s'
            (replace_failure email resend_id
               (updated (next_retry_at existing_failure)) failures)
    | None =>
        with_delivery_failures s
          (failures ++
           [mkFailure email failure_reason now resend_id template_id workflow_id
              0 (Some (now + timedelta_minutes 5)) 3 details])
    end in
  (true, update_email_status s1 resend_id "failed" failure_reason now).

Definition get_emails_for_retry (s : state) (now : datetime)
    : list DeliveryFailure :=
  filter (fun failure =>
            match next_retry_at failure with
            | Some t => t <=? now
            | None => false
            end
            && (retry_count failure <? max_retries failure))
         (delivery_failures s).

Definition mark_retry_completed (s : state) (email : string)
    (resend_id : option string) (success : bool) (now : datetime)
    : bool * state :=
  let failures := delivery_failures s in
  match find_failure email resend_id failures with
  | None => (true, s)
  | Some failure =>
      if success then
        (true, with_delivery_failures s (remove_failure email resend_id failures))
      else
        let retry_count := retry_count failure + 1 in
        let updated next :=
          mkFailure (df_email failure) (failure_reason failure) now
            (df_resend_id failure) (df_template_id failure)
            (df_workflow_id failure) retry_count next (max_retries failure)
            (df_details failure) in
        if max_retries failure <=? retry_count then
          let s' :=
            snd (handle_bounce s email "hard" "Max retry attempts reached"
                   resend_id None None None now) in
          (true,
           with_delivery_failures s'
             (replace_failure email resend_id
                (updated (next_retry_at failure)) failures))
        else
          (true,
           with_delivery_failures s
             (replace_failure email resend_id
                (updated (Some (now + timedelta_minutes (retry_delay retry_count))))
                failures))
  end.

(** [cleanup_old_records]; the result dict is the pair of the two counts of
    removed records (the two remaining counts are the new lengths).
    [None] is the dict [{"error": ...}] of the [except] branch, which the
    [OverflowError] of the cutoff date leads to before any file is read. *)
Definition cleanup_old_records (s : state) (days_old : Z) (now : datetime)
    : option (Z * Z) * state :=
  match datetime_sub now (timedelta_days days_old) with
  | None => (None, s)
  | Some cutoff_date =>
      let records :=
        filter (fun r => cutoff_date <? last_bounce_at r) (bounce_records s) in
      let failures :=
        filter (fun f => cutoff_date <? failed_at f) (delivery_failures s) in
      (Some
         (Z.of_nat (List.length (bounce_records s))
          - Z.of_nat (List.length records),
          Z.of_nat (List.length (delivery_failures s))
          - Z.of_nat (List.length failures)),
       mkState (compliance s) records failures (email_history s))
  end.

(** The calls that change the stores of the two mail services: the calls
    of the compliance service reach the suppression list this service
    escalates into. *)
Inductive call :=
| ComplianceCall (c : Compliance.call)
| Bounce (email bounce_type bounce_reason : string)
    (resend_id template_id workflow_id : option string) (details : option Dict)
| Failure (email : string) (failure_reason : option string)
    (resend_id template_id workflow_id : option string) (details : option Dict)
| RetryCompleted (email : string) (resend_id : option string) (success : bool)
| Cleanup (days_old : Z).

Definition run (c : call) (now : datetime) (s : state) : state :=
  match c with
  | ComplianceCall c => with_compliance s (Compliance.run c now (compliance s))
  | Bounce email bounce_type bounce_reason r t w details =>
      snd (handle_bounce s email bounce_type bounce_reason r t w details now)
  | Failure email failure_reason r t w details =>
      snd (handle_delivery_failure s email failure_reason r t w details now)
  | RetryCompleted email resend_id success =>
      snd (mark_retry_completed s email resend_id success now)
  | Cleanup days_old => snd (cleanup_old_records s days_old now)
  end.

Inductive reachable : state -> Prop :=
| reachable_initial : reachable initial
| reachable_run : forall s c now, reachable s -> reachable (run c now s).

(** The bounce record of the address after a call of [handle_bounce]. *)
Definition bounced_record (s : state) (email bounce_type bounce_reason : string)
    (resend_id template_id workflow_id : option string)
    (details : option Dict) (now : datetime) : BounceRecord :=
  match find_bounce (normalize_email email) (bounce_records s) with
  | Some record => bump_bounce record bounce_type bounce_reason details now
  | None =>
      mkBounce (normalize_email email) bounce_type bounce_reason now resend_id
        template_id workflow_id 1 now 1 details
  end.

(** A bounce type [handle_bounce] has no branch for. *)
Definition other_type (bounce_type : string) : Prop :=
  bounce_type <> "hard" /\ bounce_type <> "soft" /\ bounce_type <> "complaint".

(** One bounce notification for an address: the other arguments of
    [handle_bounce] and the time of the call. *)
Record BounceEvent := mkEvent {
  ev_type : string;
  ev_reason : string;
  ev_resend_id : option string;
  ev_template_id : option string;
  ev_workflow_id : option string;
  ev_details : option Dict;
  ev_at : datetime
}.

(** Successive calls of [handle_bounce] for one address. *)
Definition bounces (email : string) (evs : list BounceEvent) (s : state) : state :=
  fold_left
    (fun s ev =>
       snd (handle_bounce s email (ev_type ev) (ev_reason ev) (ev_resend_id ev)
              (ev_template_id ev) (ev_workflow_id ev) (ev_details ev) (ev_at ev)))
    evs s.



(** The natural key of a delivery failure. *)
Definition failure_key (f : DeliveryFailure) : string * option string :=
  (df_email f, df_resend_id f).

(** The failure record after one more failure is counted on it: the
    retry is rescheduled while the count stays under [max_retries], else
    [next_retry_at] is left as it was. *)
Definition rescheduled (f : DeliveryFailure) (failure_reason : option string)
    (details : option Dict) (now : datetime) : DeliveryFailure :=
  let retry_count := retry_count f + 1 in
  mkFailure (df_email f) failure_reason now (df_resend_id f) (df_template_id f)
    (df_workflow_id f) retry_count
    (if retry_count <? max_retries f
     then Some (now + timedelta_minutes (retry_delay retry_count))
     else next_retry_at f)
    (max_retries f) details.


(** What every reachable failure ledger satisfies: one record per pair,
    counts from zero, addresses filed in normal form. *)
Definition ledger_ok (s : state) : Prop :=
  NoDup (map failure_key (delivery_failures s))
  /\ Forall (fun f => 0 <= retry_count f
                      /\ normalize_email (df_email f) = df_email f)
            (delivery_failures s).


(** A retry is due for the pair. *)
Definition retry_due (email : string) (resend_id : option string) (s : state)
    (now : datetime) : Prop :=
  exists f, In f (get_emails_for_retry s now)
            /\ same_failure email resend_id f = true.

End BounceHandlingService.

(** ** Further operations of the three services and their callers *)

Module WorkflowQueries.

Import WorkflowService.

(** [get_workflows]: an absent or empty filter is not applied. *)
Definition get_workflows (s : state) (by_trigger_type by_status : option string)
    : list EmailWorkflow :=
  let workflows := workflows s in
  let workflows :=
    match by_trigger_type with
    | Some (String _ _ as wanted) =>
        filter (fun w => String.eqb (trigger_type w) wanted) workflows
    | _ => workflows
    end in
  match by_status with
  | Some (String _ _ as wanted) =>
      filter (fun w => String.eqb (wf_status w) wanted) workflows
  | _ => workflows
  end.

Definition get_lead_workflow_executions (s : state) (lead : string)
    : list WorkflowExecution :=
  filter (fun e => String.eqb (lead_id e) lead) (executions s).

(** The dict [get_workflow_stats] returns. *)
Record WorkflowStats := mkStats {
  total_workflows : Z;
  active_workflows : Z;
  paused_workflows : Z;
  total_executions : Z;
  active_executions : Z;
  completed_executions : Z;
  failed_executions : Z
}.

Definition count {A : Type} (p : A -> bool) (l : list A) : Z :=
  Z.of_nat (List.length (filter p l)).

Definition get_workflow_stats (s : state) : WorkflowStats :=
  mkStats
    (Z.of_nat (List.length (workflows s)))
    (count (fun w => String.eqb (wf_status w) "active") (workflows s))
    (count (fun w => String.eqb (wf_status w) "paused") (workflows s))
    (Z.of_nat (List.length (executions s)))
    (count (fun e => String.eqb (status e) "active") (executions s))
    (count (fun e => String.eqb (status e) "completed") (executions s))
    (count (fun e => String.eqb (status e) "failed") (executions s)).

(** Successive calls [complete_execution_step(execution_id, True)], one at
    each of the given times. *)
Definition successes (execution_id : string) (times : list datetime) (s : state)
    : state :=
  fold_left (fun s t => snd (complete_execution_step s execution_id true t))
            times s.

(** The id [trigger_workflow] gives a new execution. *)
Definition new_execution_id (wid lid : string) (now : datetime) : string :=
  String.append "exec_" (String.append wid (String.append "_"
    (String.append lid (String.append "_" (str_int (timestamp_int now)))))).

(** The time the first step of a workflow falls due for an execution
    created at [now]; [None] when that time is past the range of
    [datetime]. *)
Definition first_due (workflow : EmailWorkflow) (now : datetime)
    : option datetime :=
  match steps workflow with
  | step0 :: _ => add_delay step0 now
  | [] => Some now
  end.

End WorkflowQueries.

Module Webhook.

Import BounceHandlingService.

(** [needle in hay]. *)
Fixpoint contains (needle hay : string) : bool :=
  prefix needle hay
  || match hay with
     | EmptyString => false
     | String _ rest => contains needle rest
     end.

(** One entry of the ["to"] list of an event: a dict, by its ["email"]
    (absent or null: [None]), or a value that is not a dict, on which the
    [.get] of the method raises. *)
Inductive to_entry :=
| Recipient (email : option string)
| NotADict.

(** The ["reason"] of an event: the key is absent, or its value is null,
    or it is a string. *)
Inductive reason_field :=
| Absent
| Null
| Text (reason : string).

(** The webhook dict of [process_resend_webhook], by the keys the method
    reads: ["type"], and under ["data"] the ["to"] list (empty when the
    key is absent or its value is null), ["id"] and ["reason"].  The
    values of ["type"], ["id"] and ["email"] are strings where present; a
    null there is read like an absent key.  A ["data"] that is not a dict
    makes the method raise at once, with the result of an event without
    recipients, and is taken as one; a non-empty ["to"] that is not a list
    raises like a list that starts with an entry that is not a dict, and
    is taken as one. *)
Record WebhookData := mkWebhook {
  wh_type : option string;
  wh_to : list to_entry;
  wh_id : option string;
  wh_reason : reason_field
}.

(** The address the method goes on with: the ["email"] of the first entry
    of ["to"], when it is a string that is not empty. *)
Definition recipient (w : WebhookData) : option string :=
  match wh_to w with
  | Recipient (Some (String c rest)) :: _ => Some (String c rest)
  | _ => None
  end.

(** The webhook dict as it is stored in [details] (never empty). *)
Definition webhook_details (w : WebhookData) : option Dict :=
  Some ([("type", wh_type w); ("to", recipient w); ("id", wh_id w)]
        ++ match wh_reason w with
           | Absent => []
           | Null => [("reason", None)]
           | Text reason => [("reason", Some reason)]
           end).

(** The bounce type read off the free-text reason of an ["email.bounced"]
    event. *)
Definition classify (bounce_reason : string) : string :=
  let text := lower bounce_reason in
  if contains "soft" text || contains "temporary" text then "soft"
  else if contains "complaint" text || contains "spam" text then "complaint"
  else "hard".

(** [process_resend_webhook].  The result is False where the method
    returns False itself or raises (the [.get] on an entry of ["to"] that
    is not a dict, the [.lower()] on a null reason): nothing has been
    written by then. *)
Definition process_resend_webhook (s : state) (webhook_data : WebhookData)
    (now : datetime) : bool * state :=
  match wh_to webhook_data with
  | Recipient (Some (String _ _ as email)) :: _ =>
      let resend_id := wh_id webhook_data in
      let event_type := wh_type webhook_data in
      if opt_eqb event_type (Some "email.bounced") then
        match
          match wh_reason webhook_data with
          | Absent => Some "Unknown bounce reason"
          | Text reason => Some reason
          | Null => None
          end
        with
        | Some bounce_reason =>
            (true,
             snd (handle_bounce s email (classify bounce_reason) bounce_reason
                    resend_id None None (webhook_details webhook_data) now))
        | None => (false, s)
        end
      else if opt_eqb event_type (Some "email.delivery_delayed") then
        let failure_reason :=
          match wh_reason webhook_data with
          | Absent => Some "Delivery delayed"
          | Text reason => Some reason
          | Null => None
          end in
        (true,
         snd (handle_delivery_failure s email failure_reason resend_id None None
                (webhook_details webhook_data) now))
      else if opt_eqb event_type (Some "email.complained") then
        (true,
         snd (handle_bounce s email "complaint" "Spam complaint" resend_id None
                None (webhook_details webhook_data) now))
      else (true, s)
  | _ => (false, s)
  end.

End Webhook.

(** The two HTTP handlers of [main.py] that combine calls of the compliance
    service. *)
Module Api.

Import EmailComplianceService.

(** The JSON body of a success, by its ["email"], or the [HTTPException]. *)
Inductive response :=
| Ok (email : string)
| HttpError (status_code : Z) (detail : string).

Section Handlers.

Variable getenv : string -> option string.
Variable sha256 : string -> string.
Variable b64decode : string -> option string.

(** [POST /api/email-automation/unsubscribe/token]; the arguments are the
    keys of the request dict. *)
Definition unsubscribe_with_token (s : state)
    (token reason workflow_id template_id : option string) (now : datetime)
    : response * state :=
  match token with
  | Some (String _ _ as token) =>
      match verify_unsubscribe_token getenv sha256 b64decode token now with
      | None => (HttpError 400 "Invalid or expired token", s)
      | Some (email, _) =>
          let (success, s') :=
            unsubscribe_email s email reason "email_link" workflow_id
              template_id None None now in
          if success then (Ok email, s')
          else (HttpError 400 "Failed to unsubscribe email", s')
      end
  | _ => (HttpError 400 "Token is required", s)
  end.

End Handlers.

(** [GET /api/email-automation/compliance/check/{email}]: the values of
    ["is_suppressed"] and ["reason"]. *)
Definition check_email_suppression (s : state) (email : string)
    : bool * option string :=
  let is_suppressed := is_email_suppressed s email in
  (is_suppressed,
   if is_suppressed then get_suppression_reason s email else None).

End Api.

(** ** Library functions the token methods call

    [base64.b64encode] / [base64.b64decode] and [hashlib.sha256] belong to
    the Python library.  The token methods above take them as parameters;
    the two modules below are the standard algorithms (RFC 4648, FIPS 180-4),
    to run the methods on sample tokens. *)

Module Base64.

Definition alphabet : string :=
  "ABCDEFGHIJKLMNOPQRSTUVWXYZabcdefghijklmnopqrstuvwxyz0123456789+/".

Definition digit (n : nat) : ascii :=
  match String.get n alphabet with
  | Some c => c
  | None => "="%char
  end.

Definition value (c : ascii) : option nat :=
  let n := nat_of_ascii c in
  if (Nat.leb 65 n && Nat.leb n 90)%bool then Some (n - 65)%nat
  else if (Nat.leb 97 n && Nat.leb n 122)%bool then Some (n - 71)%nat
  else if (Nat.leb 48 n && Nat.leb n 57)%bool then Some (n + 4)%nat
  else if Nat.eqb n 43 then Some 62%nat
  else if Nat.eqb n 47 then Some 63%nat
  else None.

Definition pad : ascii := "="%char.

Fixpoint b64encode (s : string) : string :=
  match s with
  | EmptyString => EmptyString
  | String a EmptyString =>
      let a := nat_of_ascii a in
      String (digit (a / 4)) (String (digit (a mod 4 * 16))
        (String pad (String pad EmptyString)))
  | String a (String b EmptyString) =>
      let a := nat_of_ascii a in
      let b := nat_of_ascii b in
      String (digit (a / 4)) (String (digit (a mod 4 * 16 + b / 16))
        (String (digit (b mod 16 * 4)) (String pad EmptyString)))
  | String a (String b (String c rest)) =>
      let a := nat_of_ascii a in
      let b := nat_of_ascii b in
      let c := nat_of_ascii c in
      String (digit (a / 4)) (String (digit (a mod 4 * 16 + b / 16))
        (String (digit (b mod 16 * 4 + c / 64)) (String (digit (c mod 64))
          (b64encode rest))))
  end%nat.

(** Decoding of canonical Base64 text; [None] stands for the exception of
    [b64decode]. *)
Fixpoint b64decode (s : string) : option string :=
  match s with
  | EmptyString => Some EmptyString
  | String c1 (String c2 (String c3 (String c4 rest))) =>
      match value c1, value c2 with
      | Some v1, Some v2 =>
          let b1 := ascii_of_nat (v1 * 4 + v2 / 16) in
          if Ascii.eqb c3 pad then
            if (Ascii.eqb c4 pad && is_empty rest)%bool
            then Some (String b1 EmptyString) else None
          else
            match value c3 with
            | Some v3 =>
                let b2 := ascii_of_nat (v2 mod 16 * 16 + v3 / 4) in
                if Ascii.eqb c4 pad then
                  if is_empty rest
                  then Some (String b1 (String b2 EmptyString)) else None
                else
                  match value c4 with
                  | Some v4 =>
                      let b3 := ascii_of_nat (v3 mod 4 * 64 + v4) in
                      option_map
                        (fun t => String b1 (String b2 (String b3 t)))
                        (b64decode rest)
                  | None => None
                  end
            | None => None
            end
      | _, _ => None
      end
  | _ => None
  end%nat.

End Base64.

Module Sha256.

Definition is_prime (n : nat) : bool :=
  forallb (fun d => negb (Nat.eqb (Nat.modulo n d) 0)) (seq 2 (n - 2)).

(** The first 64 primes. *)
Definition primes : list Z :=
  Eval vm_compute in map Z.of_nat (filter is_prime (seq 2 310)).

(** The largest [r] between [lo] and [hi] with [r ^ k <= n], by
    bisection. *)
Fixpoint root (k n : Z) (fuel : nat) (lo hi : Z) : Z :=
  match fuel with
  | O => lo
  | S fuel =>
      if lo <? hi then
        let m := (lo + hi + 1) / 2 in
        if m ^ k <=? n then root k n fuel m hi else root k n fuel lo (m - 1)
      else lo
  end.

(** The first 32 bits of the fractional part of the [k]-th root of [p]. *)
Definition fraction_bits (k p : Z) : Z :=
  root k (p * 2 ^ (32 * k)) 64 0 (2 ^ 40) mod 2 ^ 32.

Definition K : list Z := Eval vm_compute in map (fraction_bits 3) primes.

Definition H0 : list Z :=
  Eval vm_compute in map (fraction_bits 2) (firstn 8 primes).

Definition word : Z := 2 ^ 32.

Definition add (a b : Z) : Z := (a + b) mod word.

Definition rotr (n x : Z) : Z :=
  Z.lor (Z.shiftr x n) (Z.shiftl x (32 - n) mod word).

Definition xor3 (a b c : Z) : Z := Z.lxor a (Z.lxor b c).

Definition big_sigma0 x := xor3 (rotr 2 x) (rotr 13 x) (rotr 22 x).
Definition big_sigma1 x := xor3 (rotr 6 x) (rotr 11 x) (rotr 25 x).
Definition small_sigma0 x := xor3 (rotr 7 x) (rotr 18 x) (Z.shiftr x 3).
Definition small_sigma1 x := xor3 (rotr 17 x) (rotr 19 x) (Z.shiftr x 10).

Definition ch (x y z : Z) : Z :=
  Z.lxor (Z.land x y) (Z.land (Z.lxor x (word - 1)) z).

Definition maj (x y z : Z) : Z :=
  xor3 (Z.land x y) (Z.land x z) (Z.land y z).

(** The message schedule, latest word first. *)
Fixpoint schedule (n : nat) (ws : list Z) : list Z :=
  match n with
  | O => ws
  | S n =>
      let w :=
        add (add (small_sigma1 (nth 1 ws 0)) (nth 6 ws 0))
            (add (small_sigma0 (nth 14 ws 0)) (nth 15 ws 0)) in
      schedule n (w :: ws)
  end.

Definition round (h : list Z) (kw : Z * Z) : list Z :=
  match h with
  | [a; b; c; d; e; f; g; hh] =>
      let t1 :=
        add (add (add hh (big_sigma1 e)) (add (ch e f g) (fst kw))) (snd kw) in
      let t2 := add (big_sigma0 a) (maj a b c) in
      [add t1 t2; a; b; c; add d t1; e; f; g]
  | _ => h
  end.

Definition compress (h : list Z) (block : list Z) : list Z :=
  let ws := rev (schedule 48 (rev block)) in
  map (fun p => add (fst p) (snd p))
      (combine h (fold_left round (combine K ws) h)).

Definition bytes_of (width : nat) (x : Z) : list Z :=
  map (fun i => Z.shiftr x (8 * Z.of_nat i) mod 256) (rev (seq 0 width)).

Fixpoint word_of (bytes : list Z) (acc : Z) : Z :=
  match bytes with
  | [] => acc
  | b :: rest => word_of rest (acc * 256 + b)
  end.

(** Cuts a list into pieces of [size] elements. *)
Fixpoint chunks {A : Type} (size fuel : nat) (l : list A) : list (list A) :=
  match fuel, l with
  | S fuel, _ :: _ => firstn size l :: chunks size fuel (skipn size l)
  | _, _ => []
  end.

Definition padded (message : list Z) : list Z :=
  let n := Z.of_nat (List.length message) in
  message ++ [128] ++ repeat 0 (Z.to_nat ((55 - n) mod 64)) ++ bytes_of 8 (8 * n).

Definition digest_bytes (message : list Z) : list Z :=
  let bytes := padded message in
  let blocks :=
    map (fun block => map (fun w => word_of w 0) (chunks 4 16 block))
        (chunks 64 (List.length bytes) bytes) in
  flat_map (bytes_of 4) (fold_left compress blocks H0).

(** The digest of a byte string, as its 32 raw bytes. *)
Definition sha256 (data : string) : string :=
  string_of_list_ascii
    (map (fun b => ascii_of_nat (Z.to_nat b))
         (digest_bytes
            (map (fun c => Z.of_nat (nat_of_ascii c)) (list_ascii_of_string data)))).

End Sha256.

(** ** Sample data *)

Module Samples.

Module W := WorkflowService.

Definition welcome_step : W.StepData :=
  W.mkStepData None (Some "welcome") None None None.

(** A workflow with one step and one with none. *)
Definition welcome : W.WorkflowData :=
  W.mkData (Some "Welcome") None (Some "new_lead") None None None
    (Some [welcome_step]).

Definition hollow : W.WorkflowData :=
  W.mkData (Some "Hollow") None None None None None None.

(** The store after [create_workflow(welcome)]; the workflow gets the id
    ["workflow_1_0"]. *)
Definition welcome_created : W.state := W.run (W.Create welcome) 0 W.initial.

Definition welcome_id : string := "workflow_1_0".

(** The same store with lead ["lead_7"] triggered, then with its step
    reported as sent once, and twice. *)
Definition welcome_triggered : W.state :=
  snd (W.trigger_workflow welcome_created welcome_id "lead_7" 1000000).

Definition welcome_execution_id : string := "exec_workflow_1_0_lead_7_1".

Definition welcome_sent : W.state :=
  snd (W.complete_execution_step welcome_triggered welcome_execution_id true 2000000).

Definition welcome_sent_twice : W.state :=
  snd (W.complete_execution_step welcome_sent welcome_execution_id true 3000000).

(** ["lead_7"] completes the workflow and is triggered again within the
    second of the first trigger: the new execution gets the id of the
    completed one. *)
Definition welcome_again : W.state :=
  snd (W.trigger_workflow
         (snd (W.complete_execution_step welcome_triggered welcome_execution_id
                 true 1200000))
         welcome_id "lead_7" 1500000).

(** The store once more leads went through: ["lead_7"] has completed the
    workflow, ["lead_8"] waits for its step and the step of ["lead_9"]
    was reported as failed. *)
Definition welcome_busy : W.state :=
  W.run (W.Complete "exec_workflow_1_0_lead_9_3" false) 4000000
    (W.run (W.Trigger welcome_id "lead_9") 3000000
       (W.run (W.Trigger welcome_id "lead_8") 2500000 welcome_sent)).

(** A workflow of two steps, the second due two days and three hours after
    the first was sent; the store after [create_workflow(drip)]. *)
Definition drip : W.WorkflowData :=
  W.mkData (Some "Drip") None (Some "new_lead") None None None
    (Some [welcome_step;
           W.mkStepData None (Some "follow_up") (Some 2) (Some 3) None]).

Definition drip_created : W.state := W.run (W.Create drip) 0 W.initial.

(** A workflow without steps, triggered for a lead. *)
Definition hollow_created : W.state := W.run (W.Create hollow) 0 W.initial.

Definition hollow_triggered : W.state :=
  snd (W.trigger_workflow hollow_created welcome_id "lead_7" 1000000).

Module B := BounceHandlingService.

(** A send to ["a@b.com"] under message id ["msg_1"] that failed at time
    0, and failed again one minute later. *)
Definition failed_once : B.state :=
  B.run (B.Failure "a@b.com" (Some "timeout") (Some "msg_1") None None None) 0 B.initial.

Definition failed_twice : B.state :=
  B.run (B.Failure "a@b.com" (Some "timeout") (Some "msg_1") None None None) 60000000
    failed_once.

Definition failed_thrice : B.state :=
  B.run (B.Failure "a@b.com" (Some "timeout") (Some "msg_1") None None None) 120000000
    failed_twice.

(** The same send failing a fourth time, which brings [retry_count] to
    [max_retries = 3]: once as it is, once after the address had
    unsubscribed in between. *)
Definition failed_out : B.state :=
  B.run (B.Failure "a@b.com" (Some "timeout") (Some "msg_1") None None None) 180000000
    failed_thrice.


End Samples.

(** * Properties *)

(** Turns the boolean string tests of a goal into equations. *)
Ltac string_cases :=
  repeat match goal with
  | H : (String.eqb _ _ = true) |- _ => apply String.eqb_eq in H
  | H : (String.eqb _ _ = false) |- _ => apply String.eqb_neq in H
  | H : (_ && _ = true)%bool |- _ => apply andb_true_iff in H; destruct H
  end.

(** ** The workflow engine *)

Section WorkflowProperties.

Import WorkflowService WorkflowQueries.

Lemma executions_update_workflow s wid d now :
  executions (snd (update_workflow s wid d now)) = executions s.
Proof.
  unfold update_workflow.
  destruct (update_first wid d now (workflows s)) as [[w ws]|]; reflexivity.
Qed.

(** What [update_first] leaves of a list of workflows: the ids always, and
    when the data has no ["steps"] key the steps too. *)
Lemma update_first_find wid d now ws w' ws' :
  update_first wid d now ws = Some (w', ws') ->
  forall id,
    find (fun w => String.eqb (wf_id w) id) ws' =
    if String.eqb wid id
    then option_map (fun w => apply_update w wid d now)
           (find (fun w => String.eqb (wf_id w) id) ws)
    else find (fun w => String.eqb (wf_id w) id) ws.
Proof.
  revert w' ws'. induction ws as [|w ws IH]; intros w' ws' H id; simpl in H.
  - discriminate.
  - destruct (String.eqb (wf_id w) wid) eqn:E.
    + inversion H; subst; clear H. apply String.eqb_eq in E. subst wid. simpl.
      destruct (String.eqb (wf_id w) id); reflexivity.
    + destruct (update_first wid d now ws) as [[w0 ws0]|] eqn:U; try discriminate.
      inversion H; subst; clear H. simpl.
      specialize (IH _ _ eq_refl id).
      destruct (String.eqb (wf_id w) id) eqn:E2.
      * destruct (String.eqb wid id) eqn:E3; [|reflexivity].
        apply String.eqb_eq in E2, E3. apply String.eqb_neq in E. congruence.
      * exact IH.
Qed.

Lemma update_first_none wid d now ws :
  update_first wid d now ws = None ->
  find (fun w => String.eqb (wf_id w) wid) ws = None.
Proof.
  induction ws as [|w ws IH]; simpl; intros H; [reflexivity|].
  destruct (String.eqb (wf_id w) wid); [discriminate|].
  destruct (update_first wid d now ws) as [[? ?]|]; [discriminate|auto].
Qed.

Lemma get_workflow_update s wid d now id :
  get_workflow (snd (update_workflow s wid d now)) id =
  if String.eqb wid id
  then option_map (fun w => apply_update w wid d now) (get_workflow s id)
  else get_workflow s id.
Proof.
  unfold update_workflow, get_workflow.
  destruct (update_first wid d now (workflows s)) as [[w ws]|] eqn:U; simpl.
  - apply (update_first_find _ _ _ _ U).
  - destruct (String.eqb wid id) eqn:E; [|reflexivity].
    apply String.eqb_eq in E. subst id.
    rewrite (update_first_none _ _ _ _ U). reflexivity.
Qed.

Lemma get_workflow_with_executions s es id :
  get_workflow (with_executions s es) id = get_workflow s id.
Proof. reflexivity. Qed.

(** *** Active executions per pair *)

Lemma active_count_app wid lid es1 es2 :
  active_count wid lid (es1 ++ es2) =
  (active_count wid lid es1 + active_count wid lid es2)%nat.
Proof. unfold active_count. rewrite filter_app, length_app. reflexivity. Qed.

Lemma active_count_find_none wid lid es :
  find (is_active_for wid lid) es = None -> active_count wid lid es = 0%nat.
Proof.
  unfold active_count. induction es as [|e es IH]; simpl; [reflexivity|].
  destruct (is_active_for wid lid e); [discriminate|auto].
Qed.

Lemma active_count_filter wid lid p es :
  (active_count wid lid (filter p es) <= active_count wid lid es)%nat.
Proof.
  unfold active_count. induction es as [|e es IH]; simpl; [lia|].
  destruct (p e); simpl; destruct (is_active_for wid lid e); simpl; lia.
Qed.

Lemma active_count_replace_first wid lid eid e' es :
  (forall e, find (fun x => String.eqb (ex_id x) eid) es = Some e ->
             is_active_for wid lid e' = true -> is_active_for wid lid e = true) ->
  (active_count wid lid (replace_first eid e' es) <= active_count wid lid es)%nat.
Proof.
  unfold active_count. induction es as [|e es IH]; simpl; intros H; [lia|].
  destruct (String.eqb (ex_id e) eid) eqn:E; simpl.
  - specialize (H e eq_refl).
    destruct (is_active_for wid lid e') eqn:A; simpl.
    + rewrite (H eq_refl). simpl. lia.
    + destruct (is_active_for wid lid e); simpl; lia.
  - specialize (IH H). destruct (is_active_for wid lid e); simpl; lia.
Qed.

(** [advance] never turns an execution that is not active into an active
    one, and keeps the pair it belongs to. *)
Lemma advance_active workflow e success now e' wid lid :
  advance workflow e success now = Some e' ->
  is_active_for wid lid e' = true -> is_active_for wid lid e = true.
Proof.
  unfold advance, is_active_for. intros H A.
  destruct success.
  - destruct (Z.of_nat (List.length (steps workflow)) <=? current_step e + 1).
    + inversion H; subst; clear H. simpl in A.
      rewrite andb_false_r in A. discriminate.
    + destruct (py_index (steps workflow) (current_step e + 1)) as [next|];
        [|discriminate].
      destruct (add_delay next now); [|discriminate].
      inversion H; subst; clear H. exact A.
  - inversion H; subst; clear H. simpl in A.
    rewrite andb_false_r in A. discriminate.
Qed.

Lemma active_count_run c now s wid lid :
  (active_count wid lid (executions s) <= 1)%nat ->
  (active_count wid lid (executions (run c now s)) <= 1)%nat.
Proof.
  intros I. destruct c; unfold run.
  - simpl. exact I.
  - rewrite executions_update_workflow. exact I.
  - unfold delete_workflow.
    destruct (_ <? _)%nat; simpl; [|exact I].
    eapply Nat.le_trans; [apply active_count_filter|exact I].
  - unfold pause_workflow. rewrite executions_update_workflow. exact I.
  - unfold activate_workflow. rewrite executions_update_workflow. exact I.
  - unfold trigger_workflow.
    destruct (get_workflow s workflow_id0) as [w|]; [|exact I].
    destruct (negb _); [exact I|].
    destruct (find (is_active_for workflow_id0 lead_id0) (executions s)) eqn:F;
      [exact I|].
    destruct (match steps w with _ :: _ => _ | [] => _ end); [|exact I].
    cbn [snd]. rewrite executions_update_workflow. simpl.
    rewrite active_count_app. unfold active_count at 2. simpl.
    destruct (is_active_for wid lid _) eqn:A; simpl; [|lia].
    unfold is_active_for in A. simpl in A. string_cases. subst.
    rewrite (active_count_find_none _ _ _ F). lia.
  - unfold complete_execution_step.
    destruct (find _ (executions s)) as [e|] eqn:F; [|exact I].
    destruct (get_workflow s (workflow_id e)) as [w|]; [|exact I].
    destruct (advance w e success now) as [e'|] eqn:A; [|exact I].
    simpl. eapply Nat.le_trans; [|exact I].
    apply active_count_replace_first. intros e0 F0. rewrite F in F0.
    inversion F0; subst. eapply advance_active; eauto.
Qed.

Lemma reachable_active_count s :
  reachable s -> forall wid lid, (active_count wid lid (executions s) <= 1)%nat.
Proof.
  induction 1 as [|s c now R IH]; intros wid lid.
  - simpl. unfold active_count. simpl. lia.
  - apply active_count_run, IH.
Qed.

(** A trigger for a pair that already has an active execution changes
    nothing. *)
Lemma trigger_workflow_noop s wid lid now workflow e :
  get_workflow s wid = Some workflow ->
  wf_status workflow = "active" ->
  In e (executions s) -> is_active_for wid lid e = true ->
  trigger_workflow s wid lid now = (true, s).
Proof.
  intros G A Hin Hact. unfold trigger_workflow. rewrite G, A. simpl.
  destruct (find (is_active_for wid lid) (executions s)) eqn:F; [reflexivity|].
  pose proof (find_none _ _ F _ Hin) as N. congruence.
Qed.

(** A trigger of an active workflow succeeds exactly when the pair has an
    active execution already or the first step's due time is a
    [datetime]; a failed trigger stores nothing. *)
Lemma trigger_workflow_succeeds s wid lid now workflow :
  get_workflow s wid = Some workflow ->
  wf_status workflow = "active" ->
  let r := trigger_workflow s wid lid now in
  (fst r = true
   <-> (exists e, In e (executions s) /\ is_active_for wid lid e = true)
       \/ (exists due, first_due workflow now = Some due))
  /\ (fst r = false -> snd r = s).
Proof.
  intros G A. unfold trigger_workflow, first_due. rewrite G, A. simpl.
  destruct (find (is_active_for wid lid) (executions s)) as [e|] eqn:F; simpl.
  - split; [|discriminate]. split; [|reflexivity].
    intros _. left. exists e. apply find_some in F. exact F.
  - destruct (match steps workflow with _ :: _ => _ | [] => _ end) as [due|];
      simpl.
    + split; [|discriminate]. split; [|reflexivity].
      intros _. right. exists due. reflexivity.
    + split; [|reflexivity]. split; [discriminate|].
      intros [(e & Hin & Act)|(due & D)]; [|discriminate].
      pose proof (find_none _ _ F _ Hin) as N. congruence.
Qed.

(** After a successful trigger the pair has an active execution and the
    workflow is as active as before. *)
Lemma trigger_workflow_active s wid lid now workflow :
  get_workflow s wid = Some workflow ->
  wf_status workflow = "active" ->
  let r := trigger_workflow s wid lid now in
  fst r = true ->
  (exists e, In e (executions (snd r)) /\ is_active_for wid lid e = true)
  /\ (exists w, get_workflow (snd r) wid = Some w /\ wf_status w = "active").
Proof.
  intros G A. unfold trigger_workflow. rewrite G, A. simpl.
  destruct (find (is_active_for wid lid) (executions s)) as [e|] eqn:F; simpl.
  - intros _. split.
    + exists e. apply find_some in F. exact F.
    + exists workflow. auto.
  - destruct (match steps workflow with _ :: _ => _ | [] => _ end) as [due|];
      simpl; [intros _|discriminate].
    split.
    + rewrite executions_update_workflow. simpl.
      eexists. split; [apply in_or_app; right; left; reflexivity|].
      unfold is_active_for. simpl. rewrite !String.eqb_refl. reflexivity.
    + rewrite get_workflow_update, String.eqb_refl.
      rewrite get_workflow_with_executions, G. simpl.
      eexists. split; [reflexivity|]. exact A.
Qed.

End WorkflowProperties.

(** *** Idempotent trigger *)

Section IdempotentTrigger.

Import WorkflowService WorkflowQueries.

(** C1.  In a state the service can reach, a trigger of an active workflow
    for a lead succeeds exactly when the pair has an active execution
    already or the due time of the first step is a [datetime] (a trigger
    that fails stores nothing).  After a trigger that succeeded, triggering
    the pair again while an active execution of it exists (right away, or
    in any later state where the workflow is still active and such an
    execution is still there) succeeds and leaves every store as it is;
    and at any time a pair has at most one active execution. *)
Theorem trigger_workflow_idempotent :
  forall s wid lid now workflow,
    reachable s ->
    get_workflow s wid = Some workflow ->
    wf_status workflow = "active" ->
    let first := trigger_workflow s wid lid now in
    (fst first = true
     <-> (exists e, In e (executions s) /\ is_active_for wid lid e = true)
         \/ (exists due, first_due workflow now = Some due))
    /\ (fst first = false -> snd first = s)
    /\ (fst first = true ->
        forall now', trigger_workflow (snd first) wid lid now' = (true, snd first))
    /\ (forall s' now' w e,
          get_workflow s' wid = Some w -> wf_status w = "active" ->
          In e (executions s') -> is_active_for wid lid e = true ->
          trigger_workflow s' wid lid now' = (true, s'))
    /\ (forall wid' lid',
          (active_count wid' lid' (executions (snd first)) <= 1)%nat)
    /\ (forall s', reachable s' -> forall wid' lid',
          (active_count wid' lid' (executions s') <= 1)%nat).
Proof.
  intros s wid lid now workflow R G A first.
  destruct (trigger_workflow_succeeds s wid lid now G A) as [Ok Ko].
  fold first in Ok, Ko.
  split; [exact Ok|]. split; [exact Ko|].
  split.
  { intros Hfst now'.
    destruct (trigger_workflow_active s wid lid now G A Hfst)
      as ((e & Hin & Hact) & (w & Gw & Aw)).
    eapply trigger_workflow_noop; eauto. }
  split; [intros s' now' w' e' G' A' I' Act'; eapply trigger_workflow_noop; eauto|].
  split.
  - apply reachable_active_count.
    exact (reachable_run (Trigger wid lid) now R).
  - intros s' R'. apply reachable_active_count. exact R'.
Qed.

Lemma trigger_workflow_idempotent_witness :
  fst (trigger_workflow Samples.welcome_created Samples.welcome_id "lead_7" 1000000)
  = true
  /\ trigger_workflow Samples.welcome_triggered Samples.welcome_id "lead_7" 5000000
     = (true, Samples.welcome_triggered).
Proof.
  pose proof (@trigger_workflow_idempotent Samples.welcome_created
                Samples.welcome_id "lead_7" 1000000
                (mkWorkflow "workflow_1_0" "Welcome" "" "new_lead" "all_leads"
                   "active"
                   [mkStep "step_1_workflow_1_0" "welcome" 0 0 [] 1]
                   [] 0 0 0 0 None)
                (reachable_run (Create Samples.welcome) 0 reachable_initial)
                eq_refl eq_refl) as (_ & _ & H & _).
  split; [reflexivity|exact (H eq_refl 5000000)].
Defined.

End IdempotentTrigger.

(** *** Step progression *)

Section StepProgression.

Import WorkflowService.

(** The shape of an execution under the scheduler protocol: short of the
    last step while active or failed, exactly past it once completed. *)
Let settled (w : EmailWorkflow) (e : WorkflowExecution) : Prop :=
  ((status e = "active" \/ status e = "failed")
   /\ 0 <= current_step e < Z.of_nat (List.length (steps w)))
  \/ (status e = "completed"
      /\ current_step e = Z.of_nat (List.length (steps w))).

Let protocol_invariant (s : state) : Prop :=
  Forall (fun w => steps w <> []) (workflows s)
  /\ forall e, In e (executions s) ->
       exists w, get_workflow s (workflow_id e) = Some w /\ settled w e.

Lemma update_first_Forall (P : EmailWorkflow -> Prop) wid d now ws w' ws' :
  (forall w, P w -> P (apply_update w wid d now)) ->
  Forall P ws -> update_first wid d now ws = Some (w', ws') -> Forall P ws'.
Proof.
  intros HP. revert w' ws'.
  induction ws as [|w ws IH]; intros w' ws' F U; simpl in U; [discriminate|].
  inversion F as [|? ? Pw Pws]; subst.
  destruct (String.eqb (wf_id w) wid).
  - inversion U; subst. constructor; auto.
  - destruct (update_first wid d now ws) as [[w0 ws0]|]; [|discriminate].
    inversion U; subst. constructor; eauto.
Qed.

Lemma In_replace_first eid e' es x :
  In x (replace_first eid e' es) -> x = e' \/ In x es.
Proof.
  induction es as [|e es IH]; simpl; [tauto|].
  destruct (String.eqb (ex_id e) eid); simpl; intuition.
Qed.

Lemma py_index_in_range {A : Type} (l : list A) i :
  0 <= i < Z.of_nat (List.length l) -> exists a, py_index l i = Some a.
Proof.
  intros H. unfold py_index.
  replace (0 <=? i) with true by (symmetry; apply Z.leb_le; lia).
  replace (i <? Z.of_nat (List.length l)) with true
    by (symmetry; apply Z.ltb_lt; lia).
  simpl. destruct (nth_error l (Z.to_nat i)) eqn:E; [eauto|].
  apply nth_error_None in E. lia.
Qed.

Lemma protocol_invariant_trigger s wid lid now :
  protocol_invariant s ->
  protocol_invariant (snd (trigger_workflow s wid lid now)).
Proof.
  intros [Hw He]. unfold trigger_workflow.
  destruct (get_workflow s wid) as [workflow|] eqn:G; [|split; assumption].
  destruct (negb _); [split; assumption|].
  destruct (find (is_active_for wid lid) (executions s)); [split; assumption|].
  destruct (match steps workflow with _ :: _ => _ | [] => _ end) as [due|];
    [|split; assumption].
  cbn [snd]. split.
  - unfold update_workflow.
    destruct (update_first _ _ _ _) as [[w' ws']|] eqn:U; simpl; [|exact Hw].
    eapply update_first_Forall; [|exact Hw|exact U].
    intros w Pw. exact Pw.
  - rewrite executions_update_workflow. simpl. intros e Hin.
    assert (exists w, get_workflow s (workflow_id e) = Some w /\ settled w e)
      as (w & Gw & Sw).
    { apply in_app_or in Hin. destruct Hin as [Hin|[<-|[]]]; [auto|].
      simpl. exists workflow. split; [exact G|].
      left. simpl. split; [auto|].
      apply find_some in G. destruct G as [Gin _].
      rewrite Forall_forall in Hw. specialize (Hw _ Gin).
      destruct (steps workflow); [congruence|simpl; lia]. }
    rewrite get_workflow_update, get_workflow_with_executions, Gw.
    destruct (String.eqb wid (workflow_id e)); simpl; eauto.
Qed.

Lemma protocol_invariant_complete s e success now :
  protocol_invariant s ->
  find (fun x => String.eqb (ex_id x) (ex_id e)) (executions s) = Some e ->
  status e = "active" ->
  protocol_invariant (snd (complete_execution_step s (ex_id e) success now)).
Proof.
  intros [Hw He] F A. unfold complete_execution_step. rewrite F.
  destruct (He e) as (w & Gw & Sw); [apply find_some in F; tauto|].
  rewrite Gw.
  assert (0 <= current_step e < Z.of_nat (List.length (steps w))) as B.
  { destruct Sw as [[_ B]|[C _]]; [exact B|]. rewrite A in C. discriminate. }
  destruct (advance w e success now) as [e'|] eqn:Adv; [|split; assumption].
  split; [exact Hw|]. simpl. intros x Hin.
  apply In_replace_first in Hin.
  destruct Hin as [->|Hin]; [|exact (He x Hin)].
  exists w. unfold advance in Adv. destruct success.
  - destruct (Z.of_nat (List.length (steps w)) <=? current_step e + 1) eqn:L.
    + inversion Adv; subst; clear Adv. simpl. split; [exact Gw|].
      right. simpl. apply Z.leb_le in L. split; [reflexivity|lia].
    + destruct (py_index (steps w) (current_step e + 1)) as [next|];
        [|discriminate].
      destruct (add_delay next now); [|discriminate].
      inversion Adv; subst; clear Adv. simpl. split; [exact Gw|].
      left. simpl. apply Z.leb_gt in L. split; [auto|lia].
  - inversion Adv; subst; clear Adv. simpl. split; [exact Gw|].
    left. simpl. split; [auto|lia].
Qed.

Lemma scheduled_protocol_invariant s : scheduled s -> protocol_invariant s.
Proof.
  induction 1.
  - split; [assumption|]. simpl. intros e [].
  - apply protocol_invariant_trigger. assumption.
  - apply protocol_invariant_complete; assumption.
Qed.

(** C2, as the code has it.  Under the protocol of the scheduler (every
    workflow has at least one step, and an outcome is reported only for an
    id whose first execution in the file, the one the call updates, is
    active), every execution reached through [trigger_workflow] and
    [complete_execution_step] has [0 <= current_step <= len(steps)] of its
    workflow, and [current_step == len(steps)] exactly when its status is
    ["completed"]. *)
Theorem step_progression_scheduled :
  forall s, scheduled s -> step_progression_bound s.
Proof.
  intros s Hs e w Hin G.
  destruct (scheduled_protocol_invariant Hs) as [_ He].
  destruct (He e Hin) as (w' & G' & S). rewrite G in G'. inversion G'; subst w'.
  unfold within_steps.
  destruct S as [[St B]|[St B]].
  - split; [lia|]. split; intros H.
    + lia.
    + destruct St as [St|St]; rewrite St in H; discriminate.
  - split; [lia|]. tauto.
Qed.

Lemma step_progression_scheduled_witness :
  step_progression_bound Samples.welcome_sent.
Proof.
  apply step_progression_scheduled.
  refine (@scheduled_complete Samples.welcome_triggered
            (mkExecution "exec_workflow_1_0_lead_7_1" "workflow_1_0" "lead_7"
               "active" 0 (Some 1000000) 1000000 None None)
            true 2000000 _ eq_refl eq_refl).
  refine (@scheduled_trigger Samples.welcome_created Samples.welcome_id "lead_7"
            1000000 _).
  refine (@scheduled_start (workflows Samples.welcome_created) _).
  repeat constructor. discriminate.
Defined.

(** C2 as stated fails on the code in two ways: reporting a second success
    for a completed execution pushes [current_step] past the number of
    steps, and an execution of a workflow without steps starts at
    [current_step == len(steps)] while active. *)
Lemma step_progression_counterexample :
  (engine_run Samples.welcome_sent_twice
   /\ ~ step_progression_bound Samples.welcome_sent_twice)
  /\ (engine_run Samples.hollow_triggered
      /\ ~ step_progression_bound Samples.hollow_triggered).
Proof.
  split; split.
  - exact (engine_complete Samples.welcome_execution_id true 3000000
             (engine_complete Samples.welcome_execution_id true 2000000
                (engine_trigger Samples.welcome_id "lead_7" 1000000
                   (engine_start (workflows Samples.welcome_created))))).
  - intros H.
    destruct (H (mkExecution "exec_workflow_1_0_lead_7_1" "workflow_1_0" "lead_7"
                   "completed" 2 None 1000000 (Some 3000000) (Some 3000000))
                (mkWorkflow "workflow_1_0" "Welcome" "" "new_lead" "all_leads"
                   "active" [mkStep "step_1_workflow_1_0" "welcome" 0 0 [] 1]
                   [] 0 1000000 0 0 None)
                (or_introl eq_refl) eq_refl) as [[_ B] _].
    simpl in B. lia.
  - exact (engine_trigger Samples.welcome_id "lead_7" 1000000
             (engine_start (workflows Samples.hollow_created))).
  - intros H.
    destruct (H (mkExecution "exec_workflow_1_0_lead_7_1" "workflow_1_0" "lead_7"
                   "active" 0 (Some 1000000) 1000000 None None)
                (mkWorkflow "workflow_1_0" "Hollow" "" "manual" "all_leads"
                   "active" [] [] 0 1000000 0 0 None)
                (or_introl eq_refl) eq_refl) as [_ [C _]].
    specialize (C eq_refl). discriminate.
Qed.

(** Why the protocol speaks of the first execution with the id: after a
    completed run and a new trigger of the pair within the same second,
    the scheduler queue holds an active execution whose id is also that of
    the completed one; reporting a success for it advances the completed
    record past the last step. *)
Lemma step_progression_shared_id :
  let e := mkExecution "exec_workflow_1_0_lead_7_1" "workflow_1_0" "lead_7"
             "active" 0 (Some 1500000) 1500000 None None in
  engine_run Samples.welcome_again
  /\ In e (get_pending_executions Samples.welcome_again 1600000)
  /\ ~ step_progression_bound
         (snd (complete_execution_step Samples.welcome_again (ex_id e) true
                 1700000)).
Proof.
  intros e. split; [|split].
  - exact (engine_trigger Samples.welcome_id "lead_7" 1500000
             (engine_complete Samples.welcome_execution_id true 1200000
                (engine_trigger Samples.welcome_id "lead_7" 1000000
                   (engine_start (workflows Samples.welcome_created))))).
  - apply filter_In. split; [right; left; reflexivity|reflexivity].
  - intros H.
    destruct (H (mkExecution "exec_workflow_1_0_lead_7_1" "workflow_1_0" "lead_7"
                   "completed" 2 None 1000000 (Some 1700000) (Some 1700000))
                (mkWorkflow "workflow_1_0" "Welcome" "" "new_lead" "all_leads"
                   "active" [mkStep "step_1_workflow_1_0" "welcome" 0 0 [] 1]
                   [] 0 1500000 0 0 None)
                (or_introl eq_refl) eq_refl) as [[_ B] _].
    simpl in B. lia.
Qed.

End StepProgression.

(** *** Pausing a workflow *)

Section PauseWorkflow.

Import WorkflowService.

Lemma update_first_Forall2 wid d now ws w' ws' :
  update_first wid d now ws = Some (w', ws') ->
  Forall2 (fun w x => x = w \/ (wf_id w = wid /\ x = apply_update w wid d now))
          ws ws'.
Proof.
  revert w' ws'. induction ws as [|w ws IH]; intros w' ws' U; simpl in U;
    [discriminate|].
  destruct (String.eqb (wf_id w) wid) eqn:E.
  - inversion U; subst. apply String.eqb_eq in E. constructor; [auto|].
    clear. induction ws; constructor; auto.
  - destruct (update_first wid d now ws) as [[w0 ws0]|]; [|discriminate].
    inversion U; subst. constructor; eauto.
Qed.

Lemma Forall2_same {A : Type} (R : A -> A -> Prop) (l : list A) :
  (forall a, R a a) -> Forall2 R l l.
Proof. intros H. induction l; constructor; auto. Qed.

Lemma complete_execution_step_paused s wid now eid success t :
  let s' := snd (pause_workflow s wid now) in
  complete_execution_step s' eid success t =
  (fst (complete_execution_step s eid success t),
   with_workflows (snd (complete_execution_step s eid success t)) (workflows s')).
Proof.
  intros s'.
  assert (executions s' = executions s) as Ex
    by apply executions_update_workflow.
  assert (forall b : bool, (b, s') = (b, with_workflows s (workflows s'))) as Es.
  { intros b. f_equal. destruct s' as [ws es] eqn:D. simpl in Ex. subst es.
    reflexivity. }
  unfold complete_execution_step. rewrite Ex.
  destruct (find _ (executions s)) as [e|]; [|apply Es].
  unfold s' at 1. unfold pause_workflow. rewrite get_workflow_update.
  destruct (String.eqb wid (workflow_id e));
    (destruct (get_workflow s (workflow_id e)) as [w|]; simpl; [|apply Es]).
  - change (advance (apply_update w wid (status_only "paused") now) e success t)
      with (advance w e success t).
    destruct (advance w e success t); simpl; [|apply Es].
    reflexivity.
  - destruct (advance w e success t); simpl; [|apply Es].
    reflexivity.
Qed.

(** C6.  [pause_workflow] rewrites the status (and the update stamp) of
    the workflow it finds and nothing else: the executions file is
    unchanged, so the scheduler queue is the same at every time and a due
    active execution is still in it; reporting an outcome has the same
    result and the same effect on the executions as without the pause;
    and a trigger of the paused workflow fails for every lead, changing
    nothing. *)
Theorem pause_workflow_frame :
  forall s wid now,
    let s' := snd (pause_workflow s wid now) in
    executions s' = executions s
    /\ Forall2 (fun w x => x = w \/ (wf_id w = wid /\ x = paused_at now w))
               (workflows s) (workflows s')
    /\ (forall t, get_pending_executions s' t = get_pending_executions s t)
    /\ (forall e due t,
          In e (executions s) -> status e = "active" ->
          next_execution e = Some due -> due <= t ->
          In e (get_pending_executions s' t))
    /\ (forall eid success t,
          fst (complete_execution_step s' eid success t)
          = fst (complete_execution_step s eid success t)
          /\ executions (snd (complete_execution_step s' eid success t))
             = executions (snd (complete_execution_step s eid success t)))
    /\ (forall lid t, trigger_workflow s' wid lid t = (false, s')).
Proof.
  intros s wid now s'.
  assert (executions s' = executions s) as Ex
    by apply executions_update_workflow.
  split; [exact Ex|]. split.
  { unfold s', pause_workflow, update_workflow.
    destruct (update_first _ _ _ _) as [[w ws]|] eqn:U; simpl.
    - exact (update_first_Forall2 _ _ _ _ U).
    - apply Forall2_same. auto. }
  split; [intros t; unfold get_pending_executions; rewrite Ex; reflexivity|].
  split.
  { intros e due t Hin A N D. unfold get_pending_executions. rewrite Ex.
    apply filter_In. split; [exact Hin|].
    rewrite A, N. simpl. apply Z.leb_le. exact D. }
  split.
  { intros eid success t.
    pose proof (complete_execution_step_paused s wid now eid success t) as H.
    cbv zeta in H. fold s' in H. rewrite H. split; reflexivity. }
  intros lid t. unfold trigger_workflow.
  unfold s' at 1. unfold pause_workflow. rewrite get_workflow_update.
  rewrite String.eqb_refl.
  destruct (get_workflow s wid) as [w|]; reflexivity.
Qed.

Lemma pause_workflow_frame_witness :
  let s' := snd (pause_workflow Samples.welcome_triggered Samples.welcome_id 4000000) in
  get_pending_executions s' 5000000
  = get_pending_executions Samples.welcome_triggered 5000000
  /\ trigger_workflow s' Samples.welcome_id "lead_8" 5000000 = (false, s').
Proof.
  intros s'.
  pose proof (pause_workflow_frame Samples.welcome_triggered Samples.welcome_id
                4000000) as (_ & _ & P & _ & _ & T).
  split; [exact (P 5000000)|exact (T "lead_8" 5000000)].
Defined.

End PauseWorkflow.

(** ** Address normalization *)

Section Normalization.

Lemma lower_ascii_idempotent c : lower_ascii (lower_ascii c) = lower_ascii c.
Proof. destruct c as [[] [] [] [] [] [] [] []]; reflexivity. Qed.

Lemma is_space_lower_ascii c : is_space (lower_ascii c) = is_space c.
Proof. destruct c as [[] [] [] [] [] [] [] []]; reflexivity. Qed.

Lemma lower_idempotent s : lower (lower s) = lower s.
Proof.
  induction s as [|c s IH]; simpl; [reflexivity|].
  rewrite lower_ascii_idempotent, IH. reflexivity.
Qed.

Lemma is_empty_lower s : is_empty (lower s) = is_empty s.
Proof. destruct s; reflexivity. Qed.

Lemma lstrip_lower s : lstrip (lower s) = lower (lstrip s).
Proof.
  induction s as [|c s IH]; simpl; [reflexivity|].
  rewrite is_space_lower_ascii. destruct (is_space c); [exact IH|reflexivity].
Qed.

Lemma rstrip_lower s : rstrip (lower s) = lower (rstrip s).
Proof.
  induction s as [|c s IH]; simpl; [reflexivity|].
  rewrite is_space_lower_ascii, IH, is_empty_lower.
  destruct (is_space c && is_empty (rstrip s))%bool; reflexivity.
Qed.

Lemma rstrip_idempotent s : rstrip (rstrip s) = rstrip s.
Proof.
  induction s as [|c s IH]; simpl; [reflexivity|].
  destruct (is_space c && is_empty (rstrip s))%bool eqn:E; [reflexivity|].
  simpl. rewrite IH, E. reflexivity.
Qed.

Lemma lstrip_rstrip_lstrip s : lstrip (rstrip (lstrip s)) = rstrip (lstrip s).
Proof.
  induction s as [|c s IH]; simpl; [reflexivity|].
  destruct (is_space c) eqn:E; [exact IH|].
  simpl. rewrite E. simpl. rewrite E. reflexivity.
Qed.

Lemma strip_idempotent s : strip (strip s) = strip s.
Proof.
  unfold strip. rewrite lstrip_rstrip_lstrip. apply rstrip_idempotent.
Qed.

Lemma normalize_email_idempotent email :
  normalize_email (normalize_email email) = normalize_email email.
Proof.
  unfold normalize_email, strip.
  rewrite <- rstrip_lower, <- lstrip_lower, lower_idempotent.
  apply strip_idempotent.
Qed.

End Normalization.

(** ** The suppression gate *)

Section Suppression.

Import EmailComplianceService.

Lemma is_email_suppressed_normalized s email :
  is_email_suppressed s (normalize_email email) = is_email_suppressed s email.
Proof.
  unfold is_email_suppressed. rewrite normalize_email_idempotent. reflexivity.
Qed.

Lemma existsb_false_filter {A : Type} (p : A -> bool) l :
  existsb p l = false -> filter p l = [].
Proof.
  induction l as [|a l IH]; simpl; [reflexivity|].
  destruct (p a); simpl; [discriminate|exact IH].
Qed.

Lemma existsb_true_filter {A : Type} (p : A -> bool) l :
  existsb p l = true -> (1 <= List.length (filter p l))%nat.
Proof.
  induction l as [|a l IH]; simpl; [discriminate|].
  destruct (p a); simpl; [lia|exact IH].
Qed.

(** [add_to_suppression_list] with the repeated normalization folded. *)
Lemma add_to_suppression_list_eq s email reason source details now :
  add_to_suppression_list s email reason source details now =
  if is_email_suppressed s email then (true, s)
  else (true,
        mkState (unsubscribe_records s)
          (suppression_list s ++
           [mkSuppression (normalize_email email) reason now source
              (Some (match details with Some d => d | None => [] end))])).
Proof.
  unfold add_to_suppression_list. rewrite is_email_suppressed_normalized.
  reflexivity.
Qed.

Lemma unsubscribe_email_eq s email reason source w t ip ua now :
  unsubscribe_email s email reason source w t ip ua now =
  if is_email_suppressed s email then (true, s)
  else (true,
        mkState
          (unsubscribe_records s ++
           [mkUnsubscribe (normalize_email email) now reason source w t ip ua])
          (suppression_list s ++
           [mkSuppression (normalize_email email) "unsubscribed" now source
              (Some [("workflow_id", w); ("template_id", t);
                     ("user_reason", reason)])])).
Proof.
  unfold unsubscribe_email. rewrite is_email_suppressed_normalized.
  reflexivity.
Qed.

Lemma is_email_suppressed_app s us entry email :
  is_email_suppressed (mkState us (suppression_list s ++ [entry])) email =
  (is_email_suppressed s email
   || String.eqb (sup_email entry) (normalize_email email))%bool.
Proof.
  unfold is_email_suppressed. simpl. rewrite existsb_app. simpl.
  rewrite orb_false_r. reflexivity.
Qed.

Lemma add_to_suppression_list_suppresses s email reason source details now :
  is_email_suppressed
    (snd (add_to_suppression_list s email reason source details now)) email
  = true.
Proof.
  rewrite add_to_suppression_list_eq.
  destruct (is_email_suppressed s email) eqn:E; simpl; [exact E|].
  rewrite is_email_suppressed_app. simpl.
  rewrite String.eqb_refl. apply orb_true_r.
Qed.

(** At most one entry per address. *)
Let one_entry_each (s : state) : Prop :=
  forall email, (List.length (entries_for email s) <= 1)%nat.

Lemma one_entry_each_append s us entry :
  one_entry_each s ->
  is_email_suppressed s (sup_email entry) = false ->
  normalize_email (sup_email entry) = sup_email entry ->
  one_entry_each (mkState us (suppression_list s ++ [entry])).
Proof.
  intros I N Hn email. unfold entries_for. simpl.
  rewrite filter_app, length_app. simpl.
  destruct (String.eqb (sup_email entry) email) eqn:E; simpl.
  - apply String.eqb_eq in E. subst email.
    unfold is_email_suppressed in N. rewrite Hn in N.
    rewrite (existsb_false_filter _ _ N). simpl. lia.
  - specialize (I email). unfold entries_for in I. lia.
Qed.

Lemma one_entry_each_add s email reason source details now :
  one_entry_each s ->
  one_entry_each (snd (add_to_suppression_list s email reason source details now)).
Proof.
  intros I. rewrite add_to_suppression_list_eq.
  destruct (is_email_suppressed s email) eqn:E; simpl; [exact I|].
  apply one_entry_each_append; simpl.
  - exact I.
  - rewrite is_email_suppressed_normalized. exact E.
  - apply normalize_email_idempotent.
Qed.

Lemma one_entry_each_bulk emails reason now added skipped s :
  one_entry_each s ->
  one_entry_each (snd (bulk_import_loop emails reason now added skipped s)).
Proof.
  revert added skipped s.
  induction emails as [|email emails IH]; intros added skipped s I; simpl;
    [exact I|].
  destruct (negb _); apply IH; [|exact I].
  apply one_entry_each_add. exact I.
Qed.

Lemma one_entry_each_run c now s :
  one_entry_each s -> one_entry_each (run c now s).
Proof.
  intros I. destruct c; unfold run.
  - rewrite unsubscribe_email_eq.
    destruct (is_email_suppressed s email) eqn:E; simpl; [exact I|].
    apply one_entry_each_append; simpl.
    + exact I.
    + rewrite is_email_suppressed_normalized. exact E.
    + apply normalize_email_idempotent.
  - apply one_entry_each_add. exact I.
  - unfold remove_from_suppression_list.
    destruct (_ <? _)%nat; simpl; [|exact I].
    intros e. unfold entries_for. simpl.
    specialize (I e). unfold entries_for in I.
    eapply Nat.le_trans; [|exact I].
    clear. induction (suppression_list s) as [|x l IH]; simpl; [lia|].
    destruct (negb _); simpl; destruct (String.eqb (sup_email x) e); simpl; lia.
  - apply one_entry_each_bulk. exact I.
Qed.

Lemma reachable_one_entry_each s : reachable s -> one_entry_each s.
Proof.
  induction 1 as [|s c now R IH].
  - intros email. simpl. lia.
  - apply one_entry_each_run. exact IH.
Qed.

(** C7.  In a state the service can reach, two calls of
    [add_to_suppression_list] for an address both return true, the second
    changes nothing, and afterwards the suppression list holds exactly one
    entry under the normalized address. *)
Theorem add_to_suppression_list_idempotent :
  forall s email reason source details now1 now2,
    reachable s ->
    let first := add_to_suppression_list s email reason source details now1 in
    let second :=
      add_to_suppression_list (snd first) email reason source details now2 in
    fst first = true
    /\ fst second = true
    /\ snd second = snd first
    /\ List.length (entries_for (normalize_email email) (snd second)) = 1%nat.
Proof.
  intros s email reason source details now1 now2 R first second.
  assert (is_email_suppressed (snd first) email = true) as S1
    by apply add_to_suppression_list_suppresses.
  assert (second = (true, snd first)) as E2.
  { unfold second. rewrite add_to_suppression_list_eq, S1. reflexivity. }
  split.
  { unfold first. rewrite add_to_suppression_list_eq.
    destruct (is_email_suppressed s email); reflexivity. }
  rewrite E2. simpl. split; [reflexivity|]. split; [reflexivity|].
  assert (one_entry_each (snd first)) as I.
  { apply one_entry_each_add, reachable_one_entry_each, R. }
  specialize (I (normalize_email email)).
  unfold is_email_suppressed in S1. apply existsb_true_filter in S1.
  unfold entries_for in *. lia.
Qed.

Lemma add_to_suppression_list_idempotent_witness :
  let first :=
    add_to_suppression_list initial " Foo@Bar.com " "manual" "manual" None 10 in
  let second :=
    add_to_suppression_list (snd first) " Foo@Bar.com " "manual" "manual" None 20 in
  fst second = true
  /\ List.length (entries_for "foo@bar.com" (snd second)) = 1%nat.
Proof.
  intros first second.
  pose proof (@add_to_suppression_list_idempotent initial " Foo@Bar.com "
                "manual" "manual" None 10 20 reachable_initial)
    as (_ & H2 & _ & H4).
  split; [exact H2|exact H4].
Defined.

(** C8, as the code has it.  [unsubscribe_email] always returns true and
    leaves the address suppressed; it appends one [UnsubscribeRecord] (and
    the suppression entry) when the address was not suppressed before the
    call, and changes nothing, the audit trail included, when it was. *)
Theorem unsubscribe_email_records :
  forall s email reason source w t ip ua now,
    let r := unsubscribe_email s email reason source w t ip ua now in
    fst r = true
    /\ is_email_suppressed (snd r) email = true
    /\ (is_email_suppressed s email = true -> snd r = s)
    /\ (is_email_suppressed s email = false ->
        unsubscribe_records (snd r) =
        unsubscribe_records s ++
        [mkUnsubscribe (normalize_email email) now reason source w t ip ua]).
Proof.
  intros s email reason source w t ip ua now r. unfold r.
  rewrite unsubscribe_email_eq.
  destruct (is_email_suppressed s email) eqn:E; simpl.
  - repeat split; try assumption; try reflexivity. discriminate.
  - repeat split; try reflexivity; try discriminate.
    rewrite is_email_suppressed_app. simpl.
    rewrite String.eqb_refl. apply orb_true_r.
Qed.

Lemma unsubscribe_email_records_witness :
  let r := unsubscribe_email initial "a@b.com" None "email_link" None None
             None None 10 in
  fst r = true /\ is_email_suppressed (snd r) "a@b.com" = true.
Proof.
  intros r.
  pose proof (unsubscribe_email_records initial "a@b.com" None "email_link"
                None None None None 10) as (H1 & H2 & _).
  split; [exact H1|exact H2].
Defined.

(** C8 as stated fails: the second unsubscribe of an address finds it
    suppressed and returns before any record is written, so the audit
    trail does not grow. *)
Lemma unsubscribe_email_counterexample :
  let s1 := snd (unsubscribe_email initial "a@b.com" None "email_link" None
                   None None None 10) in
  let r2 := unsubscribe_email s1 "a@b.com" (Some "again") "email_link" None
              None None None 20 in
  is_email_suppressed s1 "a@b.com" = true
  /\ fst r2 = true
  /\ unsubscribe_records (snd r2) = unsubscribe_records s1
  /\ ~ (exists record,
          unsubscribe_records (snd r2) = unsubscribe_records s1 ++ [record]).
Proof.
  vm_compute. repeat split. intros [record H]. discriminate.
Qed.

End Suppression.

(** ** The bounce ledger *)

Section BounceLedger.

Import BounceHandlingService.

(** A cleanup drops the records that are too old, or fails and drops
    nothing. *)
Lemma cleanup_old_records_cases s days_old now :
  snd (cleanup_old_records s days_old now) = s
  \/ exists cutoff_date,
       snd (cleanup_old_records s days_old now)
       = mkState (compliance s)
           (filter (fun r => cutoff_date <? last_bounce_at r) (bounce_records s))
           (filter (fun f => cutoff_date <? failed_at f) (delivery_failures s))
           (email_history s).
Proof.
  unfold cleanup_old_records.
  destruct (datetime_sub now (timedelta_days days_old)) as [cutoff_date|];
    [right; exists cutoff_date|left]; reflexivity.
Qed.

Lemma find_bounce_bumped email bounce_type bounce_reason details now records r :
  find_bounce email records = Some r ->
  find_bounce email
    (bump_first_bounce email bounce_type bounce_reason details now records)
  = Some (bump_bounce r bounce_type bounce_reason details now).
Proof.
  unfold find_bounce.
  induction records as [|x l IH]; simpl; [discriminate|].
  destruct (String.eqb (br_email x) email) eqn:E; simpl.
  - intros H. inversion H; subst. rewrite E. reflexivity.
  - rewrite E. exact IH.
Qed.

Lemma find_bounce_added email records r :
  find_bounce email records = None -> br_email r = email ->
  find_bounce email (records ++ [r]) = Some r.
Proof.
  unfold find_bounce. intros N E.
  induction records as [|x l IH]; simpl in *.
  - rewrite E, String.eqb_refl. reflexivity.
  - destruct (String.eqb (br_email x) email); [discriminate|auto].
Qed.

Lemma handle_bounce_record s email bounce_type bounce_reason r t w details now :
  find_bounce (normalize_email email)
    (bounce_records
       (snd (handle_bounce s email bounce_type bounce_reason r t w details now)))
  = Some (bounced_record s email bounce_type bounce_reason r t w details now).
Proof.
  unfold handle_bounce, bounced_record. cbn [snd].
  set (e := normalize_email email).
  assert (forall s' rs x y z,
            bounce_records
              (update_email_status (with_bounce_records s' rs) x y z now) = rs)
    as Plain by reflexivity.
  assert (forall s' rs a b d x y z,
            bounce_records
              (update_email_status
                 (suppress (with_bounce_records s' rs) a b d now) x y z now) = rs)
    as Supp by reflexivity.
  assert (find_bounce e
            match find_bounce e (bounce_records s) with
            | Some _ =>
                bump_first_bounce e bounce_type bounce_reason details now
                  (bounce_records s)
            | None =>
                bounce_records s ++
                [mkBounce e bounce_type bounce_reason now r t w 1 now 1 details]
            end
          = Some match find_bounce e (bounce_records s) with
                 | Some record =>
                     bump_bounce record bounce_type bounce_reason details now
                 | None =>
                     mkBounce e bounce_type bounce_reason now r t w 1 now 1 details
                 end) as F.
  { destruct (find_bounce e (bounce_records s)) eqn:Fd.
    - apply find_bounce_bumped. exact Fd.
    - apply find_bounce_added; [exact Fd|reflexivity]. }
  destruct (String.eqb bounce_type "hard"); [rewrite Supp; exact F|].
  destruct (String.eqb bounce_type "soft").
  - destruct (5 <=? _); [rewrite Supp|rewrite Plain]; exact F.
  - destruct (String.eqb bounce_type "complaint");
      [rewrite Supp|rewrite Plain]; exact F.
Qed.

(** The suppression list after a call of [handle_bounce]. *)
Lemma handle_bounce_compliance s email bounce_type bounce_reason r t w details now :
  compliance
    (snd (handle_bounce s email bounce_type bounce_reason r t w details now))
  = let add reason :=
      snd (Compliance.add_to_suppression_list (compliance s)
             (normalize_email email) reason "bounce_handler"
             (bounce_details bounce_reason bounce_type) now) in
    if String.eqb bounce_type "hard" then add "bounced"
    else if String.eqb bounce_type "soft" then
      if 5 <=? bounce_count
                 (bounced_record s email bounce_type bounce_reason r t w
                    details now)
      then add "bounced" else compliance s
    else if String.eqb bounce_type "complaint" then add "complained"
    else compliance s.
Proof.
  unfold handle_bounce, bounced_record. cbn [snd]. cbv zeta.
  destruct (String.eqb bounce_type "hard"); [reflexivity|].
  destruct (String.eqb bounce_type "soft").
  - destruct (5 <=? _); reflexivity.
  - destruct (String.eqb bounce_type "complaint"); reflexivity.
Qed.

Lemma handle_bounce_failures s email bounce_type bounce_reason r t w details now :
  delivery_failures
    (snd (handle_bounce s email bounce_type bounce_reason r t w details now))
  = delivery_failures s.
Proof.
  unfold handle_bounce. cbn [snd]. cbv zeta.
  destruct (String.eqb bounce_type "hard"); [reflexivity|].
  destruct (String.eqb bounce_type "soft").
  - destruct (5 <=? _); reflexivity.
  - destruct (String.eqb bounce_type "complaint"); reflexivity.
Qed.

Lemma suppressed_after_add c email reason source details now :
  Compliance.is_email_suppressed
    (snd (Compliance.add_to_suppression_list c (normalize_email email) reason
            source details now)) email = true.
Proof.
  rewrite <- is_email_suppressed_normalized.
  apply add_to_suppression_list_suppresses.
Qed.

End BounceLedger.

(** *** Soft bounces and other bounce types *)

Section BounceTypes.

Import BounceHandlingService.

(** The ledger after [n] soft bounces of an address that started clean. *)
Let soft_count (s : state) (email : string) (n : Z) : Prop :=
  ((n = 0 /\ find_bounce (normalize_email email) (bounce_records s) = None)
   \/ (0 < n /\ exists r,
         find_bounce (normalize_email email) (bounce_records s) = Some r
         /\ bounce_count r = n))
  /\ Compliance.is_email_suppressed (compliance s) email = (5 <=? n).

Lemma soft_count_step s email n reason r t w details now :
  soft_count s email n ->
  soft_count (snd (handle_bounce s email "soft" reason r t w details now))
             email (n + 1).
Proof.
  intros [C S]. split.
  - right. split; [destruct C as [[-> _]|[P _]]; lia|].
    eexists. split; [apply handle_bounce_record|].
    unfold bounced_record.
    destruct C as [[-> N]|[_ (x & F & B)]].
    + rewrite N. reflexivity.
    + rewrite F. simpl. lia.
  - rewrite handle_bounce_compliance. cbv zeta. simpl String.eqb. cbv iota.
    assert (bounce_count (bounced_record s email "soft" reason r t w details now)
            = n + 1) as B.
    { unfold bounced_record.
      destruct C as [[-> N]|[_ (x & F & B)]].
      - rewrite N. reflexivity.
      - rewrite F. simpl. lia. }
    rewrite B. destruct (5 <=? n + 1) eqn:L.
    + apply suppressed_after_add.
    + rewrite S. apply Z.leb_gt in L. apply Z.leb_gt. lia.
Qed.

Lemma soft_count_bounces email evs :
  Forall (fun ev => ev_type ev = "soft") evs ->
  forall s n,
    soft_count s email n ->
    soft_count (bounces email evs s) email (n + Z.of_nat (List.length evs)).
Proof.
  induction 1 as [|ev evs T _ IH]; intros s n H.
  - simpl. rewrite Z.add_0_r. exact H.
  - change (bounces email (ev :: evs) s)
      with (bounces email evs
              (snd (handle_bounce s email (ev_type ev) (ev_reason ev)
                      (ev_resend_id ev) (ev_template_id ev) (ev_workflow_id ev)
                      (ev_details ev) (ev_at ev)))).
    rewrite T.
    replace (n + Z.of_nat (List.length (ev :: evs)))
      with ((n + 1) + Z.of_nat (List.length evs))
      by (simpl List.length; lia).
    apply IH. apply soft_count_step. exact H.
Qed.

(** C5.  For an address that is not suppressed and has no bounce record,
    successive soft bounces leave it unsuppressed up to the fourth, and
    the fifth puts it on the suppression list. *)
Theorem soft_bounce_threshold :
  forall s email evs,
    Compliance.is_email_suppressed (compliance s) email = false ->
    find_bounce (normalize_email email) (bounce_records s) = None ->
    Forall (fun ev => ev_type ev = "soft") evs ->
    ((List.length evs <= 4)%nat ->
     Compliance.is_email_suppressed (compliance (bounces email evs s)) email
     = false)
    /\ (List.length evs = 5%nat ->
        Compliance.is_email_suppressed (compliance (bounces email evs s)) email
        = true).
Proof.
  intros s email evs S N T.
  assert (soft_count s email 0) as H0 by (split; [left; auto|exact S]).
  destruct (soft_count_bounces T H0) as [_ E]. rewrite E.
  split; intros L.
  - apply Z.leb_gt. lia.
  - apply Z.leb_le. lia.
Qed.

Lemma soft_bounce_threshold_witness :
  let ev := mkEvent "soft" "mailbox full" None None None None 10 in
  Compliance.is_email_suppressed
    (compliance (bounces "a@b.com" [ev; ev; ev; ev] initial)) "a@b.com" = false
  /\ Compliance.is_email_suppressed
       (compliance (bounces "a@b.com" [ev; ev; ev; ev; ev] initial)) "a@b.com"
     = true.
Proof.
  intros ev. split.
  - refine (proj1 (@soft_bounce_threshold initial "a@b.com" [ev; ev; ev; ev]
                     eq_refl eq_refl _) _).
    + repeat constructor.
    + simpl. lia.
  - refine (proj2 (@soft_bounce_threshold initial "a@b.com" [ev; ev; ev; ev; ev]
                     eq_refl eq_refl _) eq_refl).
    repeat constructor.
Defined.

Lemma other_type_compliance s email bounce_type reason r t w details now :
  other_type bounce_type ->
  compliance (snd (handle_bounce s email bounce_type reason r t w details now))
  = compliance s.
Proof.
  intros (H & S & C). rewrite handle_bounce_compliance. cbv zeta.
  apply String.eqb_neq in H, S, C. rewrite H, S, C. reflexivity.
Qed.

(** C10.  A bounce whose type is none of ["hard"], ["soft"] and
    ["complaint"] returns true, creates the bounce record of the address
    (count 1) or increments it, and leaves the suppression list as it is;
    so does any number of such bounces in a row. *)
Theorem other_bounce_never_suppresses :
  forall s email bounce_type reason r t w details now,
    other_type bounce_type ->
    let result := handle_bounce s email bounce_type reason r t w details now in
    fst result = true
    /\ compliance (snd result) = compliance s
    /\ (exists record,
          find_bounce (normalize_email email) (bounce_records (snd result))
          = Some record
          /\ bounce_count record =
             match find_bounce (normalize_email email) (bounce_records s) with
             | Some old => bounce_count old + 1
             | None => 1
             end)
    /\ (forall evs,
          Forall (fun ev => other_type (ev_type ev)) evs ->
          compliance (bounces email evs s) = compliance s).
Proof.
  intros s email bounce_type reason r t w details now O result.
  split; [reflexivity|].
  split; [apply other_type_compliance; exact O|].
  split.
  - eexists. split; [apply handle_bounce_record|].
    unfold bounced_record.
    destruct (find_bounce (normalize_email email) (bounce_records s));
      reflexivity.
  - intros evs F. clear result. revert s.
    induction F as [|ev evs T _ IH]; intros s; [reflexivity|].
    change (bounces email (ev :: evs) s)
      with (bounces email evs
              (snd (handle_bounce s email (ev_type ev) (ev_reason ev)
                      (ev_resend_id ev) (ev_template_id ev) (ev_workflow_id ev)
                      (ev_details ev) (ev_at ev)))).
    rewrite IH. apply other_type_compliance. exact T.
Qed.

Lemma other_bounce_never_suppresses_witness :
  let result :=
    handle_bounce initial "a@b.com" "invalid" "no such domain" None None None
      None 10 in
  fst result = true /\ compliance (snd result) = compliance initial.
Proof.
  intros result.
  assert (other_type "invalid") as O by (repeat split; discriminate).
  pose proof (@other_bounce_never_suppresses initial "a@b.com" "invalid"
                "no such domain" None None None None 10 O) as (H1 & H2 & _).
  split; [exact H1|exact H2].
Defined.

End BounceTypes.

(** *** Delivery failures and retries *)

Section DeliveryFailures.

Import BounceHandlingService.

Lemma opt_eqb_eq a b : opt_eqb a b = true <-> a = b.
Proof.
  destruct a as [x|], b as [y|]; simpl; split; intros H;
    try discriminate; try reflexivity.
  - apply String.eqb_eq in H. congruence.
  - inversion H. apply String.eqb_refl.
Qed.

Lemma same_failure_key email resend_id f :
  same_failure email resend_id f = true <-> failure_key f = (email, resend_id).
Proof.
  unfold same_failure, failure_key. rewrite andb_true_iff, String.eqb_eq, opt_eqb_eq.
  split; [intros [-> ->]; reflexivity|intros H; inversion H; auto].
Qed.


Lemma find_failure_some email resend_id l f :
  find_failure email resend_id l = Some f ->
  In f l /\ failure_key f = (email, resend_id).
Proof.
  unfold find_failure. intros H. apply find_some in H.
  rewrite same_failure_key in H. exact H.
Qed.

Lemma find_failure_absent email resend_id l :
  ~ In (email, resend_id) (map failure_key l) ->
  find_failure email resend_id l = None.
Proof.
  unfold find_failure. induction l as [|x l IH]; simpl; [reflexivity|].
  intros N. destruct (same_failure email resend_id x) eqn:E.
  - apply same_failure_key in E. tauto.
  - apply IH. tauto.
Qed.

Lemma find_failure_none_key email resend_id l :
  find_failure email resend_id l = None ->
  ~ In (email, resend_id) (map failure_key l).
Proof.
  unfold find_failure. intros N Hin. apply in_map_iff in Hin.
  destruct Hin as (f & K & Hin). apply same_failure_key in K.
  pose proof (find_none _ _ N _ Hin). congruence.
Qed.


Lemma map_key_replace email resend_id f' l f :
  find_failure email resend_id l = Some f ->
  failure_key f' = failure_key f ->
  map failure_key (replace_failure email resend_id f' l) = map failure_key l.
Proof.
  unfold find_failure. induction l as [|x l IH]; simpl; [discriminate|].
  destruct (same_failure email resend_id x); simpl.
  - intros H K. inversion H; subst. rewrite K. reflexivity.
  - intros H K. rewrite IH; auto.
Qed.

Lemma In_replace_failure email resend_id f' l x :
  In x (replace_failure email resend_id f' l) -> x = f' \/ In x l.
Proof.
  induction l as [|y l IH]; simpl; [tauto|].
  destruct (same_failure email resend_id y); simpl; intuition.
Qed.



Lemma find_failure_remove_other email resend_id e r l :
  (email, resend_id) <> (e, r) ->
  find_failure email resend_id (remove_failure e r l)
  = find_failure email resend_id l.
Proof.
  unfold find_failure. intros D. induction l as [|x l IH]; simpl; [reflexivity|].
  destruct (same_failure e r x) eqn:E; simpl.
  - destruct (same_failure email resend_id x) eqn:E2; [|reflexivity].
    apply same_failure_key in E, E2. congruence.
  - destruct (same_failure email resend_id x); auto.
Qed.

Lemma find_failure_removed email resend_id l :
  NoDup (map failure_key l) ->
  find_failure email resend_id (remove_failure email resend_id l) = None.
Proof.
  induction l as [|x l IH]; simpl; [reflexivity|].
  intros N. inversion N as [|? ? Nx Nl]; subst.
  destruct (same_failure email resend_id x) eqn:E.
  - apply find_failure_absent. apply same_failure_key in E. congruence.
  - unfold find_failure. simpl. rewrite E. apply IH. exact Nl.
Qed.


Lemma map_key_remove_incl e r l :
  incl (remove_failure e r l) l.
Proof.
  induction l as [|x l IH]; simpl; [apply incl_refl|].
  destruct (same_failure e r x).
  - apply incl_tl, incl_refl.
  - apply incl_cons; [left; reflexivity|apply incl_tl, IH].
Qed.

Lemma NoDup_key_remove e r l :
  NoDup (map failure_key l) -> NoDup (map failure_key (remove_failure e r l)).
Proof.
  induction l as [|x l IH]; simpl; [auto|].
  intros N. inversion N as [|? ? Nx Nl]; subst.
  destruct (same_failure e r x); simpl; [exact Nl|].
  constructor; [|auto].
  intros Hin. apply Nx. apply in_map_iff in Hin. destruct Hin as (g & K & Hg).
  apply in_map_iff. exists g. split; [exact K|].
  exact (map_key_remove_incl e r l g Hg).
Qed.

Lemma NoDup_key_filter (p : DeliveryFailure -> bool) l :
  NoDup (map failure_key l) -> NoDup (map failure_key (filter p l)).
Proof.
  induction l as [|x l IH]; simpl; [auto|].
  intros N. inversion N as [|? ? Nx Nl]; subst.
  destruct (p x); simpl; [|auto].
  constructor; [|auto].
  intros Hin. apply Nx. apply in_map_iff in Hin. destruct Hin as (g & K & Hg).
  apply in_map_iff. exists g. split; [exact K|].
  apply filter_In in Hg. tauto.
Qed.

Lemma NoDup_snoc {A : Type} (l : list A) a :
  NoDup l -> ~ In a l -> NoDup (l ++ [a]).
Proof.
  induction l as [|x l IH]; simpl; intros N Ha.
  - constructor; [tauto|constructor].
  - inversion N as [|? ? Nx Nl]; subst. constructor.
    + intros Hin. apply in_app_or in Hin. simpl in Hin.
      destruct Hin as [Hin|[E|[]]]; [tauto|]. subst. tauto.
    + apply IH; [exact Nl|tauto].
Qed.

(** The failure file after [handle_delivery_failure]. *)
Lemma handle_delivery_failure_failures s email reason rid t w details now :
  delivery_failures
    (snd (handle_delivery_failure s email reason rid t w details now))
  = match find_failure (normalize_email email) rid (delivery_failures s) with
    | Some f =>
        replace_failure (normalize_email email) rid
          (rescheduled f reason
             (if dict_truthy details then details else df_details f) now)
          (delivery_failures s)
    | None =>
        delivery_failures s ++
        [mkFailure (normalize_email email) reason now rid t w 0
           (Some (now + timedelta_minutes 5)) 3 details]
    end.
Proof.
  unfold handle_delivery_failure, rescheduled. cbn [snd]. cbv zeta.
  destruct (find_failure (normalize_email email) rid (delivery_failures s))
    as [f|]; [|reflexivity].
  destruct (retry_count f + 1 <? max_retries f); reflexivity.
Qed.

(** The failure file after [mark_retry_completed]. *)
Lemma mark_retry_completed_failures s email rid success now :
  delivery_failures (snd (mark_retry_completed s email rid success now))
  = match find_failure email rid (delivery_failures s) with
    | Some f =>
        if success then remove_failure email rid (delivery_failures s)
        else replace_failure email rid
               (rescheduled f (failure_reason f) (df_details f) now)
               (delivery_failures s)
    | None => delivery_failures s
    end.
Proof.
  unfold mark_retry_completed, rescheduled. cbv zeta.
  destruct (find_failure email rid (delivery_failures s)) as [f|];
    [|reflexivity].
  destruct success; [reflexivity|].
  rewrite Z.leb_antisym.
  destruct (retry_count f + 1 <? max_retries f); reflexivity.
Qed.

Lemma rescheduled_key f reason details now :
  failure_key (rescheduled f reason details now) = failure_key f.
Proof. reflexivity. Qed.

Lemma ledger_ok_replace s email rid f reason details now l' :
  ledger_ok s ->
  find_failure email rid (delivery_failures s) = Some f ->
  l' = replace_failure email rid (rescheduled f reason details now)
         (delivery_failures s) ->
  NoDup (map failure_key l')
  /\ Forall (fun f => 0 <= retry_count f
                      /\ normalize_email (df_email f) = df_email f) l'.
Proof.
  intros [N F] Hf ->. split.
  - rewrite (@map_key_replace email rid _ _ f Hf
               (rescheduled_key f reason details now)).
    exact N.
  - rewrite Forall_forall in *. intros x Hin.
    apply In_replace_failure in Hin. destruct Hin as [->|Hin]; [|auto].
    apply find_failure_some in Hf. destruct (F f (proj1 Hf)) as [P Q].
    simpl. split; [lia|exact Q].
Qed.

Lemma ledger_ok_run c now s : ledger_ok s -> ledger_ok (run c now s).
Proof.
  intros L. pose proof L as [N F]. destruct c; unfold run, ledger_ok.
  - exact L.
  - rewrite handle_bounce_failures. exact L.
  - rewrite handle_delivery_failure_failures.
    destruct (find_failure (normalize_email email) resend_id (delivery_failures s))
      as [f|] eqn:Hf.
    + eapply ledger_ok_replace; eauto.
    + split.
      * rewrite map_app. simpl. apply NoDup_snoc; [exact N|].
        apply find_failure_none_key. exact Hf.
      * apply Forall_app. split; [exact F|].
        constructor; [|constructor]. simpl.
        split; [lia|apply normalize_email_idempotent].
  - rewrite mark_retry_completed_failures.
    destruct (find_failure email resend_id (delivery_failures s)) as [f|] eqn:Hf;
      [|exact L].
    destruct success.
    + split; [apply NoDup_key_remove; exact N|].
      rewrite Forall_forall in *. intros x Hin.
      apply F. exact (map_key_remove_incl _ _ _ x Hin).
    + eapply ledger_ok_replace; eauto.
  - destruct (cleanup_old_records_cases s days_old now) as [->|(cutoff & ->)];
      [exact L|].
    simpl. split; [apply NoDup_key_filter; exact N|].
    rewrite Forall_forall in *. intros x Hin. apply filter_In in Hin.
    apply F. tauto.
Qed.

Lemma reachable_ledger_ok s : reachable s -> ledger_ok s.
Proof.
  induction 1 as [|s c now R IH].
  - split; simpl; constructor.
  - apply ledger_ok_run. exact IH.
Qed.

End DeliveryFailures.

Section RetryBackoff.

Import BounceHandlingService.




Lemma reachable_found_normalized s email rid f :
  reachable s ->
  find_failure email rid (delivery_failures s) = Some f ->
  normalize_email email = email /\ 0 <= retry_count f.
Proof.
  intros R Hf. destruct (@reachable_ledger_ok s R) as [_ F].
  apply find_failure_some in Hf. destruct Hf as [Hin K].
  rewrite Forall_forall in F. destruct (F f Hin) as [P Q].
  inversion K. subst. auto.
Qed.





End RetryBackoff.

Section RetryExhaustion.

Import BounceHandlingService.








End RetryExhaustion.

(** ** Unsubscribe tokens *)

Section Base64RoundTrip.

Import Base64.

Ltac Zify.zify_post_hook ::= Z.to_euclidean_division_equations.

Lemma nat_of_ascii_bound c : (nat_of_ascii c < 256)%nat.
Proof. destruct c as [[] [] [] [] [] [] [] []]; vm_compute; lia. Qed.

Lemma value_digit n :
  (n < 64)%nat -> value (digit n) = Some n /\ Ascii.eqb (digit n) pad = false.
Proof.
  intros H.
  assert (forallb
            (fun n =>
               match value (digit n) with
               | Some m => Nat.eqb m n
               | None => false
               end && negb (Ascii.eqb (digit n) pad))
            (seq 0 64) = true) as All by (vm_compute; reflexivity).
  rewrite forallb_forall in All. specialize (All n).
  rewrite in_seq in All. specialize (All (conj (Nat.le_0_l n) H)).
  apply andb_true_iff in All. destruct All as [V P].
  destruct (value (digit n)) as [m|]; [|discriminate].
  apply Nat.eqb_eq in V. subst m.
  split; [reflexivity|]. apply negb_true_iff. exact P.
Qed.

Lemma b64decode_block a b c rest :
  b64decode (b64encode (String a (String b (String c rest))))
  = option_map (fun t => String a (String b (String c t)))
      (b64decode (b64encode rest)).
Proof.
  pose proof (nat_of_ascii_bound a) as Ha.
  pose proof (nat_of_ascii_bound b) as Hb.
  pose proof (nat_of_ascii_bound c) as Hc.
  cbn [b64encode b64decode].
  destruct (@value_digit (nat_of_ascii a / 4)) as [-> _]; [lia|].
  destruct (@value_digit (nat_of_ascii a mod 4 * 16 + nat_of_ascii b / 16))
    as [-> _]; [lia|].
  destruct (@value_digit (nat_of_ascii b mod 16 * 4 + nat_of_ascii c / 64))
    as [-> ->]; [lia|].
  destruct (@value_digit (nat_of_ascii c mod 64)) as [-> ->]; [lia|].
  replace (nat_of_ascii a / 4 * 4
           + (nat_of_ascii a mod 4 * 16 + nat_of_ascii b / 16) / 16)%nat
    with (nat_of_ascii a) by lia.
  replace ((nat_of_ascii a mod 4 * 16 + nat_of_ascii b / 16) mod 16 * 16
           + (nat_of_ascii b mod 16 * 4 + nat_of_ascii c / 64) / 4)%nat
    with (nat_of_ascii b) by lia.
  replace ((nat_of_ascii b mod 16 * 4 + nat_of_ascii c / 64) mod 4 * 64
           + nat_of_ascii c mod 64)%nat
    with (nat_of_ascii c) by lia.
  rewrite !ascii_nat_embedding. reflexivity.
Qed.

Lemma b64decode_last_two a b :
  b64decode (b64encode (String a (String b EmptyString)))
  = Some (String a (String b EmptyString)).
Proof.
  pose proof (nat_of_ascii_bound a) as Ha.
  pose proof (nat_of_ascii_bound b) as Hb.
  cbn [b64encode b64decode].
  destruct (@value_digit (nat_of_ascii a / 4)) as [-> _]; [lia|].
  destruct (@value_digit (nat_of_ascii a mod 4 * 16 + nat_of_ascii b / 16))
    as [-> _]; [lia|].
  destruct (@value_digit (nat_of_ascii b mod 16 * 4)) as [-> ->]; [lia|].
  replace (nat_of_ascii a / 4 * 4
           + (nat_of_ascii a mod 4 * 16 + nat_of_ascii b / 16) / 16)%nat
    with (nat_of_ascii a) by lia.
  replace ((nat_of_ascii a mod 4 * 16 + nat_of_ascii b / 16) mod 16 * 16
           + nat_of_ascii b mod 16 * 4 / 4)%nat
    with (nat_of_ascii b) by lia.
  rewrite !ascii_nat_embedding. reflexivity.
Qed.

Lemma b64decode_last_one a :
  b64decode (b64encode (String a EmptyString)) = Some (String a EmptyString).
Proof.
  pose proof (nat_of_ascii_bound a) as Ha.
  cbn [b64encode b64decode].
  destruct (@value_digit (nat_of_ascii a / 4)) as [-> _]; [lia|].
  destruct (@value_digit (nat_of_ascii a mod 4 * 16)) as [-> _]; [lia|].
  replace (nat_of_ascii a / 4 * 4 + nat_of_ascii a mod 4 * 16 / 16)%nat
    with (nat_of_ascii a) by lia.
  rewrite ascii_nat_embedding. reflexivity.
Qed.

(** Decoding undoes encoding. *)
Lemma b64decode_b64encode s : b64decode (b64encode s) = Some s.
Proof.
  assert (forall n s, (String.length s <= n)%nat -> b64decode (b64encode s) = Some s)
    as H.
  { clear s. induction n as [|n IH]; intros s L.
    - destruct s; [reflexivity|simpl in L; lia].
    - destruct s as [|a [|b [|c rest]]].
      + reflexivity.
      + apply b64decode_last_one.
      + apply b64decode_last_two.
      + rewrite b64decode_block, IH; [reflexivity|simpl in L; lia]. }
  apply (H (String.length s)). lia.
Qed.

End Base64RoundTrip.

Section TokenText.

Import EmailComplianceService.

Lemma split_colon_plain s : no_colon s = true -> split_colon s = [s].
Proof.
  induction s as [|c s IH]; simpl; [reflexivity|].
  intros H. apply andb_true_iff in H. destruct H as [C N].
  apply negb_true_iff in C. rewrite C, (IH N). reflexivity.
Qed.

Lemma split_colon_field a rest :
  no_colon a = true ->
  split_colon (String.append a (String ":" rest)) = a :: split_colon rest.
Proof.
  induction a as [|c a IH]; simpl; [reflexivity|].
  intros H. apply andb_true_iff in H. destruct H as [C N].
  apply negb_true_iff in C. rewrite C, (IH N). reflexivity.
Qed.

Lemma split_colon_length s : (1 <= List.length (split_colon s))%nat.
Proof.
  induction s as [|c s IH]; simpl; [lia|].
  destruct (Ascii.eqb c ":"); simpl; [lia|].
  destruct (split_colon s); simpl in *; lia.
Qed.

(** A text with a [":"] splits into two parts at least. *)
Lemma split_colon_more a rest :
  (List.length (split_colon (String.append a (String ":" rest)))
   = List.length (split_colon a) + List.length (split_colon rest))%nat.
Proof.
  induction a as [|c a IH]; simpl; [reflexivity|].
  destruct (Ascii.eqb c ":"); simpl; [rewrite IH; reflexivity|].
  pose proof (split_colon_length a) as La. revert IH La.
  destruct (split_colon (String.append a (String ":" rest))) as [|p ps];
    destruct (split_colon a) as [|q qs]; simpl; intros IH La; lia.
Qed.

Lemma split_colon_some s :
  no_colon s = false -> (2 <= List.length (split_colon s))%nat.
Proof.
  induction s as [|c s IH]; simpl; [discriminate|].
  destruct (Ascii.eqb c ":"); simpl.
  - intros _. pose proof (split_colon_length s). lia.
  - intros H. specialize (IH H).
    destruct (split_colon s); simpl in *; lia.
Qed.

Lemma no_colon_uint d : no_colon (NilEmpty.string_of_uint d) = true.
Proof. induction d; simpl; auto. Qed.

Lemma no_colon_str_int n : no_colon (str_int n) = true.
Proof.
  unfold str_int. destruct (Z.to_int n) as [d|d]; simpl.
  - destruct d; try reflexivity; apply (no_colon_uint (_ d)).
  - destruct d; try reflexivity; apply (no_colon_uint (_ d)).
Qed.

Lemma no_colon_substring s : 
  no_colon s = true -> forall n m, no_colon (substring n m s) = true.
Proof.
  induction s as [|c s IH]; intros H n m.
  - destruct n, m; reflexivity.
  - simpl in H. apply andb_true_iff in H. destruct H as [C N].
    destruct n, m; simpl; auto. rewrite C. simpl. auto.
Qed.

Lemma no_colon_hex digest : no_colon (hex_of_bytes digest) = true.
Proof.
  induction digest as [|c r IH]; simpl; [reflexivity|].
  rewrite IH.
  destruct c as [[] [] [] [] [] [] [] []]; reflexivity.
Qed.

(** *** Reading a decimal integer as a float *)

Lemma digits_only_uint d : digits_only (NilEmpty.string_of_uint d) = true.
Proof. induction d; simpl; auto. Qed.

(** What being a digit excludes. *)
Lemma digit_is_plain c :
  is_digit c = true ->
  is_c_space c = false /\ Ascii.eqb c "_" = false
  /\ (forall rest, split_sign (String c rest) = (false, String c rest))
  /\ (forall rest word,
        String.eqb (lower (String c rest)) (String "i" word) = false
        /\ String.eqb (lower (String c rest)) (String "n" word) = false).
Proof.
  destruct c as [[] [] [] [] [] [] [] []]; intros H; try discriminate H;
    repeat split; reflexivity.
Qed.

Lemma drop_underscores_digits text :
  digits_only text = true ->
  forall prev,
    Ascii.eqb prev "_" = false -> drop_underscores prev text = Some text.
Proof.
  induction text as [|c rest IH]; simpl; intros D prev P.
  - rewrite P. reflexivity.
  - apply andb_true_iff in D. destruct D as [Dc Dr].
    destruct (digit_is_plain c Dc) as (_ & U & _).
    rewrite U, P. simpl. rewrite (IH Dr c U). reflexivity.
Qed.

Lemma drop_trailing_spaces_digits text :
  digits_only text = true -> drop_trailing_spaces text = text.
Proof.
  induction text as [|c rest IH]; simpl; intros D; [reflexivity|].
  apply andb_true_iff in D. destruct D as [Dc Dr].
  destruct (digit_is_plain c Dc) as (Sp & _).
  rewrite Sp, (IH Dr). reflexivity.
Qed.

Lemma take_digits_all text :
  digits_only text = true -> take_digits text = (text, EmptyString).
Proof.
  induction text as [|c rest IH]; simpl; intros D; [reflexivity|].
  apply andb_true_iff in D. destruct D as [Dc Dr].
  rewrite Dc, (IH Dr). reflexivity.
Qed.

Lemma append_empty text : String.append text EmptyString = text.
Proof. induction text as [|c rest IH]; simpl; [|rewrite IH]; reflexivity. Qed.

Lemma float_literal_digits c rest :
  digits_only (String c rest) = true ->
  float_literal (String c rest) = Some (digits_value (String c rest), 0).
Proof.
  intros D. unfold float_literal. rewrite (take_digits_all _ D).
  cbn [is_empty andb]. rewrite append_empty. reflexivity.
Qed.

(** A run of digits, with or without a minus before it, is read as the
    integer it writes. *)
Lemma float_of_str_digits (negative : bool) c rest :
  digits_only (String c rest) = true ->
  float_of_str (if negative then String "-" (String c rest) else String c rest)
  = Some (Finite ((if negative then - digits_value (String c rest)
                   else digits_value (String c rest)) * 1000000)).
Proof.
  intros D. pose proof D as D'. simpl in D'. apply andb_true_iff in D'.
  destruct D' as [Dc Dr].
  destruct (digit_is_plain c Dc) as (Sp & U & Sign & Word).
  assert (drop_trailing_spaces (String c rest) = String c rest) as T
    by (apply drop_trailing_spaces_digits; exact D).
  unfold float_of_str. destruct negative.
  - change (drop_underscores zero (String "-" (String c rest)))
      with (option_map (String "-") (drop_underscores "-" (String c rest))).
    rewrite (drop_underscores_digits _ D "-"%char eq_refl). cbn [option_map].
    change (skip_spaces (String "-" (String c rest)))
      with (String "-" (String c rest)).
    change (drop_trailing_spaces (String "-" (String c rest)))
      with (if (false && is_empty (drop_trailing_spaces (String c rest)))%bool
            then EmptyString
            else String "-" (drop_trailing_spaces (String c rest))).
    rewrite T. cbn [andb split_sign].
    rewrite (proj1 (Word rest "nf")), (proj1 (Word rest "nfinity")),
      (proj2 (Word rest "an")).
    cbn [orb]. rewrite (float_literal_digits _ _ D). reflexivity.
  - rewrite (drop_underscores_digits _ D zero eq_refl).
    change (skip_spaces (String c rest))
      with (if is_c_space c then skip_spaces rest else String c rest).
    rewrite Sp, T, Sign.
    rewrite (proj1 (Word rest "nf")), (proj1 (Word rest "nfinity")),
      (proj2 (Word rest "an")).
    cbn [orb]. rewrite (float_literal_digits _ _ D). reflexivity.
Qed.

Lemma float_of_str_str_int n :
  float_of_str (str_int n) = Some (Finite (n * 1000000)).
Proof.
  unfold str_int. rewrite <- (of_to n) at 2.
  (* the digits of [n], where no digit at all is written ["0"] *)
  assert (forall d,
            exists c rest,
              NilZero.string_of_uint d = String c rest
              /\ digits_only (String c rest) = true
              /\ digits_value (String c rest) = Z.of_uint d) as Digits.
  { intros d.
    assert (forall d', d' <> Decimal.Nil ->
              exists c rest,
                NilEmpty.string_of_uint d' = String c rest
                /\ digits_only (String c rest) = true
                /\ digits_value (String c rest) = Z.of_uint d') as Written.
    { intros d' Ne.
      pose proof (digits_only_uint d') as Dd.
      pose proof (NilEmpty.usu d') as Us.
      destruct (NilEmpty.string_of_uint d') as [|c rest] eqn:E.
      - destruct d'; try discriminate E. congruence.
      - exists c, rest. split; [reflexivity|]. split; [exact Dd|].
        unfold digits_value. rewrite Us. reflexivity. }
    destruct d; try (apply Written; discriminate).
    exists "0"%char, EmptyString. repeat split. }
  destruct (Z.to_int n) as [d|d]; destruct (Digits d) as (c & rest & E & D & V).
  - change (NilZero.string_of_int (Decimal.Pos d)) with (NilZero.string_of_uint d).
    rewrite E, (float_of_str_digits false _ _ D), V. reflexivity.
  - change (NilZero.string_of_int (Decimal.Neg d))
      with (String "-" (NilZero.string_of_uint d)).
    rewrite E, (float_of_str_digits true _ _ D), V. reflexivity.
Qed.

End TokenText.

Section UnsubscribeToken.

Import EmailComplianceService.

Variable getenv : string -> option string.
Variable sha256 : string -> string.
Variable b64encode : string -> string.
Variable b64decode : string -> option string.

(** What the token methods need of the codec. *)
Hypothesis codec_round_trip : forall s, b64decode (b64encode s) = Some s.

Lemma no_colon_token_digest email timestamp :
  no_colon (token_digest getenv sha256 email timestamp) = true.
Proof. unfold token_digest. apply no_colon_substring, no_colon_hex. Qed.

(** Verification of a genuine token comes down to the age test. *)
Lemma verify_genuine email now now' :
  no_colon email = true ->
  verify_unsubscribe_token getenv sha256 b64decode
    (unsubscribe_token getenv sha256 b64encode email now) now'
  = if thirty_days <? now' - timestamp_int now * 1000000 then None
    else Some (email, str_int (timestamp_int now)).
Proof.
  intros N. unfold verify_unsubscribe_token, unsubscribe_token.
  rewrite codec_round_trip.
  change (String.append ":" ?x) with (String ":" x).
  rewrite split_colon_field by exact N.
  change (String.append ":" ?x) with (String ":" x).
  rewrite split_colon_field by apply no_colon_str_int.
  rewrite split_colon_plain by apply no_colon_token_digest.
  rewrite String.eqb_refl. simpl negb. cbv iota.
  rewrite float_of_str_str_int. reflexivity.
Qed.

(** The token of an address with a [":"] is refused whenever it is
    presented. *)
Lemma verify_colon_address email now now' :
  no_colon email = false ->
  verify_unsubscribe_token getenv sha256 b64decode
    (unsubscribe_token getenv sha256 b64encode email now) now'
  = None.
Proof.
  intros N. unfold verify_unsubscribe_token, unsubscribe_token.
  rewrite codec_round_trip.
  set (timestamp := str_int (timestamp_int now)).
  set (digest := token_digest getenv sha256 email timestamp).
  assert (4 <= List.length
                 (split_colon
                    (String.append email
                       (String ":" (String.append timestamp (String ":" digest))))))%nat
    as L.
  { rewrite !split_colon_more.
    pose proof (split_colon_some email N).
    pose proof (split_colon_length timestamp).
    pose proof (split_colon_length digest). lia. }
  change (String.append ":" (String.append timestamp (String.append ":" digest)))
    with (String ":" (String.append timestamp (String ":" digest))).
  destruct (split_colon _) as [|p1 [|p2 [|p3 [|p4 l]]]]; try reflexivity.
  simpl in L. lia.
Qed.

(** C9, as the code has it.  For an address without [":"], the token of
    [generate_unsubscribe_link] verifies to the record of that address as
    long as the clock is at most 30 days past the issue time the token
    carries (the issue time cut to whole seconds), which is so whenever
    less than 30 days minus one second have passed since issue; past 30
    days from that time it verifies to null; and any token whose third
    part is not the digest recomputed from its first two verifies to
    null. *)
Theorem unsubscribe_token_round_trip :
  forall email now now',
    no_colon email = true ->
    let token := unsubscribe_token getenv sha256 b64encode email now in
    let verify := verify_unsubscribe_token getenv sha256 b64decode in
    let issued := timestamp_int now * 1000000 in
    generate_unsubscribe_link getenv sha256 b64encode email None None now
    = String.append
        match getenv "FRONTEND_URL" with
        | Some v => v
        | None => "http://localhost:3000"
        end
        (String.append "/unsubscribe?" (String.append "token=" token))
    /\ (now' - issued <= thirty_days ->
        verify token now' = Some (email, str_int (timestamp_int now)))
    /\ (0 <= now -> now' - now <= thirty_days - 1000000 ->
        verify token now' = Some (email, str_int (timestamp_int now)))
    /\ (thirty_days < now' - issued -> verify token now' = None)
    /\ (forall forged decoded e timestamp token_hash,
          b64decode forged = Some decoded ->
          split_colon decoded = [e; timestamp; token_hash] ->
          token_hash <> token_digest getenv sha256 e timestamp ->
          verify forged now' = None).
Proof.
  intros email now now' N token verify issued.
  split; [reflexivity|].
  assert (verify token now'
          = if thirty_days <? now' - issued then None
            else Some (email, str_int (timestamp_int now))) as V
    by (apply verify_genuine; exact N).
  split; [|split; [|split]].
  - intros Le. rewrite V.
    replace (thirty_days <? now' - issued) with false
      by (symmetry; apply Z.ltb_ge; exact Le).
    reflexivity.
  - intros Pos Le. rewrite V.
    replace (thirty_days <? now' - issued) with false; [reflexivity|].
    symmetry. apply Z.ltb_ge. unfold issued, timestamp_int.
    pose proof (Z.quot_rem' now 1000000) as Q.
    pose proof (Z.rem_bound_pos now 1000000 Pos) as B.
    lia.
  - intros Lt. rewrite V.
    replace (thirty_days <? now' - issued) with true
      by (symmetry; apply Z.ltb_lt; exact Lt).
    reflexivity.
  - intros forged decoded e timestamp token_hash D S Ne.
    unfold verify, verify_unsubscribe_token. rewrite D, S.
    apply String.eqb_neq in Ne. rewrite Ne. reflexivity.
Qed.

End UnsubscribeToken.

Section UnsubscribeTokenSamples.

Import EmailComplianceService.

Let token := unsubscribe_token (fun _ => None) Sha256.sha256 Base64.b64encode.
Let verify :=
  verify_unsubscribe_token (fun _ => None) Sha256.sha256 Base64.b64decode.

Lemma unsubscribe_token_round_trip_witness :
  verify (token "a@b.com" 900000) 86400000000 = Some ("a@b.com", "0").
Proof.
  refine (proj1 (proj2
            (@unsubscribe_token_round_trip (fun _ => None) Sha256.sha256
               Base64.b64encode Base64.b64decode b64decode_b64encode
               "a@b.com" 900000 86400000000 eq_refl)) _).
  vm_compute. discriminate.
Defined.

(** C9 as stated fails in two ways.  The token of an address that
    contains [":"] splits into more than three parts and is refused right
    after it was issued.  And the age is counted from the issue time cut
    to whole seconds: a token issued at 0.9 s and presented 0.4 s short
    of 30 days later is refused. *)
Lemma unsubscribe_token_counterexample :
  verify (token "a:b@c.com" 0) 0 = None
  /\ (2592000500000 - 900000 < thirty_days
      /\ verify (token "a@b.com" 900000) 2592000500000 = None).
Proof.
  split; [vm_compute; reflexivity|].
  split; [vm_compute; reflexivity|vm_compute; reflexivity].
Qed.

End UnsubscribeTokenSamples.

(** * Further properties of the workflow service *)

Section WorkflowLookups.

Import WorkflowService WorkflowQueries.

Lemma update_first_absent wid d now ws :
  find (fun w => String.eqb (wf_id w) wid) ws = None ->
  update_first wid d now ws = None.
Proof.
  induction ws as [|w ws IH]; simpl; [reflexivity|].
  destruct (String.eqb (wf_id w) wid); [discriminate|].
  intros H. rewrite (IH H). reflexivity.
Qed.

Lemma filter_keeps_all {A : Type} (p : A -> bool) l :
  find p l = None -> filter (fun a => negb (p a)) l = l.
Proof.
  induction l as [|a l IH]; simpl; [reflexivity|].
  destruct (p a); simpl; [discriminate|].
  intros H. rewrite (IH H). reflexivity.
Qed.

(** X1.  Every call that names a workflow id no stored workflow has reports
    the failure ([None] or [False]) and leaves both files as they are; so
    does reporting a step outcome for an execution id that is not on
    file. *)
Theorem unknown_id_changes_nothing :
  forall s wid,
    get_workflow s wid = None ->
    (forall d now, update_workflow s wid d now = (None, s))
    /\ (forall now, pause_workflow s wid now = (None, s))
    /\ (forall now, activate_workflow s wid now = (None, s))
    /\ delete_workflow s wid = (false, s)
    /\ (forall lid now, trigger_workflow s wid lid now = (false, s))
    /\ (forall eid success now,
          find (fun e => String.eqb (ex_id e) eid) (executions s) = None ->
          complete_execution_step s eid success now = (false, s)).
Proof.
  intros s wid G.
  assert (forall d now, update_workflow s wid d now = (None, s)) as U.
  { intros d now. unfold update_workflow.
    rewrite (update_first_absent _ d now _ G). reflexivity. }
  split; [exact U|]. split; [intros now; apply U|]. split; [intros now; apply U|].
  split.
  { unfold delete_workflow. unfold get_workflow in G.
    rewrite (filter_keeps_all _ _ G), Nat.ltb_irrefl. reflexivity. }
  split.
  { intros lid now. unfold trigger_workflow. rewrite G. reflexivity. }
  intros eid success now F. unfold complete_execution_step. rewrite F.
  reflexivity.
Qed.

Lemma unknown_id_changes_nothing_witness :
  delete_workflow Samples.welcome_created "workflow_9_0"
  = (false, Samples.welcome_created)
  /\ trigger_workflow Samples.welcome_created "workflow_9_0" "lead_7" 10
     = (false, Samples.welcome_created).
Proof.
  pose proof (@unknown_id_changes_nothing Samples.welcome_created "workflow_9_0"
                eq_refl) as (_ & _ & _ & D & T & _).
  split; [exact D|exact (T "lead_7" 10)].
Defined.

Lemma build_steps_nth with_id wid data : forall i k step,
  nth_error (build_steps with_id wid i data) k = Some step ->
  order step = i + Z.of_nat k + 1.
Proof.
  induction data as [|d data IH]; intros i k step H.
  - destruct k; discriminate.
  - destruct k as [|k]; simpl in H.
    + inversion H; subst. simpl. lia.
    + rewrite (IH _ _ _ H). lia.
Qed.

Lemma build_steps_length with_id wid i data :
  List.length (build_steps with_id wid i data) = List.length data.
Proof.
  revert i. induction data as [|d data IH]; intros i; simpl; [reflexivity|].
  rewrite IH. reflexivity.
Qed.

(** X2.  The steps of a workflow that [create_workflow] builds, and the
    steps [update_workflow] puts in place of the old ones when the data has
    a ["steps"] key, are as many as the step dicts given, and the [order] of
    each is its position counted from 1, whatever the dicts say. *)
Theorem steps_are_numbered_by_position :
  forall s d now step_data,
    d_steps d = Some step_data ->
    (let w := fst (create_workflow s d now) in
     List.length (steps w) = List.length step_data
     /\ forall k step, nth_error (steps w) k = Some step ->
                       order step = Z.of_nat k + 1)
    /\ (forall wid w,
          fst (update_workflow s wid d now) = Some w ->
          List.length (steps w) = List.length step_data
          /\ forall k step, nth_error (steps w) k = Some step ->
                            order step = Z.of_nat k + 1).
Proof.
  intros s d now step_data D. split.
  - simpl. rewrite D. simpl. split; [apply build_steps_length|].
    intros k step H. rewrite (build_steps_nth _ _ _ _ _ H). lia.
  - intros wid w U. unfold update_workflow in U.
    destruct (update_first wid d now (workflows s)) as [[w' ws']|] eqn:E;
      [|discriminate].
    simpl in U. inversion U; subst w'. clear U.
    assert (exists w0, w = apply_update w0 wid d now) as [w0 ->].
    { clear D. revert w ws' E.
      induction (workflows s) as [|x l IH]; intros w ws' E; simpl in E;
        [discriminate|].
      destruct (String.eqb (wf_id x) wid).
      - inversion E. eauto.
      - destruct (update_first wid d now l) as [[w1 l1]|]; [|discriminate].
        inversion E; subst. eapply IH. reflexivity. }
    simpl. rewrite D. split; [apply build_steps_length|].
    intros k step H. rewrite (build_steps_nth _ _ _ _ _ H). lia.
Qed.

Lemma steps_are_numbered_by_position_witness :
  List.length (steps (fst (create_workflow initial Samples.welcome 0))) = 1%nat.
Proof.
  exact (proj1 (proj1 (@steps_are_numbered_by_position initial Samples.welcome 0
                         [Samples.welcome_step] eq_refl))).
Defined.

(** X3.  After [create_workflow], a lookup by id gives what it gave before
    for every id that was on file, and the new workflow for its own id when
    that id was free; a stored workflow that already has the generated id
    keeps shadowing the new one. *)
Theorem create_workflow_lookup :
  forall s d now id,
    let created := create_workflow s d now in
    get_workflow (snd created) id =
    match get_workflow s id with
    | Some w => Some w
    | None => if String.eqb (wf_id (fst created)) id then Some (fst created)
              else None
    end.
Proof.
  intros s d now id created. unfold get_workflow.
  change (workflows (snd created)) with (workflows s ++ [fst created]).
  generalize (fst created). intros w0.
  induction (workflows s) as [|w ws IH]; simpl.
  - destruct (String.eqb (wf_id w0) id); reflexivity.
  - destruct (String.eqb (wf_id w) id); [reflexivity|exact IH].
Qed.

(** X4.  Deleting a workflow that is on file returns true, removes every
    workflow with that id and every execution of it, and leaves the lookups
    of other ids and the executions of other workflows as they were. *)
Theorem delete_workflow_cascades :
  forall s wid w,
    get_workflow s wid = Some w ->
    let r := delete_workflow s wid in
    fst r = true
    /\ get_workflow (snd r) wid = None
    /\ (forall id, id <> wid -> get_workflow (snd r) id = get_workflow s id)
    /\ executions (snd r)
       = filter (fun e => negb (String.eqb (workflow_id e) wid)) (executions s)
    /\ (forall e, In e (executions (snd r)) -> workflow_id e <> wid)
    /\ (forall e, In e (executions s) -> workflow_id e <> wid ->
                  In e (executions (snd r))).
Proof.
  intros s wid w G r.
  assert ((List.length
             (filter (fun x => negb (String.eqb (wf_id x) wid)) (workflows s))
           <? List.length (workflows s))%nat = true) as Shorter.
  { unfold get_workflow in G. apply Nat.ltb_lt.
    induction (workflows s) as [|x l IH]; simpl in *; [discriminate|].
    destruct (String.eqb (wf_id x) wid); simpl.
    - pose proof (filter_length_le
                    (fun x => negb (String.eqb (wf_id x) wid)) l). lia.
    - specialize (IH G). lia. }
  unfold r, delete_workflow. rewrite Shorter. simpl. clear Shorter G r.
  split; [reflexivity|]. split.
  { unfold get_workflow. simpl.
    induction (workflows s) as [|x l IH]; simpl; [reflexivity|].
    destruct (String.eqb (wf_id x) wid) eqn:E; simpl; [exact IH|].
    rewrite E. exact IH. }
  split.
  { intros id Ne. unfold get_workflow. simpl.
    induction (workflows s) as [|x l IH]; simpl; [reflexivity|].
    destruct (String.eqb (wf_id x) wid) eqn:E; simpl.
    - apply String.eqb_eq in E.
      destruct (String.eqb (wf_id x) id) eqn:E2; [|exact IH].
      apply String.eqb_eq in E2. congruence.
    - destruct (String.eqb (wf_id x) id); [reflexivity|exact IH]. }
  split; [reflexivity|]. split.
  - intros e Hin. apply filter_In in Hin. destruct Hin as [_ N].
    apply negb_true_iff, String.eqb_neq in N. exact N.
  - intros e Hin Ne. apply filter_In. split; [exact Hin|].
    apply negb_true_iff, String.eqb_neq. exact Ne.
Qed.

Lemma delete_workflow_cascades_witness :
  executions (snd (delete_workflow Samples.welcome_triggered Samples.welcome_id))
  = [].
Proof.
  destruct (@delete_workflow_cascades Samples.welcome_triggered Samples.welcome_id
              _ eq_refl) as (_ & _ & _ & E & _).
  rewrite E. reflexivity.
Defined.

End WorkflowLookups.

Section WorkflowSchedule.

Import WorkflowService WorkflowQueries.

(** X5.  Activating a paused workflow undoes the pause for triggers: after
    [pause_workflow] and then [activate_workflow] the workflow is stored
    with status ["active"] and its old steps, the executions file is
    untouched, and [trigger_workflow] succeeds again in exactly the cases
    in which a trigger of an active workflow does: for every lead that has
    an active execution of the workflow already, and for every other lead
    whenever the due time of the first step is a [datetime]. *)
Theorem activate_after_pause :
  forall s wid w t1 t2,
    get_workflow s wid = Some w ->
    let s2 := snd (activate_workflow (snd (pause_workflow s wid t1)) wid t2) in
    (exists w2,
       get_workflow s2 wid = Some w2
       /\ wf_status w2 = "active" /\ steps w2 = steps w /\ name w2 = name w)
    /\ executions s2 = executions s
    /\ (forall lid t,
          fst (trigger_workflow s2 wid lid t) = true
          <-> (exists e, In e (executions s) /\ is_active_for wid lid e = true)
              \/ (exists due, first_due w t = Some due)).
Proof.
  intros s wid w t1 t2 G s2.
  assert (get_workflow s2 wid
          = Some (apply_update (apply_update w wid (status_only "paused") t1)
                    wid (status_only "active") t2)) as G2.
  { unfold s2, activate_workflow, pause_workflow.
    rewrite !get_workflow_update, String.eqb_refl, G. reflexivity. }
  assert (executions s2 = executions s) as E2.
  { unfold s2, activate_workflow, pause_workflow.
    rewrite !executions_update_workflow. reflexivity. }
  split; [eexists; split; [exact G2|]; repeat split|].
  split; [exact E2|].
  intros lid t.
  pose proof (proj1 (@trigger_workflow_succeeds s2 wid lid t _ G2 eq_refl)) as T.
  rewrite E2 in T. exact T.
Qed.

Lemma activate_after_pause_witness :
  fst (trigger_workflow
         (snd (activate_workflow
                 (snd (pause_workflow Samples.welcome_created Samples.welcome_id 5))
                 Samples.welcome_id 6))
         Samples.welcome_id "lead_7" 7) = true.
Proof.
  destruct (@activate_after_pause Samples.welcome_created Samples.welcome_id _ 5 6
              eq_refl) as (_ & _ & T).
  apply (T "lead_7" 7). right. exists 7. reflexivity.
Defined.

Lemma trigger_workflow_appends s wid lid now w due :
  get_workflow s wid = Some w ->
  wf_status w = "active" ->
  find (is_active_for wid lid) (executions s) = None ->
  first_due w now = Some due ->
  fst (trigger_workflow s wid lid now) = true
  /\ executions (snd (trigger_workflow s wid lid now))
     = executions s
       ++ [mkExecution (new_execution_id wid lid now) wid lid "active" 0
             (Some due) now None None].
Proof.
  intros G A F D. unfold trigger_workflow. unfold first_due in D.
  rewrite G, A, F, D.
  change (negb (String.eqb "active" "active")) with false. cbv iota.
  cbn [fst snd]. rewrite executions_update_workflow. split; reflexivity.
Qed.

Lemma datetime_add_not_before t delta t' :
  0 <= delta -> datetime_add t delta = Some t' -> t <= t'.
Proof.
  unfold datetime_add. intros P H.
  destruct (timedelta_ok delta && datetime_ok (t + delta)); [|discriminate].
  injection H as <-. lia.
Qed.

Lemma add_delay_not_before step t t' : add_delay step t = Some t' -> t <= t'.
Proof.
  unfold add_delay, timedelta_days, timedelta_hours. intros H.
  destruct (0 <? delay_days step) eqn:D.
  - destruct (datetime_add t (delay_days step * 86400000000)) as [t1|] eqn:A1;
      [|discriminate].
    apply Z.ltb_lt in D. apply datetime_add_not_before in A1; [|lia].
    destruct (0 <? delay_hours step) eqn:Hh.
    + apply Z.ltb_lt in Hh. apply datetime_add_not_before in H; lia.
    + injection H as <-. exact A1.
  - destruct (0 <? delay_hours step) eqn:Hh.
    + apply Z.ltb_lt in Hh. apply datetime_add_not_before in H; lia.
    + injection H as <-. lia.
Qed.

(** X6.  A trigger of an active workflow for a pair without an active
    execution creates one when the due time of the first step is a
    [datetime]: it appends exactly one execution, active at step 0, and
    puts it into the scheduler queue from that due time on, which is never
    before the trigger.  When the due time is past the range of [datetime]
    the trigger returns false and files nothing.  The due time is the time
    of the trigger when the workflow has no step or no step has a positive
    delay. *)
Theorem trigger_workflow_schedules :
  forall s wid lid now w,
    get_workflow s wid = Some w ->
    wf_status w = "active" ->
    find (is_active_for wid lid) (executions s) = None ->
    let r := trigger_workflow s wid lid now in
    (forall due,
       first_due w now = Some due ->
       let e := mkExecution (new_execution_id wid lid now) wid lid "active" 0
                  (Some due) now None None in
       fst r = true
       /\ executions (snd r) = executions s ++ [e]
       /\ now <= due
       /\ (forall t, get_pending_executions (snd r) t
                     = get_pending_executions s t
                       ++ (if due <=? t then [e] else [])))
    /\ (first_due w now = None -> r = (false, s))
    /\ ((forall step, In step (steps w) ->
                      delay_days step <= 0 /\ delay_hours step <= 0) ->
        first_due w now = Some now).
Proof.
  intros s wid lid now w G A F r.
  split; [|split].
  - intros due D e.
    destruct (@trigger_workflow_appends s wid lid now w due G A F D) as [T E].
    fold r in T, E. fold e in E.
    split; [exact T|]. split; [exact E|]. split.
    { unfold first_due in D. destruct (steps w) as [|step0 rest].
      - injection D as <-. lia.
      - exact (add_delay_not_before _ _ D). }
    intros t. unfold get_pending_executions. rewrite E, filter_app. reflexivity.
  - intros D. unfold r, trigger_workflow. unfold first_due in D.
    rewrite G, A, F, D. reflexivity.
  - intros Z0. unfold first_due.
    destruct (steps w) as [|step0 rest]; [reflexivity|].
    destruct (Z0 step0 (or_introl eq_refl)) as [D H].
    unfold add_delay.
    replace (0 <? delay_days step0) with false by (symmetry; apply Z.ltb_ge; lia).
    replace (0 <? delay_hours step0) with false by (symmetry; apply Z.ltb_ge; lia).
    reflexivity.
Qed.

Lemma trigger_workflow_schedules_witness :
  get_pending_executions Samples.welcome_triggered 1000000
  = get_pending_executions Samples.welcome_created 1000000
    ++ [mkExecution "exec_workflow_1_0_lead_7_1" "workflow_1_0" "lead_7" "active" 0
          (Some 1000000) 1000000 None None].
Proof.
  destruct (@trigger_workflow_schedules Samples.welcome_created Samples.welcome_id
              "lead_7" 1000000 _ eq_refl eq_refl eq_refl) as (P & _ & _).
  destruct (P 1000000 eq_refl) as (_ & _ & _ & Q).
  exact (Q 1000000).
Defined.

End WorkflowSchedule.

Section WorkflowLifecycle.

Import WorkflowService WorkflowQueries.

Lemma find_replace_first eid e e' es :
  find (fun x => String.eqb (ex_id x) eid) es = Some e ->
  ex_id e' = eid ->
  find (fun x => String.eqb (ex_id x) eid) (replace_first eid e' es) = Some e'.
Proof.
  intros F E. induction es as [|x es IH]; simpl in *; [discriminate|].
  destruct (String.eqb (ex_id x) eid) eqn:X; simpl.
  - rewrite E, String.eqb_refl. reflexivity.
  - rewrite X. auto.
Qed.

Lemma find_added_execution eid e es :
  find (fun x => String.eqb (ex_id x) eid) es = None ->
  ex_id e = eid ->
  find (fun x => String.eqb (ex_id x) eid) (es ++ [e]) = Some e.
Proof.
  intros F E. induction es as [|x es IH]; simpl in *.
  - rewrite E, String.eqb_refl. reflexivity.
  - destruct (String.eqb (ex_id x) eid); [discriminate|auto].
Qed.

(** An execution of the pair, designated by [eid], that is active at step
    [k] of a stored workflow with the steps [the_steps]. *)
Let in_progress (the_steps : list WorkflowStep) (wid lid eid : string)
    (s : state) (k : nat) : Prop :=
  (exists w, get_workflow s wid = Some w /\ steps w = the_steps)
  /\ exists e,
       find (fun x => String.eqb (ex_id x) eid) (executions s) = Some e
       /\ workflow_id e = wid /\ lead_id e = lid
       /\ current_step e = Z.of_nat k /\ status e = "active".

Lemma py_index_In {A : Type} (l : list A) i a :
  py_index l i = Some a -> In a l.
Proof.
  unfold py_index. intros H.
  destruct ((0 <=? i) && (i <? Z.of_nat (List.length l)));
    [exact (nth_error_In _ _ H)|].
  destruct ((i <? 0) && (- Z.of_nat (List.length l) <=? i));
    [exact (nth_error_In _ _ H)|discriminate].
Qed.

Lemma successes_progress the_steps wid lid eid times :
  (forall t step, In t times -> In step the_steps -> add_delay step t <> None) ->
  forall s k,
    in_progress the_steps wid lid eid s k ->
    (k < List.length the_steps)%nat ->
    (k + List.length times <= List.length the_steps)%nat ->
    exists e,
      find (fun x => String.eqb (ex_id x) eid)
           (executions (successes eid times s)) = Some e
      /\ workflow_id e = wid /\ lead_id e = lid
      /\ current_step e = Z.of_nat (k + List.length times)
      /\ status e =
         if (k + List.length times =? List.length the_steps)%nat
         then "completed" else "active".
Proof.
  intros Due. induction times as [|t times IH]; intros s k P Lt Le.
  - destruct P as [_ (e & F & W & L & C & A)]. exists e. simpl.
    rewrite Nat.add_0_r.
    replace (k =? List.length the_steps)%nat with false
      by (symmetry; apply Nat.eqb_neq; lia).
    auto.
  - destruct P as [(w & G & Sw) (e & F & W & L & C & A)].
    change (successes eid (t :: times) s)
      with (successes eid times (snd (complete_execution_step s eid true t))).
    assert (complete_execution_step s eid true t
            = match advance w e true t with
              | Some e' =>
                  (true, with_executions s (replace_first eid e' (executions s)))
              | None => (false, s)
              end) as Step.
    { unfold complete_execution_step. rewrite F, W, G. reflexivity. }
    rewrite Step. unfold advance. rewrite Sw, C.
    destruct (Z.of_nat (List.length the_steps) <=? Z.of_nat k + 1) eqn:Last.
    + apply Z.leb_le in Last.
      assert (times = []) as -> by (destruct times; [reflexivity|simpl in Le; lia]).
      simpl. eexists. split.
      * apply find_replace_first with (e := e); [exact F|].
        simpl. apply find_some in F. destruct F as [_ F].
        apply String.eqb_eq in F. exact F.
      * simpl.
        replace (k + 1 =? List.length the_steps)%nat with true
          by (symmetry; apply Nat.eqb_eq; lia).
        repeat split; try assumption. lia.
    + apply Z.leb_gt in Last.
      destruct (@py_index_in_range _ the_steps (Z.of_nat k + 1)) as [next Hn];
        [lia|].
      rewrite Hn.
      destruct (add_delay next t) as [due|] eqn:D;
        [|destruct (Due t next (or_introl eq_refl) (py_index_In _ _ Hn) D)].
      cbn [snd].
      replace (k + List.length (t :: times))%nat
        with (S k + List.length times)%nat by (simpl; lia).
      apply IH; [intros t0 step0 Ht0; apply Due; right; exact Ht0| |lia
                |simpl in Le; lia].
      split.
      * exists w. split; [exact G|exact Sw].
      * eexists. split.
        -- simpl. apply find_replace_first with (e := e); [exact F|].
           simpl. apply find_some in F. destruct F as [_ F].
           apply String.eqb_eq in F. exact F.
        -- simpl. repeat split; try assumption. lia.
Qed.

(** X7.  The life of an execution: a workflow with at least one step is
    triggered for a lead that has no active execution of it, the new
    execution id not being on file yet, and every due time computed on the
    way is a [datetime] (the first step's at the trigger, and a step's at
    each report); after [m] successes reported for that id, [m] at most
    the number of steps, the execution stands at [current_step = m], still
    active while steps remain and completed exactly when all of them were
    reported. *)
Theorem successes_complete_the_workflow :
  forall s wid lid now w times,
    get_workflow s wid = Some w ->
    wf_status w = "active" ->
    steps w <> [] ->
    find (is_active_for wid lid) (executions s) = None ->
    first_due w now <> None ->
    (forall t step, In t times -> In step (steps w) -> add_delay step t <> None) ->
    let eid := new_execution_id wid lid now in
    find (fun x => String.eqb (ex_id x) eid) (executions s) = None ->
    (List.length times <= List.length (steps w))%nat ->
    let s' := successes eid times (snd (trigger_workflow s wid lid now)) in
    exists e,
      find (fun x => String.eqb (ex_id x) eid) (executions s') = Some e
      /\ workflow_id e = wid /\ lead_id e = lid
      /\ current_step e = Z.of_nat (List.length times)
      /\ status e =
         if (List.length times =? List.length (steps w))%nat
         then "completed" else "active".
Proof.
  intros s wid lid now w times G A Ne F D0 Due eid Fresh Le s'.
  destruct (first_due w now) as [due|] eqn:D; [clear D0|congruence].
  destruct (@trigger_workflow_appends s wid lid now w due G A F D) as [_ E].
  apply (@successes_progress (steps w) wid lid eid times Due
           (snd (trigger_workflow s wid lid now)) 0).
  - split.
    + unfold trigger_workflow. unfold first_due in D. rewrite G, A, F, D.
      change (negb (String.eqb "active" "active")) with false. cbv iota.
      cbn [snd]. rewrite get_workflow_update, String.eqb_refl.
      rewrite get_workflow_with_executions, G. simpl. eauto.
    + eexists. split.
      * rewrite E. apply find_added_execution; [exact Fresh|reflexivity].
      * simpl. auto.
  - destruct (steps w); [congruence|simpl; lia].
  - simpl. exact Le.
Qed.

Lemma successes_complete_the_workflow_witness :
  exists e,
    find (fun x => String.eqb (ex_id x) "exec_workflow_1_0_lead_7_1")
         (executions
            (successes "exec_workflow_1_0_lead_7_1" [2000000; 3000000]
               (snd (trigger_workflow Samples.drip_created "workflow_1_0"
                       "lead_7" 1000000))))
    = Some e
    /\ current_step e = 2 /\ status e = "completed".
Proof.
  destruct (@successes_complete_the_workflow Samples.drip_created
              "workflow_1_0" "lead_7" 1000000 _ [2000000; 3000000]
              eq_refl eq_refl) as (e & F & _ & _ & C & S);
    [discriminate|reflexivity|discriminate
    |intros t step [<-|[<-|[]]] [<-|[<-|[]]]; vm_compute; discriminate
    |reflexivity|simpl; lia|].
  exists e. split; [exact F|split; [exact C|exact S]].
Defined.

End WorkflowLifecycle.

Section WorkflowInvariants.

Import WorkflowService WorkflowQueries.

Let known_status (e : WorkflowExecution) : Prop :=
  status e = "active" \/ status e = "completed" \/ status e = "failed".

Lemma known_status_run c now s :
  Forall known_status (executions s) ->
  Forall known_status (executions (run c now s)).
Proof.
  intros K. destruct c; unfold run.
  - exact K.
  - rewrite executions_update_workflow. exact K.
  - unfold delete_workflow. destruct (_ <? _)%nat; simpl; [|exact K].
    rewrite Forall_forall in *. intros e Hin. apply filter_In in Hin.
    apply K. tauto.
  - unfold pause_workflow. rewrite executions_update_workflow. exact K.
  - unfold activate_workflow. rewrite executions_update_workflow. exact K.
  - unfold trigger_workflow.
    destruct (get_workflow s workflow_id0); [|exact K].
    destruct (negb _); [exact K|].
    destruct (find _ (executions s)); [exact K|].
    destruct (match steps _ with _ :: _ => _ | [] => _ end); [|exact K].
    cbn [snd]. rewrite executions_update_workflow. simpl.
    apply Forall_app. split; [exact K|].
    constructor; [left; reflexivity|constructor].
  - unfold complete_execution_step.
    destruct (find _ (executions s)) as [e|] eqn:F; [|exact K].
    destruct (get_workflow s (workflow_id e)) as [w|]; [|exact K].
    destruct (advance w e success now) as [e'|] eqn:A; [|exact K].
    simpl. rewrite Forall_forall in *. intros x Hin.
    apply In_replace_first in Hin. destruct Hin as [->|Hin]; [|auto].
    apply find_some in F. destruct F as [Hin _]. specialize (K e Hin).
    unfold advance in A. destruct success.
    + destruct (_ <=? _).
      * inversion A. right. left. reflexivity.
      * destruct (py_index _ _) as [next|]; [|discriminate].
        destruct (add_delay next now); [|discriminate].
        inversion A. exact K.
    + inversion A. right. right. reflexivity.
Qed.

Lemma count_partition {A : Type} (p q r : A -> bool) l :
  Forall (fun a => (p a = true /\ q a = false /\ r a = false)
                   \/ (p a = false /\ q a = true /\ r a = false)
                   \/ (p a = false /\ q a = false /\ r a = true)) l ->
  Z.of_nat (List.length l) = count p l + count q l + count r l.
Proof.
  unfold count. induction 1 as [|a l H _ IH]; [reflexivity|].
  simpl List.length. simpl filter.
  destruct H as [(-> & -> & ->)|[(-> & -> & ->)|(-> & -> & ->)]];
    simpl List.length; lia.
Qed.

(** X8.  In every state the service can reach, an execution is active,
    completed or failed (no call writes ["paused"]), so that the three
    execution counts of [get_workflow_stats] add up to its total. *)
Theorem workflow_stats_add_up :
  forall s,
    reachable s ->
    Forall (fun e => status e = "active" \/ status e = "completed"
                     \/ status e = "failed") (executions s)
    /\ let stats := get_workflow_stats s in
       total_executions stats
       = active_executions stats + completed_executions stats
         + failed_executions stats.
Proof.
  intros s R.
  assert (Forall known_status (executions s)) as K.
  { induction R as [|s c now R IH]; [constructor|].
    apply known_status_run. exact IH. }
  split; [exact K|].
  simpl. apply count_partition.
  rewrite Forall_forall in *. intros e Hin.
  destruct (K e Hin) as [H|[H|H]]; rewrite H; simpl; tauto.
Qed.

Lemma workflow_stats_add_up_witness :
  let stats := get_workflow_stats Samples.welcome_busy in
  (active_executions stats = 1 /\ completed_executions stats = 1
   /\ failed_executions stats = 1)
  /\ total_executions stats
     = active_executions stats + completed_executions stats
       + failed_executions stats.
Proof.
  split; [repeat split|].
  refine (proj2 (@workflow_stats_add_up Samples.welcome_busy _)).
  exact (reachable_run (Complete "exec_workflow_1_0_lead_9_3" false) 4000000
           (reachable_run (Trigger Samples.welcome_id "lead_9") 3000000
              (reachable_run (Trigger Samples.welcome_id "lead_8") 2500000
                 (reachable_run (Complete Samples.welcome_execution_id true)
                    2000000
                    (reachable_run (Trigger Samples.welcome_id "lead_7") 1000000
                       (reachable_run (Create Samples.welcome) 0
                          reachable_initial)))))).
Defined.

Let untouched (w : EmailWorkflow) : Prop :=
  total_triggered w = 0 /\ emails_sent w = 0 /\ last_activity w = None.

Lemma untouched_update s wid d now :
  Forall untouched (workflows s) ->
  Forall untouched (workflows (snd (update_workflow s wid d now))).
Proof.
  intros U. unfold update_workflow.
  destruct (update_first wid d now (workflows s)) as [[w ws]|] eqn:E; simpl;
    [|exact U].
  eapply update_first_Forall; [|exact U|exact E].
  intros x Hx. exact Hx.
Qed.

(** X9.  No call ever writes the statistics of a stored workflow: in every
    reachable state [total_triggered] and [emails_sent] are 0 and
    [last_activity] is null for all workflows.  In particular a trigger,
    which raises the counter on its local copy, leaves the stored counter
    at 0, because [update_workflow] does not read the two keys it is
    handed. *)
Theorem workflow_statistics_never_written :
  forall s,
    reachable s ->
    Forall (fun w => total_triggered w = 0 /\ emails_sent w = 0
                     /\ last_activity w = None) (workflows s).
Proof.
  intros s R. change (Forall untouched (workflows s)).
  induction R as [|s c now R IH]; [constructor|].
  destruct c; unfold run.
  - simpl. apply Forall_app. split; [exact IH|].
    constructor; [repeat split|constructor].
  - apply untouched_update. exact IH.
  - unfold delete_workflow. destruct (_ <? _)%nat; simpl; [|exact IH].
    rewrite Forall_forall in *. intros w Hin. apply filter_In in Hin.
    apply IH. tauto.
  - apply untouched_update. exact IH.
  - apply untouched_update. exact IH.
  - unfold trigger_workflow.
    destruct (get_workflow s workflow_id0); [|exact IH].
    destruct (negb _); [exact IH|].
    destruct (find _ (executions s)); [exact IH|].
    destruct (match steps _ with _ :: _ => _ | [] => _ end); [|exact IH].
    cbn [snd]. apply untouched_update. exact IH.
  - unfold complete_execution_step.
    destruct (find _ (executions s)) as [e|]; [|exact IH].
    destruct (get_workflow s (workflow_id e)) as [w|]; [|exact IH].
    destruct (advance w e success now); exact IH.
Qed.

Lemma workflow_statistics_never_written_witness :
  Forall (fun w => total_triggered w = 0 /\ emails_sent w = 0
                   /\ last_activity w = None)
         (workflows Samples.welcome_triggered).
Proof.
  exact (@workflow_statistics_never_written Samples.welcome_triggered
           (reachable_run (Trigger Samples.welcome_id "lead_7") 1000000
              (reachable_run (Create Samples.welcome) 0 reachable_initial))).
Defined.

End WorkflowInvariants.

(** * Further properties of the compliance service *)

Section SuppressionLookups.

Import EmailComplianceService.

Lemma reason_of_suppressed s email :
  is_email_suppressed s email = true <->
  exists reason, get_suppression_reason s email = Some reason.
Proof.
  unfold is_email_suppressed, get_suppression_reason.
  induction (suppression_list s) as [|x l IH]; simpl.
  - split; [discriminate|intros [r H]; discriminate].
  - destruct (String.eqb (sup_email x) (normalize_email email)); simpl.
    + split; [eauto|reflexivity].
    + exact IH.
Qed.

(** X10.  The two lookups read an address up to case and surrounding
    white space: addresses with the same normal form get the same answers,
    and once one of them is added the other is suppressed as well. *)
Theorem lookups_ignore_case_and_space :
  forall s email1 email2,
    normalize_email email1 = normalize_email email2 ->
    is_email_suppressed s email1 = is_email_suppressed s email2
    /\ get_suppression_reason s email1 = get_suppression_reason s email2
    /\ (forall reason source details now,
          is_email_suppressed
            (snd (add_to_suppression_list s email1 reason source details now))
            email2 = true).
Proof.
  intros s email1 email2 E. unfold is_email_suppressed, get_suppression_reason.
  rewrite E. split; [reflexivity|]. split; [reflexivity|].
  intros reason source details now.
  pose proof (add_to_suppression_list_suppresses s email1 reason source details
                now) as H.
  unfold is_email_suppressed in H. rewrite E in H. exact H.
Qed.

Lemma lookups_ignore_case_and_space_witness :
  is_email_suppressed
    (snd (add_to_suppression_list initial "foo@bar.com" "manual" "manual" None 10))
    " Foo@Bar.com " = true.
Proof.
  destruct (@lookups_ignore_case_and_space initial "foo@bar.com" " Foo@Bar.com "
              eq_refl) as (_ & _ & H).
  exact (H "manual" "manual" None 10).
Defined.

(** X11.  The suppression check of the HTTP layer reports a reason exactly
    for a suppressed address: [is_suppressed] is true if and only if
    [reason] is not null, and then it is the reason of the first entry of
    the address. *)
Theorem check_email_suppression_reason :
  forall s email,
    let answer := Api.check_email_suppression s email in
    fst answer = is_email_suppressed s email
    /\ (fst answer = true <-> exists reason, snd answer = Some reason)
    /\ snd answer = get_suppression_reason s email.
Proof.
  intros s email answer. unfold answer, Api.check_email_suppression. simpl.
  split; [reflexivity|].
  destruct (is_email_suppressed s email) eqn:S.
  - split; [|reflexivity]. split; [|reflexivity].
    intros _. apply reason_of_suppressed. exact S.
  - split.
    + split; [discriminate|intros [r H]; discriminate].
    + destruct (get_suppression_reason s email) as [r|] eqn:G; [|reflexivity].
      assert (is_email_suppressed s email = true)
        by (apply reason_of_suppressed; eauto).
      congruence.
Qed.

Lemma existsb_filter_negb {A : Type} (p : A -> bool) l :
  existsb p (filter (fun a => negb (p a)) l) = false.
Proof.
  induction l as [|a l IH]; simpl; [reflexivity|].
  destruct (p a) eqn:E; simpl; [exact IH|]. rewrite E. exact IH.
Qed.

Lemma filter_shorter_iff {A : Type} (p : A -> bool) l :
  (List.length (filter (fun a => negb (p a)) l) <? List.length l)%nat
  = existsb p l.
Proof.
  pose proof (filter_length_le (fun a => negb (p a)) l) as Le.
  destruct (existsb p l) eqn:E.
  - apply Nat.ltb_lt.
    induction l as [|a l IH]; simpl in *; [discriminate|].
    destruct (p a); simpl in *.
    + pose proof (filter_length_le (fun a => negb (p a)) l). lia.
    + assert (List.length (filter (fun a => negb (p a)) l) <= List.length l)%nat
        by apply filter_length_le.
      specialize (IH H E). lia.
  - apply Nat.ltb_ge.
    induction l as [|a l IH]; simpl in *; [lia|].
    destruct (p a); simpl in *; [discriminate|].
    assert (List.length (filter (fun a => negb (p a)) l) <= List.length l)%nat
      by apply filter_length_le.
    specialize (IH H E). lia.
Qed.

(** X12.  [remove_from_suppression_list] returns true exactly when the
    address was suppressed; afterwards the address is not suppressed, every
    address with another normal form is suppressed as before, and the
    audit trail of unsubscribe records is untouched. *)
Theorem remove_from_suppression_list_resubscribes :
  forall s email,
    let r := remove_from_suppression_list s email in
    fst r = is_email_suppressed s email
    /\ is_email_suppressed (snd r) email = false
    /\ (forall other,
          normalize_email other <> normalize_email email ->
          is_email_suppressed (snd r) other = is_email_suppressed s other)
    /\ unsubscribe_records (snd r) = unsubscribe_records s.
Proof.
  intros s email r. unfold r, remove_from_suppression_list.
  rewrite (filter_shorter_iff
             (fun x => String.eqb (sup_email x) (normalize_email email))).
  fold (is_email_suppressed s email).
  destruct (is_email_suppressed s email) eqn:S; simpl.
  - split; [reflexivity|]. split.
    { unfold is_email_suppressed. simpl.
      apply (existsb_filter_negb
               (fun x => String.eqb (sup_email x) (normalize_email email))). }
    split; [|reflexivity].
    intros other Ne. unfold is_email_suppressed. simpl.
    induction (suppression_list s) as [|x l IH]; simpl; [reflexivity|].
    destruct (String.eqb (sup_email x) (normalize_email email)) eqn:E; simpl.
    + apply String.eqb_eq in E.
      destruct (String.eqb (sup_email x) (normalize_email other)) eqn:E2;
        [|exact IH].
      apply String.eqb_eq in E2. congruence.
    + rewrite IH. reflexivity.
  - repeat split; try reflexivity. exact S.
Qed.

(** X13.  Adding an address that was not suppressed and removing it again
    restores the state: resubscribing undoes the suppression without a
    trace in either file. *)
Theorem add_then_remove_restores :
  forall s email reason source details now,
    is_email_suppressed s email = false ->
    remove_from_suppression_list
      (snd (add_to_suppression_list s email reason source details now)) email
    = (true, s).
Proof.
  intros s email reason source details now S.
  rewrite add_to_suppression_list_eq, S. simpl.
  unfold remove_from_suppression_list. simpl.
  rewrite filter_app. simpl. rewrite String.eqb_refl. simpl.
  rewrite app_nil_r.
  unfold is_email_suppressed in S.
  rewrite (@filter_keeps_all _
             (fun x => String.eqb (sup_email x) (normalize_email email))).
  - rewrite length_app. simpl.
    replace (List.length (suppression_list s)
             <? List.length (suppression_list s) + 1)%nat with true
      by (symmetry; apply Nat.ltb_lt; lia).
    destruct s. reflexivity.
  - clear - S. induction (suppression_list s) as [|x l IH]; simpl in *;
      [reflexivity|].
    destruct (String.eqb (sup_email x) (normalize_email email));
      [discriminate|auto].
Qed.

Lemma add_then_remove_restores_witness :
  remove_from_suppression_list
    (snd (add_to_suppression_list initial "a@b.com" "manual" "manual" None 10))
    "a@b.com"
  = (true, initial).
Proof.
  exact (@add_then_remove_restores initial "a@b.com" "manual" "manual" None 10
           eq_refl).
Defined.

End SuppressionLookups.

Section SuppressionBatches.

Import EmailComplianceService.

(** X14.  [filter_suppressed_emails] keeps, in their order and in normal
    form, exactly the addresses that are not suppressed: no address of the
    result is suppressed, and filtering the result again changes
    nothing. *)
Theorem filter_suppressed_emails_keeps_the_rest :
  forall s email_list,
    let kept := filter_suppressed_emails s email_list in
    kept = map normalize_email
             (filter (fun email => negb (is_email_suppressed s email)) email_list)
    /\ Forall (fun email => is_email_suppressed s email = false) kept
    /\ filter_suppressed_emails s kept = kept.
Proof.
  intros s email_list kept.
  assert (kept = map normalize_email
                   (filter (fun email => negb (is_email_suppressed s email))
                           email_list)) as E by reflexivity.
  split; [exact E|].
  assert (Forall (fun email => is_email_suppressed s email = false
                               /\ normalize_email email = email) kept) as F.
  { rewrite E. clear E kept. induction email_list as [|e l IH]; simpl;
      [constructor|].
    destruct (is_email_suppressed s e) eqn:S; simpl; [exact IH|].
    constructor; [|exact IH].
    split; [rewrite is_email_suppressed_normalized; exact S|].
    apply normalize_email_idempotent. }
  split.
  - rewrite Forall_forall in *. intros e Hin. apply (F e Hin).
  - change (filter_suppressed_emails s kept)
      with (map normalize_email
              (filter (fun email => negb (is_email_suppressed s email)) kept)).
    clear E. induction F as [|e l [S N] _ IH]; simpl; [reflexivity|].
    rewrite S. simpl. rewrite N, IH. reflexivity.
Qed.

(** The suppression list after the import loop, whatever the counters
    were. *)
Lemma bulk_import_loop_counts emails reason now :
  forall added skipped s,
    let '(added', skipped', s') :=
      bulk_import_loop emails reason now added skipped s in
    added' + skipped' = added + skipped + Z.of_nat (List.length emails)
    /\ added <= added' /\ skipped <= skipped'
    /\ Z.of_nat (List.length (suppression_list s'))
       = Z.of_nat (List.length (suppression_list s)) + (added' - added)
    /\ unsubscribe_records s' = unsubscribe_records s
    /\ (forall e, is_email_suppressed s e = true ->
                  is_email_suppressed s' e = true)
    /\ Forall (fun e => is_email_suppressed s' e = true) emails.
Proof.
  induction emails as [|email emails IH]; intros added skipped s.
  - simpl. repeat split; try lia; auto.
  - simpl.
    rewrite is_email_suppressed_normalized.
    destruct (is_email_suppressed s email) eqn:Sup; simpl.
    + specialize (IH added (skipped + 1) s).
      destruct (bulk_import_loop emails reason now added (skipped + 1) s)
        as [[a k] s'].
      destruct IH as (C & A & K & L & U & M & F).
      repeat split; try lia; auto.
    + pose proof (add_to_suppression_list_suppresses s (normalize_email email)
                    reason "bulk_import" None now) as Now.
      rewrite is_email_suppressed_normalized in Now.
      assert (forall e, is_email_suppressed s e = true ->
                is_email_suppressed
                  (snd (add_to_suppression_list s (normalize_email email) reason
                          "bulk_import" None now)) e = true) as Mono.
      { intros e He. rewrite add_to_suppression_list_eq.
        rewrite is_email_suppressed_normalized, Sup. simpl.
        rewrite is_email_suppressed_app, He. reflexivity. }
      assert (List.length
                (suppression_list
                   (snd (add_to_suppression_list s (normalize_email email) reason
                           "bulk_import" None now)))
              = S (List.length (suppression_list s))) as Len.
      { rewrite add_to_suppression_list_eq.
        rewrite is_email_suppressed_normalized, Sup. simpl.
        rewrite length_app. simpl. lia. }
      assert (unsubscribe_records
                (snd (add_to_suppression_list s (normalize_email email) reason
                        "bulk_import" None now))
              = unsubscribe_records s) as Un.
      { rewrite add_to_suppression_list_eq.
        rewrite is_email_suppressed_normalized, Sup. reflexivity. }
      specialize (IH (added + 1) skipped
                    (snd (add_to_suppression_list s (normalize_email email) reason
                            "bulk_import" None now))).
      destruct (bulk_import_loop emails reason now (added + 1) skipped _)
        as [[a k] s'].
      destruct IH as (C & A & K & L & U & M & F).
      repeat split; try lia; auto.
      congruence.
Qed.

(** X15.  [bulk_import_suppression_list] accounts for every address given:
    the counts [added] and [skipped] are not negative and sum to the number
    of addresses, the suppression list grows by [added] entries, every
    address given is suppressed afterwards (an address given twice counts
    as added once and skipped once), and no address stops being
    suppressed. *)
Theorem bulk_import_accounts_for_all :
  forall s emails reason now,
    let '(added, skipped, s') :=
      bulk_import_suppression_list s emails reason now in
    added + skipped = Z.of_nat (List.length emails)
    /\ 0 <= added /\ 0 <= skipped
    /\ Z.of_nat (List.length (suppression_list s'))
       = Z.of_nat (List.length (suppression_list s)) + added
    /\ Forall (fun e => is_email_suppressed s' e = true) emails
    /\ (forall e, is_email_suppressed s e = true ->
                  is_email_suppressed s' e = true).
Proof.
  intros s emails reason now. unfold bulk_import_suppression_list.
  pose proof (bulk_import_loop_counts emails reason now 0 0 s) as H.
  destruct (bulk_import_loop emails reason now 0 0 s) as [[a k] s'].
  destruct H as (C & A & K & L & U & M & F).
  repeat split; try lia; auto.
Qed.

End SuppressionBatches.

Section UnsubscribeByLink.

Import EmailComplianceService.

Variable getenv : string -> option string.
Variable sha256 : string -> string.
Variable b64encode : string -> string.
Variable b64decode : string -> option string.

Hypothesis codec_round_trip : forall s, b64decode (b64encode s) = Some s.
Hypothesis codec_not_empty : forall s, s <> "" -> b64encode s <> "".

(** X16.  The token endpoint of [main.py]: presenting the token of a link
    made for an address without [":"], no later than 30 days after the
    issue time it carries, answers with that address and leaves it
    suppressed, doing exactly what [unsubscribe_email] does for source
    ["email_link"]; a request without a token, with an empty one, or with
    one that does not verify is answered with status 400 and changes
    nothing. *)
Theorem unsubscribe_with_token_follows_the_link :
  forall s email issued now reason w t,
    no_colon email = true ->
    now - timestamp_int issued * 1000000 <= thirty_days ->
    let token := unsubscribe_token getenv sha256 b64encode email issued in
    let handler := Api.unsubscribe_with_token getenv sha256 b64decode in
    let r := handler s (Some token) reason w t now in
    fst r = Api.Ok email
    /\ snd r = snd (unsubscribe_email s email reason "email_link" w t None None now)
    /\ is_email_suppressed (snd r) email = true
    /\ (forall other,
          verify_unsubscribe_token getenv sha256 b64decode other now = None ->
          exists detail,
            handler s (Some other) reason w t now = (Api.HttpError 400 detail, s))
    /\ handler s None reason w t now = (Api.HttpError 400 "Token is required", s).
Proof.
  intros s email issued now reason w t N Age token handler r.
  assert (verify_unsubscribe_token getenv sha256 b64decode token now
          = Some (email, str_int (timestamp_int issued))) as V.
  { unfold token. rewrite verify_genuine by assumption.
    replace (thirty_days <? now - timestamp_int issued * 1000000) with false
      by (symmetry; apply Z.ltb_ge; exact Age).
    reflexivity. }
  assert (exists c rest, token = String c rest) as (c & rest & T).
  { destruct token as [|c rest] eqn:E; [|eauto].
    exfalso. unfold token, unsubscribe_token in E.
    apply codec_not_empty in E; [exact E|].
    destruct email; discriminate. }
  assert (r = (Api.Ok email,
               snd (unsubscribe_email s email reason "email_link" w t None None
                      now))) as R.
  { unfold r, handler, Api.unsubscribe_with_token.
    rewrite T. rewrite <- T. rewrite V.
    rewrite unsubscribe_email_eq.
    destruct (is_email_suppressed s email); reflexivity. }
  rewrite R. simpl. split; [reflexivity|]. split; [reflexivity|]. split.
  { rewrite unsubscribe_email_eq.
    destruct (is_email_suppressed s email) eqn:S; simpl; [exact S|].
    rewrite is_email_suppressed_app. simpl.
    rewrite String.eqb_refl. apply orb_true_r. }
  split; [|reflexivity].
  intros other Bad. unfold handler, Api.unsubscribe_with_token.
  destruct other as [|c' rest']; [eauto|]. rewrite Bad. eauto.
Qed.

End UnsubscribeByLink.

Section UnsubscribeByLinkSample.

Import EmailComplianceService.

Lemma b64encode_not_empty s : s <> "" -> Base64.b64encode s <> "".
Proof.
  destruct s as [|a [|b [|c rest]]]; intros H; [congruence|..]; discriminate.
Qed.

Lemma unsubscribe_with_token_follows_the_link_witness :
  fst (Api.unsubscribe_with_token (fun _ => None) Sha256.sha256 Base64.b64decode
         initial
         (Some (unsubscribe_token (fun _ => None) Sha256.sha256 Base64.b64encode
                  "a@b.com" 900000))
         None None None 86400000000)
  = Api.Ok "a@b.com".
Proof.
  refine (proj1 (@unsubscribe_with_token_follows_the_link (fun _ => None)
                   Sha256.sha256 Base64.b64encode Base64.b64decode
                   b64decode_b64encode b64encode_not_empty initial "a@b.com"
                   900000 86400000000 None None None eq_refl _)).
  vm_compute. discriminate.
Defined.

End UnsubscribeByLinkSample.

(** * Further properties of the bounce handling service *)

Section BounceEscalation.

Import BounceHandlingService.

Lemma reason_after_add c email reason source details now :
  Compliance.is_email_suppressed c email = false ->
  Compliance.get_suppression_reason
    (snd (Compliance.add_to_suppression_list c (normalize_email email) reason
            source details now)) email
  = Some reason.
Proof.
  intros S. rewrite add_to_suppression_list_eq.
  rewrite is_email_suppressed_normalized, S. simpl.
  unfold Compliance.get_suppression_reason. simpl.
  unfold Compliance.is_email_suppressed in S.
  rewrite normalize_email_idempotent.
  induction (Compliance.suppression_list c) as [|x l IH]; simpl in *.
  - rewrite String.eqb_refl. reflexivity.
  - destruct (String.eqb (Compliance.sup_email x) (normalize_email email));
      [discriminate|auto].
Qed.

Lemma kept_after_add c email reason source details now :
  Compliance.is_email_suppressed c email = true ->
  snd (Compliance.add_to_suppression_list c (normalize_email email) reason
         source details now) = c.
Proof.
  intros S. rewrite add_to_suppression_list_eq.
  rewrite is_email_suppressed_normalized, S. reflexivity.
Qed.

(** X17.  A hard bounce or a complaint suppresses the address at once:
    after [handle_bounce] with type ["hard"] (or ["complaint"]) the address
    is suppressed; its reason is ["bounced"] (or ["complained"]) when it
    was not suppressed before, and the suppression list is left as it was
    when it already was. *)
Theorem hard_bounce_suppresses_at_once :
  forall s email bounce_type bounce_reason r t w details now,
    bounce_type = "hard" \/ bounce_type = "complaint" ->
    let s' :=
      snd (handle_bounce s email bounce_type bounce_reason r t w details now) in
    Compliance.is_email_suppressed (compliance s') email = true
    /\ (Compliance.is_email_suppressed (compliance s) email = false ->
        Compliance.get_suppression_reason (compliance s') email
        = Some (if String.eqb bounce_type "hard" then "bounced"
                else "complained"))
    /\ (Compliance.is_email_suppressed (compliance s) email = true ->
        compliance s' = compliance s).
Proof.
  intros s email bounce_type bounce_reason r t w details now T s'.
  unfold s'. rewrite handle_bounce_compliance. cbv zeta.
  destruct T as [-> | ->]; simpl String.eqb; cbv iota.
  - split; [apply suppressed_after_add|].
    split; [apply reason_after_add|apply kept_after_add].
  - split; [apply suppressed_after_add|].
    split; [apply reason_after_add|apply kept_after_add].
Qed.

Lemma hard_bounce_suppresses_at_once_witness :
  Compliance.get_suppression_reason
    (compliance
       (snd (handle_bounce initial "a@b.com" "hard" "mailbox does not exist" None
               None None None 10)))
    "a@b.com"
  = Some "bounced".
Proof.
  destruct (@hard_bounce_suppresses_at_once initial "a@b.com" "hard"
              "mailbox does not exist" None None None None 10
              (or_introl eq_refl)) as (_ & H & _).
  exact (H eq_refl).
Defined.

(** X18.  The soft bounce threshold counts every earlier bounce of the
    address, of whatever type: a soft bounce leaves a record whose
    [bounce_count] is one more than before (1 for a first bounce), and the
    address is suppressed afterwards exactly when it was already or that
    count has reached 5. *)
Theorem soft_bounce_counts_all_bounces :
  forall s email bounce_reason r t w details now,
    let s' := snd (handle_bounce s email "soft" bounce_reason r t w details now) in
    let counted :=
      match find_bounce (normalize_email email) (bounce_records s) with
      | Some old => bounce_count old + 1
      | None => 1
      end in
    (exists record,
       find_bounce (normalize_email email) (bounce_records s') = Some record
       /\ bounce_count record = counted)
    /\ Compliance.is_email_suppressed (compliance s') email
       = (Compliance.is_email_suppressed (compliance s) email || (5 <=? counted)).
Proof.
  intros s email bounce_reason r t w details now s' counted.
  assert (bounce_count (bounced_record s email "soft" bounce_reason r t w details now)
          = counted) as C.
  { unfold bounced_record, counted.
    destruct (find_bounce (normalize_email email) (bounce_records s));
      reflexivity. }
  split.
  - eexists. split; [apply handle_bounce_record|exact C].
  - unfold s'. rewrite handle_bounce_compliance. cbv zeta.
    simpl String.eqb. cbv iota. rewrite C.
    destruct (5 <=? counted).
    + rewrite suppressed_after_add. symmetry. apply orb_true_r.
    + rewrite orb_false_r. reflexivity.
Qed.

End BounceEscalation.

Section BounceRecords.

Import BounceHandlingService.

(** The bounce file after [handle_bounce]. *)
Lemma handle_bounce_records s email bounce_type bounce_reason r t w details now :
  bounce_records
    (snd (handle_bounce s email bounce_type bounce_reason r t w details now))
  = match find_bounce (normalize_email email) (bounce_records s) with
    | Some _ =>
        bump_first_bounce (normalize_email email) bounce_type bounce_reason
          details now (bounce_records s)
    | None =>
        bounce_records s ++
        [mkBounce (normalize_email email) bounce_type bounce_reason now r t w 1
           now 1 details]
    end.
Proof.
  unfold handle_bounce. cbn [snd]. cbv zeta.
  destruct (String.eqb bounce_type "hard"); [reflexivity|].
  destruct (String.eqb bounce_type "soft").
  - destruct (5 <=? _); reflexivity.
  - destruct (String.eqb bounce_type "complaint"); reflexivity.
Qed.

(** Every call leaves the bounce file as it is, or as a call of
    [handle_bounce] leaves it, or drops records from it. *)
Lemma bounce_records_run c now s :
  bounce_records (run c now s) = bounce_records s
  \/ (exists email bounce_type bounce_reason r t w details,
        bounce_records (run c now s)
        = bounce_records
            (snd (handle_bounce s email bounce_type bounce_reason r t w details
                    now)))
  \/ (exists p, bounce_records (run c now s) = filter p (bounce_records s)).
Proof.
  destruct c as [c|email ty reason r t w d|email reason r t w d|email r success|days];
    unfold run.
  - left. reflexivity.
  - right. left. do 7 eexists. reflexivity.
  - unfold handle_delivery_failure. cbn [snd]. cbv zeta.
    destruct (find_failure (normalize_email email) r (delivery_failures s))
      as [f|]; [|left; reflexivity].
    destruct (retry_count f + 1 <? max_retries f); [left; reflexivity|].
    right. left. do 7 eexists. reflexivity.
  - unfold mark_retry_completed. cbv zeta.
    destruct (find_failure email r (delivery_failures s)) as [f|];
      [|left; reflexivity].
    destruct success; [left; reflexivity|].
    destruct (max_retries f <=? retry_count f + 1); [|left; reflexivity].
    right. left. do 7 eexists. reflexivity.
  - destruct (cleanup_old_records_cases s days now) as [->|(cutoff & ->)];
      [left; reflexivity|].
    right. right. eexists. reflexivity.
Qed.

Let sound_record (record : BounceRecord) : Prop :=
  delivery_attempts record = bounce_count record
  /\ 1 <= bounce_count record
  /\ normalize_email (br_email record) = br_email record.

Let sound_records (records : list BounceRecord) : Prop :=
  NoDup (map br_email records) /\ Forall sound_record records.

Lemma sound_records_bumped email bounce_type bounce_reason details now records :
  sound_records records ->
  sound_records
    (bump_first_bounce email bounce_type bounce_reason details now records).
Proof.
  intros [N F]. split.
  - replace (map br_email
               (bump_first_bounce email bounce_type bounce_reason details now
                  records)) with (map br_email records); [exact N|].
    clear. induction records as [|x l IH]; simpl; [reflexivity|].
    destruct (String.eqb (br_email x) email); simpl; [reflexivity|].
    rewrite IH. reflexivity.
  - clear N. induction F as [|x l Hx Hl IH]; simpl; [constructor|].
    destruct (String.eqb (br_email x) email).
    + constructor; [|exact Hl].
      destruct Hx as (A & B & C). repeat split; simpl; try lia. exact C.
    + constructor; assumption.
Qed.

Lemma find_bounce_none_not_in email records :
  find_bounce email records = None -> ~ In email (map br_email records).
Proof.
  unfold find_bounce. intros N Hin. apply in_map_iff in Hin.
  destruct Hin as (x & E & Hin).
  pose proof (find_none _ _ N _ Hin) as H. simpl in H.
  rewrite E, String.eqb_refl in H. discriminate.
Qed.

(** X19.  In every state the mail services can reach, the bounce file has
    at most one record per address, filed under the normal form of the
    address, and every record has [delivery_attempts] equal to
    [bounce_count], both at least 1. *)
Theorem bounce_records_stay_sound :
  forall s,
    reachable s ->
    NoDup (map br_email (bounce_records s))
    /\ Forall (fun record =>
                 delivery_attempts record = bounce_count record
                 /\ 1 <= bounce_count record
                 /\ normalize_email (br_email record) = br_email record)
              (bounce_records s).
Proof.
  intros s R. change (sound_records (bounce_records s)).
  induction R as [|s c now R IH]; [split; constructor|].
  destruct (bounce_records_run c now s)
    as [E|[(email & ty & reason & r & t & w & d & E)|[p E]]]; rewrite E.
  - exact IH.
  - rewrite handle_bounce_records.
    destruct (find_bounce (normalize_email email) (bounce_records s)) eqn:F.
    + apply sound_records_bumped. exact IH.
    + destruct IH as [N Fa]. split.
      * rewrite map_app. simpl. apply NoDup_snoc; [exact N|].
        apply find_bounce_none_not_in. exact F.
      * apply Forall_app. split; [exact Fa|].
        constructor; [|constructor].
        repeat split; simpl; try lia. apply normalize_email_idempotent.
  - destruct IH as [N Fa]. split.
    + clear - N. induction (bounce_records s) as [|x l IHl]; simpl; [constructor|].
      inversion N as [|? ? Nx Nl]; subst.
      destruct (p x); simpl; [|auto].
      constructor; [|auto].
      intros Hin. apply Nx. apply in_map_iff in Hin.
      destruct Hin as (y & Ey & Hy). apply filter_In in Hy.
      apply in_map_iff. exists y. tauto.
    + rewrite Forall_forall in *. intros x Hin. apply filter_In in Hin.
      apply Fa. tauto.
Qed.

Lemma bounce_records_stay_sound_witness :
  NoDup (map br_email (bounce_records Samples.failed_out)).
Proof.
  refine (proj1 (@bounce_records_stay_sound Samples.failed_out _)).
  repeat apply reachable_run. apply reachable_initial.
Defined.

End BounceRecords.

Section RetryQueue.

Import BounceHandlingService.



(** X21.  A retry reported as successful settles the failure: in a
    reachable state [mark_retry_completed] with [success=True] returns
    true and removes the record of the pair; no retry is due for the pair
    afterwards, the records of other pairs are found as before, and the
    suppression list and the bounce file are untouched. *)
Theorem successful_retry_clears_the_failure :
  forall s email rid now f,
    reachable s ->
    find_failure email rid (delivery_failures s) = Some f ->
    let r := mark_retry_completed s email rid true now in
    fst r = true
    /\ find_failure email rid (delivery_failures (snd r)) = None
    /\ (forall at_time, ~ retry_due email rid (snd r) at_time)
    /\ (forall email' rid',
          (email', rid') <> (email, rid) ->
          find_failure email' rid' (delivery_failures (snd r))
          = find_failure email' rid' (delivery_failures s))
    /\ compliance (snd r) = compliance s
    /\ bounce_records (snd r) = bounce_records s.
Proof.
  intros s email rid now f R F r.
  destruct (@reachable_ledger_ok s R) as [N _].
  assert (r = (true,
               with_delivery_failures s
                 (remove_failure email rid (delivery_failures s)))) as E.
  { unfold r, mark_retry_completed. rewrite F. reflexivity. }
  rewrite E. simpl.
  assert (find_failure email rid (remove_failure email rid (delivery_failures s))
          = None) as Gone by (apply find_failure_removed; exact N).
  split; [reflexivity|]. split; [exact Gone|]. split.
  { intros at_time (g & Hin & K).
    unfold get_emails_for_retry in Hin. simpl in Hin.
    apply filter_In in Hin. destruct Hin as [Hin _].
    apply (find_failure_none_key _ _ _ Gone).
    apply same_failure_key in K. rewrite <- K. apply in_map. exact Hin. }
  split; [|split; reflexivity].
  intros email' rid' Ne. apply find_failure_remove_other. exact Ne.
Qed.

Lemma successful_retry_clears_the_failure_witness :
  find_failure "a@b.com" (Some "msg_1")
    (delivery_failures
       (snd (mark_retry_completed Samples.failed_once "a@b.com" (Some "msg_1")
               true 400000000)))
  = None.
Proof.
  refine (proj1 (proj2
            (@successful_retry_clears_the_failure Samples.failed_once "a@b.com"
               (Some "msg_1") 400000000 _ _ eq_refl))).
  apply reachable_run. apply reachable_initial.
Defined.

(** X22.  [mark_retry_completed] compares the address as it is given,
    while failures are filed under the normal form: in a reachable state a
    call with an address that is not in normal form (an upper-case letter,
    a surrounding blank) finds nothing, returns true and changes
    nothing. *)
Theorem mark_retry_completed_wants_the_normal_form :
  forall s email rid success now,
    reachable s ->
    normalize_email email <> email ->
    mark_retry_completed s email rid success now = (true, s).
Proof.
  intros s email rid success now R Ne. unfold mark_retry_completed.
  destruct (find_failure email rid (delivery_failures s)) as [f|] eqn:F;
    [|reflexivity].
  destruct (@reachable_found_normalized s email rid f R F) as [Hn _].
  congruence.
Qed.

Lemma mark_retry_completed_wants_the_normal_form_witness :
  mark_retry_completed Samples.failed_once "A@B.com" (Some "msg_1") true 400000000
  = (true, Samples.failed_once).
Proof.
  apply mark_retry_completed_wants_the_normal_form.
  - apply reachable_run. apply reachable_initial.
  - vm_compute. discriminate.
Defined.

Let three_retries (s : state) : Prop :=
  Forall (fun f => max_retries f = 3) (delivery_failures s).

Lemma three_retries_replace s email rid f reason details now :
  three_retries s ->
  find_failure email rid (delivery_failures s) = Some f ->
  Forall (fun f => max_retries f = 3)
         (replace_failure email rid (rescheduled f reason details now)
            (delivery_failures s)).
Proof.
  intros T F. unfold three_retries in T. rewrite Forall_forall in *.
  intros x Hin. apply In_replace_failure in Hin.
  destruct Hin as [->|Hin]; [|auto].
  simpl. apply T. apply find_failure_some in F. tauto.
Qed.

Lemma three_retries_run c now s : three_retries s -> three_retries (run c now s).
Proof.
  intros T. unfold three_retries.
  destruct c as [c|email ty reason r t w d|email reason r t w d|email r success|days];
    unfold run.
  - exact T.
  - rewrite handle_bounce_failures. exact T.
  - rewrite handle_delivery_failure_failures.
    destruct (find_failure (normalize_email email) r (delivery_failures s))
      as [f|] eqn:F.
    + apply three_retries_replace; assumption.
    + apply Forall_app. split; [exact T|]. constructor; [reflexivity|constructor].
  - rewrite mark_retry_completed_failures.
    destruct (find_failure email r (delivery_failures s)) as [f|] eqn:F;
      [|exact T].
    destruct success; [|apply three_retries_replace; assumption].
    unfold three_retries in T. rewrite Forall_forall in *. intros x Hin.
    apply T. exact (map_key_remove_incl _ _ _ x Hin).
  - destruct (cleanup_old_records_cases s days now) as [->|(cutoff & ->)];
      [exact T|].
    simpl. unfold three_retries in T. rewrite Forall_forall in *.
    intros x Hin. apply filter_In in Hin. apply T. tauto.
Qed.

(** X23.  In every reachable state each delivery failure has
    [max_retries = 3] and a [retry_count] that is not negative; hence a
    failure that [get_emails_for_retry] returns has failed at most three
    times ([retry_count] 0, 1 or 2) and its retry time has come. *)
Theorem retry_queue_holds_at_most_two_retries :
  forall s now,
    reachable s ->
    Forall (fun f => max_retries f = 3 /\ 0 <= retry_count f) (delivery_failures s)
    /\ Forall (fun f => 0 <= retry_count f <= 2
                        /\ exists due, next_retry_at f = Some due /\ due <= now)
              (get_emails_for_retry s now).
Proof.
  intros s now R.
  assert (three_retries s) as T.
  { induction R as [|s c t R IH]; [constructor|].
    apply three_retries_run. exact IH. }
  destruct (@reachable_ledger_ok s R) as [_ F].
  unfold three_retries in T. rewrite Forall_forall in T, F.
  split; apply Forall_forall.
  - intros f Hin. split; [apply T; exact Hin|apply (F f Hin)].
  - intros f Hin. unfold get_emails_for_retry in Hin.
    apply filter_In in Hin. destruct Hin as [Hin Due].
    apply andb_true_iff in Due. destruct Due as [D Lt].
    apply Z.ltb_lt in Lt. rewrite (T f Hin) in Lt.
    destruct (F f Hin) as [P _]. split; [lia|].
    destruct (next_retry_at f) as [due|]; [|discriminate].
    exists due. split; [reflexivity|]. apply Z.leb_le. exact D.
Qed.

Lemma retry_queue_holds_at_most_two_retries_witness :
  Forall (fun f => max_retries f = 3 /\ 0 <= retry_count f)
         (delivery_failures Samples.failed_out).
Proof.
  refine (proj1 (@retry_queue_holds_at_most_two_retries Samples.failed_out 0 _)).
  repeat apply reachable_run. apply reachable_initial.
Defined.

End RetryQueue.

Section RecordCleanup.

Import BounceHandlingService.

Lemma filter_filter {A : Type} (p : A -> bool) l :
  filter p (filter p l) = filter p l.
Proof.
  induction l as [|x l IH]; [reflexivity|]. simpl.
  destruct (p x) eqn:P; [simpl; rewrite P, IH; reflexivity|exact IH].
Qed.

Lemma filter_length_split {A : Type} (p : A -> bool) l :
  (List.length (filter p l) <= List.length l)%nat.
Proof.
  induction l as [|x l IH]; [constructor|]. simpl.
  destruct (p x); simpl; lia.
Qed.

Lemma datetime_sub_some t delta cutoff :
  datetime_sub t delta = Some cutoff
  <-> (timedelta_min <= delta <= timedelta_max
       /\ datetime_min <= t - delta <= datetime_max)
      /\ cutoff = t - delta.
Proof.
  unfold datetime_sub, timedelta_ok, datetime_ok.
  destruct (timedelta_min <=? delta) eqn:A; destruct (delta <=? timedelta_max) eqn:B;
    destruct (datetime_min <=? t - delta) eqn:C;
    destruct (t - delta <=? datetime_max) eqn:D; simpl;
    try apply Z.leb_le in A; try apply Z.leb_le in B; try apply Z.leb_le in C;
    try apply Z.leb_le in D; try apply Z.leb_gt in A; try apply Z.leb_gt in B;
    try apply Z.leb_gt in C; try apply Z.leb_gt in D;
    (split; [intros H; try discriminate; injection H as <-; lia
            |intros [H ->]; try reflexivity; lia]).
Qed.

(** X24.  [cleanup_old_records] computes the cutoff date [days_old] days
    before the call.  When [days_old] is a [timedelta] (at most 999999999
    days either way) and the cutoff is a [datetime], it keeps exactly the
    bounce records whose last bounce, and the failures whose failure time,
    is later than the cutoff (a record exactly at the cutoff goes); the
    two counts it returns are the numbers of records dropped; the
    suppression list is not touched, so an address suppressed for bounces
    stays suppressed after its bounce record is gone; and a second cleanup
    at the same time drops nothing.  Otherwise it answers with the error
    dict and drops nothing. *)
Theorem cleanup_old_records_keeps_the_recent :
  forall s days_old now,
    let r := cleanup_old_records s days_old now in
    let cutoff_date := now - timedelta_days days_old in
    let in_range :=
      -999999999 <= days_old <= 999999999
      /\ datetime_min <= cutoff_date <= datetime_max in
    (in_range ->
     exists cleaned_bounces cleaned_failures,
       fst r = Some (cleaned_bounces, cleaned_failures)
       /\ compliance (snd r) = compliance s
       /\ (forall b, In b (bounce_records (snd r))
                     <-> In b (bounce_records s) /\ cutoff_date < last_bounce_at b)
       /\ (forall f, In f (delivery_failures (snd r))
                     <-> In f (delivery_failures s) /\ cutoff_date < failed_at f)
       /\ 0 <= cleaned_bounces
       /\ cleaned_bounces + Z.of_nat (List.length (bounce_records (snd r)))
          = Z.of_nat (List.length (bounce_records s))
       /\ 0 <= cleaned_failures
       /\ cleaned_failures + Z.of_nat (List.length (delivery_failures (snd r)))
          = Z.of_nat (List.length (delivery_failures s))
       /\ cleanup_old_records (snd r) days_old now = (Some (0, 0), snd r))
    /\ (~ in_range -> r = (None, s)).
Proof.
  intros s days_old now r cutoff_date in_range.
  assert (in_range
          <-> datetime_sub now (timedelta_days days_old) = Some cutoff_date) as Ok.
  { rewrite datetime_sub_some. unfold in_range, cutoff_date.
    unfold timedelta_days, timedelta_min, timedelta_max. split.
    - intros [D C]. split; [split; [lia|exact C]|reflexivity].
    - intros [[D C] _]. split; [lia|exact C]. }
  split.
  - intros In_range. apply Ok in In_range.
    assert (forall s0, cleanup_old_records s0 days_old now
            = (Some
                 (Z.of_nat (List.length (bounce_records s0))
                  - Z.of_nat
                      (List.length
                         (filter (fun r => cutoff_date <? last_bounce_at r)
                            (bounce_records s0))),
                  Z.of_nat (List.length (delivery_failures s0))
                  - Z.of_nat
                      (List.length
                         (filter (fun f => cutoff_date <? failed_at f)
                            (delivery_failures s0)))),
               mkState (compliance s0)
                 (filter (fun r => cutoff_date <? last_bounce_at r)
                    (bounce_records s0))
                 (filter (fun f => cutoff_date <? failed_at f)
                    (delivery_failures s0))
                 (email_history s0))) as E.
    { intros s0. unfold cleanup_old_records. rewrite In_range. reflexivity. }
    unfold r. rewrite !E.
    cbn [fst snd compliance bounce_records delivery_failures email_history].
    pose proof (filter_length_split (fun r => cutoff_date <? last_bounce_at r)
                  (bounce_records s)) as Lb.
    pose proof (filter_length_split (fun f => cutoff_date <? failed_at f)
                  (delivery_failures s)) as Lf.
    eexists. eexists. split; [reflexivity|]. split; [reflexivity|].
    split; [intros b; rewrite filter_In, Z.ltb_lt; reflexivity|].
    split; [intros f; rewrite filter_In, Z.ltb_lt; reflexivity|].
    split; [lia|]. split; [lia|]. split; [lia|]. split; [lia|].
    rewrite !filter_filter, !Z.sub_diag. reflexivity.
  - intros Out. unfold r, cleanup_old_records.
    destruct (datetime_sub now (timedelta_days days_old)) as [c|] eqn:D;
      [|reflexivity].
    destruct Out. apply (proj2 Ok).
    pose proof (proj2 (proj1 (datetime_sub_some _ _ _) D)) as C.
    fold cutoff_date in C. rewrite <- C. reflexivity.
Qed.

(** A cleanup 100 days after the sample send gave up drops its bounce
    record and its failure; a cleanup asked to keep a million days
    fails. *)
Lemma cleanup_old_records_keeps_the_recent_witness :
  (exists cleaned_bounces cleaned_failures,
     fst (cleanup_old_records Samples.failed_out 90 8640000000000)
     = Some (cleaned_bounces, cleaned_failures)
     /\ cleaned_bounces + 0 = 1 /\ cleaned_failures + 0 = 1)
  /\ cleanup_old_records Samples.failed_out 1000000 8640000000000
     = (None, Samples.failed_out).
Proof.
  split.
  - destruct (proj1 (@cleanup_old_records_keeps_the_recent Samples.failed_out 90
                       8640000000000))
      as (cb & cf & R & _ & _ & _ & _ & B & _ & F & _).
    + unfold timedelta_days, datetime_min, datetime_max. lia.
    + exists cb, cf. split; [exact R|split; [exact B|exact F]].
  - apply (proj2 (@cleanup_old_records_keeps_the_recent Samples.failed_out
                    1000000 8640000000000)).
    unfold timedelta_days, datetime_min, datetime_max. lia.
Defined.

End RecordCleanup.

Section WebhookEvents.

Import BounceHandlingService.
Import Webhook.

(** X25.  [process_resend_webhook] returns false exactly when the event
    names no recipient (no ["to"] entry, a first entry that is not a dict
    or has no non-empty ["email"]) or is an ["email.bounced"] event whose
    reason is null, and then it changes nothing; an event of a type other
    than ["email.bounced"], ["email.delivery_delayed"] and
    ["email.complained"] changes nothing either; and a webhook only ever
    does what a call of [handle_bounce] or [handle_delivery_failure] does,
    so it keeps the service within its reachable states. *)
Theorem webhook_acts_through_the_handlers :
  forall s w now,
    let r := process_resend_webhook s w now in
    (fst r = false
     <-> recipient w = None
         \/ (wh_type w = Some "email.bounced" /\ wh_reason w = Null))
    /\ (fst r = false -> snd r = s)
    /\ (wh_type w <> Some "email.bounced" ->
        wh_type w <> Some "email.delivery_delayed" ->
        wh_type w <> Some "email.complained" ->
        snd r = s)
    /\ (snd r = s
        \/ (exists email bounce_type bounce_reason,
              recipient w = Some email
              /\ snd r = run (Bounce email bounce_type bounce_reason (wh_id w)
                                None None (webhook_details w)) now s)
        \/ (exists email failure_reason,
              recipient w = Some email
              /\ snd r = run (Failure email failure_reason (wh_id w) None None
                                (webhook_details w)) now s))
    /\ (reachable s -> reachable (snd r)).
Proof.
  intros s w now r. unfold r, process_resend_webhook, recipient.
  assert (forall t, opt_eqb (wh_type w) (Some t) = true -> wh_type w = Some t)
    as Eq.
  { intros t E. destruct (wh_type w) as [x|]; [|discriminate].
    apply String.eqb_eq in E. congruence. }
  assert (forall t, opt_eqb (wh_type w) (Some t) = false -> wh_type w <> Some t)
    as Ne.
  { intros t E H. rewrite H in E. simpl in E.
    rewrite String.eqb_refl in E. discriminate. }
  destruct (wh_to w) as [|[[[|c email]|]|] rest] eqn:To;
    try (simpl; split; [split; auto|]; split; [reflexivity|];
         split; [reflexivity|]; split; [left; reflexivity|auto]).
  destruct (opt_eqb (wh_type w) (Some "email.bounced")) eqn:B;
    [|destruct (opt_eqb (wh_type w) (Some "email.delivery_delayed")) eqn:D;
      [|destruct (opt_eqb (wh_type w) (Some "email.complained")) eqn:C]].
  - destruct (wh_reason w) as [| |reason] eqn:Re; cbn [fst snd].
    + split; [split; [discriminate|intros [H|[_ H]]; discriminate]|].
      split; [discriminate|].
      split; [intros N; destruct N; apply Eq; exact B|].
      split.
      * right. left. eexists. eexists. eexists. split; reflexivity.
      * intros R. apply (reachable_run (Bounce _ _ _ _ _ _ _) now R).
    + split; [split; [intros _; right; split; [apply Eq; exact B|reflexivity]
                     |reflexivity]|].
      split; [reflexivity|]. split; [reflexivity|].
      split; [left; reflexivity|auto].
    + split; [split; [discriminate|intros [H|[_ H]]; discriminate]|].
      split; [discriminate|].
      split; [intros N; destruct N; apply Eq; exact B|].
      split.
      * right. left. eexists. eexists. eexists. split; reflexivity.
      * intros R. apply (reachable_run (Bounce _ _ _ _ _ _ _) now R).
  - cbn [fst snd].
    split; [split; [discriminate|intros [H|[H _]]; [discriminate|]]|].
    { destruct (Ne _ B H). }
    split; [discriminate|].
    split; [intros _ N; destruct N; apply Eq; exact D|].
    split.
    + right. right. eexists. eexists. split; reflexivity.
    + intros R. apply (reachable_run (Failure _ _ _ _ _ _) now R).
  - cbn [fst snd].
    split; [split; [discriminate|intros [H|[H _]]; [discriminate|]]|].
    { destruct (Ne _ B H). }
    split; [discriminate|].
    split; [intros _ _ N; destruct N; apply Eq; exact C|].
    split.
    + right. left. eexists. eexists. eexists. split; reflexivity.
    + intros R. apply (reachable_run (Bounce _ _ _ _ _ _ _) now R).
  - cbn [fst snd].
    split; [split; [discriminate|intros [H|[H _]]; [discriminate|]]|].
    { destruct (Ne _ B H). }
    split; [discriminate|]. split; [reflexivity|].
    split; [left; reflexivity|auto].
Qed.

(** A bounce event with a null reason is refused with nothing written,
    while a delayed delivery with a null reason files a failure. *)
Lemma webhook_acts_through_the_handlers_witness :
  process_resend_webhook initial
    (mkWebhook (Some "email.bounced") [Recipient (Some "a@b.com")]
       (Some "msg_1") Null) 10
  = (false, initial)
  /\ fst (process_resend_webhook initial
            (mkWebhook (Some "email.delivery_delayed")
               [Recipient (Some "a@b.com")] (Some "msg_1") Null) 10)
     = true
  /\ fst (process_resend_webhook initial
            (mkWebhook (Some "email.bounced") [NotADict] (Some "msg_1")
               (Text "mailbox full")) 10)
     = false.
Proof.
  pose proof (@webhook_acts_through_the_handlers initial
                (mkWebhook (Some "email.bounced") [Recipient (Some "a@b.com")]
                   (Some "msg_1") Null) 10) as (F & U & _).
  pose proof (@webhook_acts_through_the_handlers initial
                (mkWebhook (Some "email.delivery_delayed")
                   [Recipient (Some "a@b.com")] (Some "msg_1") Null) 10)
    as (D & _).
  pose proof (@webhook_acts_through_the_handlers initial
                (mkWebhook (Some "email.bounced") [NotADict] (Some "msg_1")
                   (Text "mailbox full")) 10) as (M & _).
  assert (fst (process_resend_webhook initial
                 (mkWebhook (Some "email.bounced") [Recipient (Some "a@b.com")]
                    (Some "msg_1") Null) 10) = false) as Refused
    by (apply (proj2 F); right; split; reflexivity).
  split; [|split].
  - rewrite (surjective_pairing (process_resend_webhook _ _ _)).
    rewrite Refused, (U Refused). reflexivity.
  - destruct (fst (process_resend_webhook initial
                     (mkWebhook (Some "email.delivery_delayed")
                        [Recipient (Some "a@b.com")] (Some "msg_1") Null) 10))
      eqn:E; [reflexivity|].
    destruct (proj1 D eq_refl) as [H|[H _]]; discriminate.
  - apply (proj2 M). left. reflexivity.
Defined.

(** X26.  An ["email.bounced"] webhook is typed by its reason text, read
    without regard to case: a reason that mentions "soft" or "temporary"
    is a soft bounce, whatever else it mentions, and leaves the
    suppression list alone when the address has no bounce on file; any
    other reason suppresses the address at once, as ["complained"] when it
    mentions "complaint" or "spam" and as ["bounced"] otherwise. *)
Theorem bounced_webhook_is_typed_by_its_reason :
  forall s w email reason now,
    hd NotADict (wh_to w) = Recipient (Some email) ->
    email <> "" ->
    wh_type w = Some "email.bounced" ->
    wh_reason w = Text reason ->
    let s' := snd (process_resend_webhook s w now) in
    let text := lower reason in
    let transient := contains "soft" text || contains "temporary" text in
    (transient = true ->
     find_bounce (normalize_email email) (bounce_records s) = None ->
     compliance s' = compliance s)
    /\ (transient = false ->
        Compliance.is_email_suppressed (compliance s') email = true)
    /\ (transient = false ->
        Compliance.is_email_suppressed (compliance s) email = false ->
        Compliance.get_suppression_reason (compliance s') email
        = Some (if contains "complaint" text || contains "spam" text
                then "complained" else "bounced")).
Proof.
  intros s w email reason now To Ne Ty Re s' text transient.
  unfold s', process_resend_webhook.
  destruct (wh_to w) as [|first rest]; [discriminate|].
  simpl in To. subst first.
  destruct email as [|c email]; [contradiction|].
  rewrite Ty, Re. simpl opt_eqb. cbv iota. cbn [snd].
  rewrite handle_bounce_compliance. cbv zeta.
  unfold classify. fold text. fold transient.
  destruct transient.
  - split.
    + intros _ F. simpl String.eqb. cbv iota.
      unfold bounced_record. rewrite F. reflexivity.
    + split; discriminate.
  - split; [discriminate|].
    destruct (contains "complaint" text || contains "spam" text);
      simpl String.eqb; cbv iota.
    + split; intros _; [apply suppressed_after_add|apply reason_after_add].
    + split; intros _; [apply suppressed_after_add|apply reason_after_add].
Qed.

Lemma bounced_webhook_is_typed_by_its_reason_witness :
  Compliance.get_suppression_reason
    (compliance
       (snd (process_resend_webhook initial
               (mkWebhook (Some "email.bounced") [Recipient (Some "a@b.com")]
                  (Some "msg_1") (Text "Marked as SPAM by the recipient")) 10)))
    "a@b.com"
  = Some "complained".
Proof.
  refine (proj2 (proj2
            (@bounced_webhook_is_typed_by_its_reason initial
               (mkWebhook (Some "email.bounced") [Recipient (Some "a@b.com")]
                  (Some "msg_1") (Text "Marked as SPAM by the recipient"))
               "a@b.com" "Marked as SPAM by the recipient" 10
               eq_refl _ eq_refl eq_refl)) eq_refl eq_refl).
  discriminate.
Defined.

End WebhookEvents.

Section UnsubscribeAudit.

Lemma add_keeps_unsubscribe_records s email reason source details now :
  EmailComplianceService.unsubscribe_records
    (snd (EmailComplianceService.add_to_suppression_list s email reason source
            details now))
  = EmailComplianceService.unsubscribe_records s.
Proof.
  unfold EmailComplianceService.add_to_suppression_list.
  destruct (EmailComplianceService.is_email_suppressed s (normalize_email email));
    reflexivity.
Qed.

Lemma bulk_keeps_unsubscribe_records emails reason now :
  forall added skipped s,
    EmailComplianceService.unsubscribe_records
      (snd (EmailComplianceService.bulk_import_loop emails reason now added
              skipped s))
    = EmailComplianceService.unsubscribe_records s.
Proof.
  induction emails as [|email emails IH]; intros added skipped s;
    [reflexivity|].
  simpl.
  destruct (negb (EmailComplianceService.is_email_suppressed s
                    (normalize_email email))).
  - rewrite IH. apply add_keeps_unsubscribe_records.
  - apply IH.
Qed.

Lemma handle_bounce_keeps_unsubscribe_records
    s email bounce_type bounce_reason r t w details now :
  EmailComplianceService.unsubscribe_records
    (BounceHandlingService.compliance
       (snd (BounceHandlingService.handle_bounce s email bounce_type
               bounce_reason r t w details now)))
  = EmailComplianceService.unsubscribe_records
      (BounceHandlingService.compliance s).
Proof.
  rewrite handle_bounce_compliance. cbv zeta.
  destruct (String.eqb bounce_type "hard");
    [apply add_keeps_unsubscribe_records|].
  destruct (String.eqb bounce_type "soft").
  - destruct (5 <=? _); [apply add_keeps_unsubscribe_records|reflexivity].
  - destruct (String.eqb bounce_type "complaint");
      [apply add_keeps_unsubscribe_records|reflexivity].
Qed.

(** X27.  The unsubscribe file is an append-only audit trail.  A call of
    the compliance service keeps every unsubscribe record in place and
    adds at most one: only [unsubscribe_email], for an address that is not
    suppressed yet, files a record (under the normal form of the address);
    removing an address from the suppression list leaves its unsubscribe
    record behind.  The bounce service suppresses addresses without ever
    writing an unsubscribe record. *)
Theorem unsubscribe_records_are_append_only :
  (forall c now s,
     exists added,
       EmailComplianceService.unsubscribe_records
         (EmailComplianceService.run c now s)
       = EmailComplianceService.unsubscribe_records s ++ added
       /\ (added = []
           \/ exists email reason source w t ip ua,
                c = EmailComplianceService.Unsubscribe email reason source w t
                      ip ua
                /\ EmailComplianceService.is_email_suppressed s email = false
                /\ added = [EmailComplianceService.mkUnsubscribe
                              (normalize_email email) now reason source w t ip
                              ua]))
  /\ (forall c now s,
        (forall inner, c <> BounceHandlingService.ComplianceCall inner) ->
        EmailComplianceService.unsubscribe_records
          (BounceHandlingService.compliance (BounceHandlingService.run c now s))
        = EmailComplianceService.unsubscribe_records
            (BounceHandlingService.compliance s)).
Proof.
  split.
  - intros c now s.
    destruct c as [email reason source w t ip ua|email reason source details
                  |email|emails reason]; unfold EmailComplianceService.run.
    + unfold EmailComplianceService.unsubscribe_email.
      rewrite is_email_suppressed_normalized.
      destruct (EmailComplianceService.is_email_suppressed s email) eqn:S.
      * exists []. rewrite app_nil_r. auto.
      * eexists. split; [reflexivity|]. right.
        exists email, reason, source, w, t, ip, ua. auto.
    + exists []. rewrite app_nil_r, add_keeps_unsubscribe_records. auto.
    + exists []. rewrite app_nil_r.
      unfold EmailComplianceService.remove_from_suppression_list.
      destruct (_ <? _)%nat; auto.
    + exists []. rewrite app_nil_r.
      unfold EmailComplianceService.bulk_import_suppression_list.
      rewrite bulk_keeps_unsubscribe_records. auto.
  - intros c now s Own.
    destruct c as [inner|email ty reason r t w d|email reason r t w d
                  |email r success|days]; unfold BounceHandlingService.run.
    + destruct (Own inner eq_refl).
    + apply handle_bounce_keeps_unsubscribe_records.
    + unfold BounceHandlingService.handle_delivery_failure. cbn [snd].
      destruct (BounceHandlingService.find_failure _ _ _) as [f|];
        [|reflexivity].
      destruct (_ <? _); [reflexivity|].
      exact (handle_bounce_keeps_unsubscribe_records s _ _ _ _ _ _ _ now).
    + unfold BounceHandlingService.mark_retry_completed.
      destruct (BounceHandlingService.find_failure _ _ _) as [f|];
        [|reflexivity].
      destruct success; [reflexivity|].
      destruct (_ <=? _); [|reflexivity].
      exact (handle_bounce_keeps_unsubscribe_records s _ _ _ _ _ _ _ now).
    + destruct (cleanup_old_records_cases s days now) as [->|(cutoff & ->)];
        reflexivity.
Qed.

End UnsubscribeAudit.
